(** * taskboard: board store, codec, recovery engine and fuzzy search

    A shallow embedding of the TypeScript sources

      - [src/types]                    (data model),
      - [src/hooks/useDatabase.ts]     (codec, migration, board mutations),
      - [src/utils/RecoveryManager.ts] (checksum, tiered recovery),
      - [src/utils/fuzzySearch.ts]     (ranked search, highlighting),

    followed by the properties established about them.

    Conventions of the embedding.
      - A JavaScript string is a Rocq [string]: a sequence of code units,
        confined to the range 0..255 on which [toLowerCase], [\s] and [\w]
        are given exactly.
      - A JavaScript number that the program uses as an integer (orders,
        indices, scores, epoch milliseconds) is a [Z].
      - [Date.now()] is an explicit argument [now] of the operation reading it.
      - An operation that may throw returns a [Js.Exc]; [try]/[catch] is
        [Js.try_catch].
      - The libraries the program calls but does not contain (pako's
        gzip/ungzip, JSON.stringify/parse, TextDecoder, decodeURIComponent)
        are the fields of the class [Platform].
      - What [JSON.parse] returns is a [Value]: a board, or any other
        value, on which property access, truthiness and the spread are
        those of JavaScript ([Dynamic]); the casts of the source check
        nothing.
      - An update of a task ([Partial<Task>]) may carry a key with the
        value undefined: [Some None], as opposed to [None] for a key that
        is not carried. *)

From Stdlib Require Import ZArith List String Ascii Bool Lia Arith.
From Stdlib Require Import QArith Qround.
From Stdlib Require Import Sorted Permutation.
From Stdlib Require Import DecimalString HexadecimalString DecimalZ HexadecimalN.
From Stdlib.Strings Require Byte.
Import ListNotations.

Open Scope string_scope.
Open Scope list_scope.
Open Scope Z_scope.

(* ================================================================== *)
(** * The JavaScript run-time functions the sources rely on           *)
(* ================================================================== *)

Module Js.

(** ** Exceptions *)

Inductive Error : Type :=
| TypeError
| RangeError
| SyntaxError
| InvalidCharacterError
| URIError
| LibraryError (msg : string).

Inductive Exc (A : Type) : Type :=
| Normal (a : A)
| Throw (e : Error).
Arguments Normal {A} a.
Arguments Throw {A} e.

Definition bind {A B} (m : Exc A) (k : A -> Exc B) : Exc B :=
  match m with
  | Normal a => k a
  | Throw e => Throw e
  end.

(** [try { body } catch (error) { handler }] *)
Definition try_catch {A} (body : Exc A) (handler : Error -> Exc A) : Exc A :=
  match body with
  | Normal a => Normal a
  | Throw e => handler e
  end.

Declare Scope exc_scope.
Delimit Scope exc_scope with exc.

Module Notations.
Notation "x <- m ;; k" := (bind m (fun x => k))
  (at level 61, m at next level, right associativity) : exc_scope.
End Notations.

(** ** Characters *)

Definition code (c : ascii) : Z := Z.of_N (N_of_ascii c).

Definition in_range (lo hi : Z) (c : ascii) : bool :=
  (lo <=? code c) && (code c <=? hi).

(** White space and line terminators below U+0100: the class [\s] of
    regular expressions, and what [trim] strips. *)
Definition isWhiteSpace (c : ascii) : bool :=
  in_range 9 13 c || (code c =? 32) || (code c =? 160).

(** The class [\w]: [A-Za-z0-9_]. *)
Definition isWordChar (c : ascii) : bool :=
  in_range 65 90 c || in_range 97 122 c || in_range 48 57 c || (code c =? 95).

(** [toLowerCase] on one code unit below U+0100: the letters A to Z and
    those from U+00C0 to U+00DE, the multiplication sign apart, move up by
    32. *)
Definition lowerChar (c : ascii) : ascii :=
  if in_range 65 90 c || (in_range 192 222 c && negb (code c =? 215))
  then ascii_of_N (N_of_ascii c + 32)
  else c.

(** ** Strings *)

Fixpoint map_string (f : ascii -> ascii) (s : string) : string :=
  match s with
  | EmptyString => EmptyString
  | String c r => String (f c) (map_string f r)
  end.

(** The strings of this embedding hold code units below U+0100, on which
    [toLowerCase] works unit by unit and keeps the length.  Outside that
    range it may lengthen a text (U+0130 becomes two code units); where
    the source takes the length of a lowered text, so do the statements. *)
Definition toLowerCase (s : string) : string := map_string lowerChar s.

Definition len (s : string) : Z := Z.of_nat (String.length s).

Fixpoint take (n : nat) (s : string) : string :=
  match n, s with
  | S n', String c r => String c (take n' r)
  | _, _ => EmptyString
  end.

Fixpoint drop (n : nat) (s : string) : string :=
  match n, s with
  | S n', String _ r => drop n' r
  | _, _ => s
  end.

(** Relative index of [slice]/[splice]: negative counts from the end,
    everything is clamped to [0..size]. *)
Definition clampIndex (size i : Z) : Z :=
  if i <? 0 then Z.max (size + i) 0 else Z.min i size.

(** [s.slice(from, to)] *)
Definition slice (s : string) (from to : Z) : string :=
  let k := clampIndex (len s) from in
  let final := clampIndex (len s) to in
  take (Z.to_nat (Z.max (final - k) 0)) (drop (Z.to_nat k) s).

(** [s.slice(from)] *)
Definition sliceFrom (s : string) (from : Z) : string :=
  slice s from (len s).

Fixpoint trimStart (s : string) : string :=
  match s with
  | String c r => if isWhiteSpace c then trimStart r else s
  | EmptyString => EmptyString
  end.

Fixpoint trimEnd (s : string) : string :=
  match s with
  | EmptyString => EmptyString
  | String c r =>
      match trimEnd r with
      | EmptyString => if isWhiteSpace c then EmptyString else String c EmptyString
      | r' => String c r'
      end
  end.

Definition trim (s : string) : string := trimEnd (trimStart s).

Definition startsWith (s q : string) : bool := String.prefix q s.

(** [s.indexOf(q, pos)] for [0 <= pos]: the search runs over the suffixes of
    [s]; [k] counts the code units already passed. *)
Fixpoint indexOf_go (q s : string) (pos k : nat) : option nat :=
  match pos with
  | S pos' =>
      match s with
      | String _ r => indexOf_go q r pos' (S k)
      | EmptyString => if String.eqb q EmptyString then Some k else None
      end
  | O =>
      if String.prefix q s then Some k
      else match s with
           | String _ r => indexOf_go q r O (S k)
           | EmptyString => None
           end
  end.

Definition indexOf (s q : string) (pos : nat) : option nat :=
  indexOf_go q s pos O.

Definition includes (s q : string) : bool :=
  match indexOf s q O with Some _ => true | None => false end.

Definition startsWithWhiteSpace (s : string) : bool :=
  match s with
  | String c _ => isWhiteSpace c
  | EmptyString => false
  end.

(** [s.split(/\s+/)]: the pieces between the maximal runs of white space;
    a run at either end leaves an empty piece there. *)
Fixpoint splitWhiteSpace (s : string) : list string :=
  match s with
  | EmptyString => [EmptyString]
  | String c r =>
      if isWhiteSpace c then
        if startsWithWhiteSpace r then splitWhiteSpace r
        else EmptyString :: splitWhiteSpace r
      else
        match splitWhiteSpace r with
        | w :: ws => String c w :: ws
        | [] => [String c EmptyString]
        end
  end.

(** [s.split(sep)] for a separator of one code unit. *)
Fixpoint splitChar (sep : ascii) (s : string) : list string :=
  match s with
  | EmptyString => [EmptyString]
  | String c r =>
      if Ascii.eqb c sep then EmptyString :: splitChar sep r
      else
        match splitChar sep r with
        | w :: ws => String c w :: ws
        | [] => [String c EmptyString]
        end
  end.

(** [parts.join('')] *)
Definition join (parts : list string) : string :=
  fold_right String.append EmptyString parts.

Definition nonEmpty (s : string) : bool := negb (String.eqb s EmptyString).

(** ** Numbers as text *)

(** [`${n}`] and [n.toString()] for an integer [n]. *)
Definition toString (n : Z) : string :=
  DecimalString.NilZero.string_of_int (Z.to_int n).

(** [n.toString(16)] for a non-negative integer [n]. *)
Definition toString16 (n : Z) : string :=
  HexadecimalString.NilZero.string_of_uint (N.to_hex_uint (Z.to_N n)).

(** [ToInt32]: the value modulo 2^32, read as a signed 32-bit integer. *)
Definition toInt32 (z : Z) : Z :=
  (z + 2 ^ 31) mod 2 ^ 32 - 2 ^ 31.

(** [a << n] and [a & b] on numbers: both operands go through [ToInt32], and
    so does the result. *)
Definition shiftLeft (a n : Z) : Z := toInt32 (Z.shiftl (toInt32 a) n).
Definition bitAnd (a b : Z) : Z := toInt32 (Z.land (toInt32 a) (toInt32 b)).

(** ** Arrays *)

(** [xs.sort(cmp)] with a comparator: the sort is stable, an element moves
    in front of another only when the comparator is not positive on the
    pair taken in their original order. *)
Fixpoint sort_insert {A} (cmp : A -> A -> Z) (x : A) (l : list A) : list A :=
  match l with
  | [] => [x]
  | y :: l' => if cmp x y <=? 0 then x :: l else y :: sort_insert cmp x l'
  end.

Definition sort {A} (cmp : A -> A -> Z) (l : list A) : list A :=
  fold_right (sort_insert cmp) [] l.

(** The comparators [(a, b) => a.key - b.key] and [(a, b) => b.key - a.key]. *)
Definition ascending {A} (key : A -> Z) (a b : A) : Z := key a - key b.
Definition descending {A} (key : A -> Z) (a b : A) : Z := key b - key a.

(** [xs.splice(start, 0, item)] *)
Definition splice_insert {A} (l : list A) (start : Z) (item : A) : list A :=
  let k := Z.to_nat (clampIndex (Z.of_nat (List.length l)) start) in
  firstn k l ++ item :: skipn k l.

(** [xs.forEach((t, index) => ...)] / [xs.map((t, index) => ...)] with the
    index made explicit. *)
Fixpoint mapi_from {A B} (f : Z -> A -> B) (k : Z) (l : list A) : list B :=
  match l with
  | [] => []
  | x :: l' => f k x :: mapi_from f (k + 1) l'
  end.

Definition mapi {A B} (f : Z -> A -> B) (l : list A) : list B :=
  mapi_from f 0 l.

(** [xs.map(f)] when [f] may throw: the first exception ends the loop. *)
Fixpoint mapM {A B} (f : A -> Exc B) (l : list A) : Exc (list B) :=
  match l with
  | [] => Normal []
  | x :: l' =>
      bind (f x) (fun y => bind (mapM f l') (fun ys => Normal (y :: ys)))
  end.


(** ** Base64: [btoa] and [atob]

    A binary string is a string whose code units are bytes; every [string] of
    this embedding is one, so that [btoa] never meets a code unit above 255. *)

(** Six bits, most significant first. *)
Inductive sextet : Type :=
| Sextet (b5 b4 b3 b2 b1 b0 : bool).

Definition sextet_value (s : sextet) : N :=
  let 'Sextet b5 b4 b3 b2 b1 b0 := s in
  (N.b2n b5 * 32 + N.b2n b4 * 16 + N.b2n b3 * 8
   + N.b2n b2 * 4 + N.b2n b1 * 2 + N.b2n b0)%N.

Definition sextet_of_value (v : N) : sextet :=
  Sextet (N.testbit v 5) (N.testbit v 4) (N.testbit v 3)
         (N.testbit v 2) (N.testbit v 1) (N.testbit v 0).

(** The alphabet [A-Za-z0-9+/]. *)
Definition sextet_char (s : sextet) : ascii :=
  let v := sextet_value s in
  if (v <? 26)%N then ascii_of_N (65 + v)
  else if (v <? 52)%N then ascii_of_N (97 + (v - 26))
  else if (v <? 62)%N then ascii_of_N (48 + (v - 52))
  else if (v =? 62)%N then "+"%char
  else "/"%char.

Definition char_sextet (c : ascii) : option sextet :=
  let n := N_of_ascii c in
  if ((65 <=? n) && (n <=? 90))%N then Some (sextet_of_value (n - 65))
  else if ((97 <=? n) && (n <=? 122))%N then Some (sextet_of_value (n - 97 + 26))
  else if ((48 <=? n) && (n <=? 57))%N then Some (sextet_of_value (n - 48 + 52))
  else if (n =? 43)%N then Some (sextet_of_value 62)
  else if (n =? 47)%N then Some (sextet_of_value 63)
  else None.

Fixpoint to_sextets (l : list ascii) : list sextet :=
  match l with
  | Ascii x0 x1 x2 x3 x4 x5 x6 x7
      :: Ascii y0 y1 y2 y3 y4 y5 y6 y7
      :: Ascii z0 z1 z2 z3 z4 z5 z6 z7 :: r =>
      Sextet x7 x6 x5 x4 x3 x2 :: Sextet x1 x0 y7 y6 y5 y4
        :: Sextet y3 y2 y1 y0 z7 z6 :: Sextet z5 z4 z3 z2 z1 z0
        :: to_sextets r
  | [Ascii x0 x1 x2 x3 x4 x5 x6 x7; Ascii y0 y1 y2 y3 y4 y5 y6 y7] =>
      [Sextet x7 x6 x5 x4 x3 x2; Sextet x1 x0 y7 y6 y5 y4;
       Sextet y3 y2 y1 y0 false false]
  | [Ascii x0 x1 x2 x3 x4 x5 x6 x7] =>
      [Sextet x7 x6 x5 x4 x3 x2; Sextet x1 x0 false false false false]
  | [] => []
  end.

Fixpoint padding (l : list ascii) : list ascii :=
  match l with
  | _ :: _ :: _ :: r => padding r
  | [_; _] => ["="%char]
  | [_] => ["="%char; "="%char]
  | [] => []
  end.

Definition base64_encode (l : list ascii) : list ascii :=
  map sextet_char (to_sextets l) ++ padding l.

(** [btoa(s)] *)
Definition btoa (s : string) : Exc string :=
  Normal (string_of_list_ascii (base64_encode (list_ascii_of_string s))).

(** Groups of four sextets give three bytes; a last group of two gives one
    byte and of three gives two, the bits left over being dropped. *)
Fixpoint of_sextets (l : list sextet) : list ascii :=
  match l with
  | Sextet a5 a4 a3 a2 a1 a0 :: Sextet b5 b4 b3 b2 b1 b0
      :: Sextet c5 c4 c3 c2 c1 c0 :: Sextet d5 d4 d3 d2 d1 d0 :: r =>
      Ascii b4 b5 a0 a1 a2 a3 a4 a5 :: Ascii c2 c3 c4 c5 b0 b1 b2 b3
        :: Ascii d0 d1 d2 d3 d4 d5 c0 c1 :: of_sextets r
  | [Sextet a5 a4 a3 a2 a1 a0; Sextet b5 b4 b3 b2 b1 b0;
     Sextet c5 c4 c3 c2 c1 c0] =>
      [Ascii b4 b5 a0 a1 a2 a3 a4 a5; Ascii c2 c3 c4 c5 b0 b1 b2 b3]
  | [Sextet a5 a4 a3 a2 a1 a0; Sextet b5 b4 b3 b2 b1 b0] =>
      [Ascii b4 b5 a0 a1 a2 a3 a4 a5]
  | _ => []
  end.

Definition isAsciiWhitespace (c : ascii) : bool :=
  (code c =? 9) || (code c =? 10) || (code c =? 12) || (code c =? 13)
  || (code c =? 32).

(** One or two [=] at the end are removed. *)
Definition stripPadding (l : list ascii) : list ascii :=
  match rev l with
  | "="%char :: "="%char :: r => rev r
  | "="%char :: r => rev r
  | _ => l
  end.

Fixpoint chars_sextets (l : list ascii) : option (list sextet) :=
  match l with
  | [] => Some []
  | c :: r =>
      match char_sextet c, chars_sextets r with
      | Some s, Some ss => Some (s :: ss)
      | _, _ => None
      end
  end.

(** The forgiving-base64 decoding of the HTML standard. *)
Definition base64_decode (data : list ascii) : option (list ascii) :=
  let data := filter (fun c => negb (isAsciiWhitespace c)) data in
  let data :=
    if (List.length data mod 4 =? 0)%nat then stripPadding data else data in
  if (List.length data mod 4 =? 1)%nat then None
  else option_map of_sextets (chars_sextets data).

(** [atob(s)] *)
Definition atob (s : string) : Exc string :=
  match base64_decode (list_ascii_of_string s) with
  | Some l => Normal (string_of_list_ascii l)
  | None => Throw InvalidCharacterError
  end.

End Js.

(* ================================================================== *)
(** * src/types                                                        *)
(* ================================================================== *)

Module Types.

Inductive Priority : Type := urgent | high | medium | low.
Inductive Status : Type := not_started | in_progress | paused | done.
Inductive AttachmentType : Type := link | image | file.

(** The string each value is at run time. *)
Definition Priority_string (p : Priority) : string :=
  match p with
  | urgent => "urgent" | high => "high" | medium => "medium" | low => "low"
  end.

Definition Status_string (s : Status) : string :=
  match s with
  | not_started => "not-started" | in_progress => "in-progress"
  | paused => "paused" | done => "done"
  end.

Definition AttachmentType_string (t : AttachmentType) : string :=
  match t with link => "link" | image => "image" | file => "file" end.

Definition Status_eqb (a b : Status) : bool :=
  match a, b with
  | not_started, not_started | in_progress, in_progress
  | paused, paused | done, done => true
  | _, _ => false
  end.

Module SubNote.
Record t : Type := mk { id : string; content : string; createdAt : Z }.
End SubNote.

Module Subtask.
Record t : Type :=
  mk { id : string; title : string; completed : bool; createdAt : Z }.
End Subtask.

Module Attachment.
Record t : Type :=
  mk { id : string; type : AttachmentType; name : string; url : string;
       size : option Z; mimeType : option string; createdAt : Z }.
End Attachment.

Module Tag.
Record t : Type := mk { id : string; name : string; color : string }.
End Tag.

(** A task as it is met at run time.  [description] and [completedAt] are
    optional by declaration.  [status], [subtasks], [attachments] and [tags]
    are declared mandatory, but boards stored by earlier revisions lack
    them, which is what [migrateState] repairs: they are optional here, and
    [None] is the missing (undefined) property. *)
Module Task.
Record t : Type :=
  mk { id : string;
       title : string;
       description : option string;
       priority : Priority;
       status : option Status;
       notes : list SubNote.t;
       subtasks : option (list Subtask.t);
       attachments : option (list Attachment.t);
       tags : option (list string);
       columnId : string;
       order : Z;
       createdAt : Z;
       completedAt : option Z }.

Definition set_priority (task : t) (p : Priority) : t :=
  mk (id task) (title task) (description task) p (status task) (notes task)
     (subtasks task) (attachments task) (tags task) (columnId task)
     (order task) (createdAt task) (completedAt task).

Definition set_status (task : t) (s : option Status) : t :=
  mk (id task) (title task) (description task) (priority task) s (notes task)
     (subtasks task) (attachments task) (tags task) (columnId task)
     (order task) (createdAt task) (completedAt task).

Definition set_tags (task : t) (ts : option (list string)) : t :=
  mk (id task) (title task) (description task) (priority task) (status task)
     (notes task) (subtasks task) (attachments task) ts (columnId task)
     (order task) (createdAt task) (completedAt task).

Definition set_columnId (task : t) (c : string) : t :=
  mk (id task) (title task) (description task) (priority task) (status task)
     (notes task) (subtasks task) (attachments task) (tags task) c
     (order task) (createdAt task) (completedAt task).

Definition set_order (task : t) (o : Z) : t :=
  mk (id task) (title task) (description task) (priority task) (status task)
     (notes task) (subtasks task) (attachments task) (tags task)
     (columnId task) o (createdAt task) (completedAt task).

Definition set_completedAt (task : t) (c : option Z) : t :=
  mk (id task) (title task) (description task) (priority task) (status task)
     (notes task) (subtasks task) (attachments task) (tags task)
     (columnId task) (order task) (createdAt task) c.
End Task.

(** [Partial<Task>]: [None] is a key that the object does not carry, and
    [Some None] a key that it carries with the value undefined, which the
    type admits for every key and the spread copies like any other value.
    The six properties that a task may lack can be carried that way.  The
    other seven are carried with a value when they are carried: a task on
    which one of them is undefined is not a value of [Task.t]. *)
Module PartialTask.
Record t : Type :=
  mk { id : option string;
       title : option string;
       description : option (option string);
       priority : option Priority;
       status : option (option Status);
       notes : option (list SubNote.t);
       subtasks : option (option (list Subtask.t));
       attachments : option (option (list Attachment.t));
       tags : option (option (list string));
       columnId : option string;
       order : option Z;
       createdAt : option Z;
       completedAt : option (option Z) }.

Definition empty : t :=
  mk None None None None None None None None None None None None None.
End PartialTask.

Module Column.
Record t : Type := mk { id : string; title : string; order : Z }.
End Column.

(** [tags] is optional for the same reason as the four task fields. *)
Module BoardState.
Record t : Type :=
  mk { columns : list Column.t;
       tasks : list Task.t;
       tags : option (list Tag.t) }.
End BoardState.

Definition TAG_COLORS : list string :=
  ["#ef4444"; "#f97316"; "#eab308"; "#22c55e";
   "#06b6d4"; "#3b82f6"; "#8b5cf6"; "#ec4899"].

(** [a || b] on a property that may be missing. *)
Definition or_default {A} (a : option A) (b : A) : A :=
  match a with Some x => x | None => b end.

(** [{ ...task, ...updates }]: every key that [updates] carries wins,
    undefined values included. *)
Definition spread (task : Task.t) (updates : PartialTask.t) : Task.t :=
  Task.mk
    (or_default (PartialTask.id updates) (Task.id task))
    (or_default (PartialTask.title updates) (Task.title task))
    (or_default (PartialTask.description updates) (Task.description task))
    (or_default (PartialTask.priority updates) (Task.priority task))
    (or_default (PartialTask.status updates) (Task.status task))
    (or_default (PartialTask.notes updates) (Task.notes task))
    (or_default (PartialTask.subtasks updates) (Task.subtasks task))
    (or_default (PartialTask.attachments updates) (Task.attachments task))
    (or_default (PartialTask.tags updates) (Task.tags task))
    (or_default (PartialTask.columnId updates) (Task.columnId task))
    (or_default (PartialTask.order updates) (Task.order task))
    (or_default (PartialTask.createdAt updates) (Task.createdAt task))
    (or_default (PartialTask.completedAt updates) (Task.completedAt task)).

(** ** What [JSON.parse] returns *)

(** A number of JavaScript that is not NaN: the rational that a finite
    double is, or an infinity, which [JSON.parse] makes of a literal too
    large for a double. *)
Inductive Number : Type :=
| Finite (value : Q)
| Infinite (negative : bool).

(** A value as [JSON.parse] builds it.  An object is the list of its own
    properties in the order in which they are enumerated. *)
#[warnings="-register-all"] Inductive Json : Type :=
| JNull
| JBool (b : bool)
| JNumber (n : Number)
| JString (s : string)
| JArray (items : list Json)
| JObject (properties : list (string * Json)).

(** What the program holds where it declares a [BoardState].  The casts
    [JSON.parse(json) as BoardState] are not checked, so the value may be
    anything that [JSON.parse] returns: [Board b] is a value that has the
    shape of a board, [Other j] stands for any value, read through the
    properties that the program asks it for. *)
Inductive Value : Type :=
| Board (b : BoardState.t)
| Other (j : Json).

End Types.

(* ================================================================== *)
(** * Property access on a parsed value                                *)
(* ================================================================== *)

(** The operations that the program applies to a value it has not
    checked, as JavaScript defines them on the values of [Json]. *)
Module Dynamic.
Import Types.
Import Js.Notations.
Local Open Scope exc_scope.

(** ToBoolean *)
Definition truthy (value : Json) : bool :=
  match value with
  | JNull => false
  | JBool b => b
  | JNumber (Finite q) => negb (Qeq_bool q 0%Q)
  | JNumber (Infinite _) => true
  | JString s => Js.nonEmpty s
  | JArray _ | JObject _ => true
  end.

(** The same on a property that may be missing: undefined is falsy. *)
Definition truthy_property (property : option Json) : bool :=
  match property with
  | Some value => truthy value
  | None => false
  end.

(** The own property [key] of an object; [None] is undefined. *)
Fixpoint lookup (key : string) (properties : list (string * Json))
  : option Json :=
  match properties with
  | [] => None
  | (k, v) :: rest => if String.eqb k key then Some v else lookup key rest
  end.

(** [value.key], for the keys that the program reads from an unchecked
    value: [columns], [tasks], [tags], [status], [subtasks] and
    [attachments].  None of them is an index or [length], and no prototype
    defines one of them, so that only an object can have them; reading a
    property of [null] throws. *)
Definition get (value : Json) (key : string) : Js.Exc (option Json) :=
  match value with
  | JNull => Js.Throw Js.TypeError
  | JObject properties => Js.Normal (lookup key properties)
  | _ => Js.Normal None
  end.

(** ToBoolean of what the program holds as a board. *)
Definition truthy_value (value : Value) : bool :=
  match value with
  | Board _ => true
  | Other j => truthy j
  end.

(** [a || b] *)
Definition or_else (property : option Json) (default : Json) : Json :=
  match property with
  | Some value => if truthy value then value else default
  | None => default
  end.

(** The key is given the value: in place when the object has the key, as
    its last property otherwise (the keys written this way are no
    indices). *)
Fixpoint set (key : string) (value : Json) (properties : list (string * Json))
  : list (string * Json) :=
  match properties with
  | [] => [(key, value)]
  | (k, v) :: rest =>
      if String.eqb k key then (key, value) :: rest
      else (k, v) :: set key value rest
  end.

Fixpoint characters (s : string) : list Json :=
  match s with
  | EmptyString => []
  | String c r => JString (String c EmptyString) :: characters r
  end.

(** The own enumerable properties that [{ ...value }] copies: those of an
    object, the elements of an array and the code units of a string under
    their indices, nothing for the other values. *)
Definition ownProperties (value : Json) : list (string * Json) :=
  match value with
  | JObject properties => properties
  | JArray items => Js.mapi (fun index item => (Js.toString index, item)) items
  | JString s =>
      Js.mapi (fun index item => (Js.toString index, item)) (characters s)
  | _ => []
  end.

End Dynamic.

(* ================================================================== *)
(** * Libraries outside the repository                                 *)
(* ================================================================== *)

(** What the program calls and does not define.  [JSON_parse] returns any
    value; the source casts it to [BoardState] without a check.
    [fromCharCode_max_args] is the engine's bound on the number of
    arguments of [Function.prototype.apply]. *)
Class Platform : Type := {
  JSON_stringify : Types.Value -> string;
  JSON_parse : string -> Js.Exc Types.Value;
  pako_gzip : string -> Js.Exc (list Byte.byte);
  pako_ungzip : list Byte.byte -> Js.Exc (list Byte.byte);
  TextDecoder_decode : list Byte.byte -> string;
  fromCharCode_max_args : nat;
  decodeURIComponent : string -> Js.Exc string
}.

(** [String.fromCharCode.apply(null, Array.from(bytes))] *)
Definition fromCharCode_apply `{Platform} (bytes : list Byte.byte)
  : Js.Exc string :=
  if (List.length bytes <=? fromCharCode_max_args)%nat
  then Js.Normal (string_of_list_byte bytes)
  else Js.Throw Js.RangeError.

(** The loop [bytes[i] = binaryString.charCodeAt(i)] over a new
    [Uint8Array(binaryString.length)]. *)
Definition bytes_of_binaryString (binaryString : string) : list Byte.byte :=
  list_byte_of_string binaryString.

(* ================================================================== *)
(** * src/utils/RecoveryManager.ts                                     *)
(* ================================================================== *)

Module RecoveryManager.
Import Types.
Import Js.Notations.
Local Open Scope exc_scope.

Record BackupRecord : Type :=
  mkBackup { data : string; timestamp : Z; hash : string }.

Definition RECOVERY_STORAGE_KEY : string := "taskboard-recovery-backup".
Definition RECOVERY_COOKIE_KEY : string := "taskboard-recovery-b64".
Definition RECOVERY_HASH_KEY : string := "taskboard-recovery-hash".

(** One turn of the loop of [generateHash]:
    [hash = ((hash << 5) - hash) + char; hash = hash & hash]. *)
Definition hash_step (hash char : Z) : Z :=
  let hash := (Js.shiftLeft hash 5 - hash) + char in
  Js.bitAnd hash hash.

(** The loop, [char] being [data.charCodeAt(i)]. *)
Fixpoint hash_loop (hash : Z) (data : string) : Z :=
  match data with
  | EmptyString => hash
  | String c r => hash_loop (hash_step hash (Js.code c)) r
  end.

Definition generateHash (data : string) : string :=
  Js.toString16 (Z.abs (hash_loop 0 data)).

Definition verifyHash (data hash : string) : bool :=
  String.eqb (generateHash data) hash.

(** The record [backupData] that [createRecoveryBackup] builds and hands
    to the three stores. *)
Definition backupData `{Platform} (state : Value) (now : Z)
  : Js.Exc BackupRecord :=
  let json := JSON_stringify state in
  compressed <- pako_gzip json ;;
  binary <- fromCharCode_apply compressed ;;
  base64 <- Js.btoa binary ;;
  let hash := generateHash base64 in
  Js.Normal (mkBackup base64 now hash).

Definition Invalid_backup_structure : Js.Error :=
  Js.LibraryError "Invalid backup structure".

Definition missing {A} (o : option A) : bool :=
  match o with Some _ => false | None => true end.

(** [!state.columns || !state.tasks || !state.tags], the test of
    [decompressBackup] and of [importBoard].  On a board [columns] and
    [tasks] are arrays, so that only [tags] can fail it; on another value
    the three properties are read, which throws on [null], and tested for
    a truthy value, whatever it is. *)
Definition lacksStructure (state : Value) : Js.Exc bool :=
  match state with
  | Board b =>
      Js.Normal
        (missing (Some (BoardState.columns b))
         || missing (Some (BoardState.tasks b))
         || missing (BoardState.tags b))
  | Other j =>
      columns <- Dynamic.get j "columns" ;;
      if negb (Dynamic.truthy_property columns) then Js.Normal true
      else
        tasks <- Dynamic.get j "tasks" ;;
        if negb (Dynamic.truthy_property tasks) then Js.Normal true
        else
          tags <- Dynamic.get j "tags" ;;
          Js.Normal (negb (Dynamic.truthy_property tags))
  end.

(** [decompressBackup]: [null] is [None]. *)
Definition decompressBackup `{Platform} (base64 : string)
  : option Value :=
  let attempt :=
    binaryString <- Js.atob base64 ;;
    let bytes := bytes_of_binaryString binaryString in
    decompressed <- pako_ungzip bytes ;;
    let json := TextDecoder_decode decompressed in
    state <- JSON_parse json ;;
    lacks <- lacksStructure state ;;
    if lacks
    then Js.Throw Invalid_backup_structure
    else Js.Normal state in
  match attempt with
  | Js.Normal state => Some state
  | Js.Throw _ => None
  end.

(** The loop of [getCookieValue] over [document.cookie.split(';')]. *)
Fixpoint getCookieValue_loop `{Platform} (nameEQ : string)
  (cookies : list string) : Js.Exc (option string) :=
  match cookies with
  | [] => Js.Normal None
  | cookie :: rest =>
      let cookie := Js.trim cookie in
      if Js.startsWith cookie nameEQ
      then value <- decodeURIComponent
                      (Js.sliceFrom cookie (Js.len nameEQ)) ;;
           Js.Normal (Some value)
      else getCookieValue_loop nameEQ rest
  end.

Definition getCookieValue `{Platform} (document_cookie : string)
  (name : string) : Js.Exc (option string) :=
  let nameEQ := String.append name "=" in
  getCookieValue_loop nameEQ (Js.splitChar ";" document_cookie).

(** What the three stores answer when read; each read may throw. *)
Record Stores : Type := {
  idb_get_backup : Js.Exc (option BackupRecord);
  localStorage_getItem : string -> Js.Exc (option string);
  document_cookie : Js.Exc string
}.

Inductive Source : Type := indexeddb | localstorage | cookies.

Record Recovery : Type :=
  mkRecovery { recovered : bool;
               state : option Value;
               source : option Source }.

Definition no_recovery : Recovery := mkRecovery false None None.

(** A string that is neither [null] nor empty. *)
Definition truthy (s : option string) : bool :=
  match s with Some v => Js.nonEmpty v | None => false end.

Definition tier_indexeddb `{Platform} (st : Stores)
  : Js.Exc (option Recovery) :=
  backup <- idb_get_backup st ;;
  match backup with
  | Some backup =>
      if verifyHash (data backup) (hash backup) then
        match decompressBackup (data backup) with
        | Some recovered =>
            if Dynamic.truthy_value recovered
            then Js.Normal
                   (Some (mkRecovery true (Some recovered) (Some indexeddb)))
            else Js.Normal None
        | None => Js.Normal None
        end
      else Js.Normal None
  | None => Js.Normal None
  end.

Definition tier_localstorage `{Platform} (st : Stores)
  : Js.Exc (option Recovery) :=
  base64 <- localStorage_getItem st RECOVERY_STORAGE_KEY ;;
  storedHash <- localStorage_getItem st RECOVERY_HASH_KEY ;;
  match base64, storedHash with
  | Some b, Some h =>
      if truthy base64 && truthy storedHash && verifyHash b h then
        match decompressBackup b with
        | Some recovered =>
            if Dynamic.truthy_value recovered
            then Js.Normal
                   (Some (mkRecovery true (Some recovered)
                            (Some localstorage)))
            else Js.Normal None
        | None => Js.Normal None
        end
      else Js.Normal None
  | _, _ => Js.Normal None
  end.

Definition tier_cookies `{Platform} (st : Stores)
  : Js.Exc (option Recovery) :=
  cookie <- document_cookie st ;;
  cookieValue <- getCookieValue cookie RECOVERY_COOKIE_KEY ;;
  cookieHash <- getCookieValue cookie RECOVERY_HASH_KEY ;;
  match cookieValue, cookieHash with
  | Some v, Some h =>
      if truthy cookieValue && truthy cookieHash && verifyHash v h then
        match decompressBackup v with
        | Some recovered =>
            if Dynamic.truthy_value recovered
            then Js.Normal
                   (Some (mkRecovery true (Some recovered) (Some cookies)))
            else Js.Normal None
        | None => Js.Normal None
        end
      else Js.Normal None
  | _, _ => Js.Normal None
  end.

(** Each tier sits in a [try] of its own whose [catch] only logs; a tier
    that answers [None] or throws hands over to the next one.  In a tier,
    [if (recovered)] is the match on [Some] followed by the test for a
    truthy value. *)
Definition guarded {A} (tier : Js.Exc (option A)) : Js.Exc (option A) :=
  Js.try_catch tier (fun _ => Js.Normal None).

Definition attemptRecovery `{Platform} (st : Stores) : Js.Exc Recovery :=
  Js.try_catch
    (r1 <- guarded (tier_indexeddb st) ;;
     match r1 with
     | Some r => Js.Normal r
     | None =>
         r2 <- guarded (tier_localstorage st) ;;
         match r2 with
         | Some r => Js.Normal r
         | None =>
             r3 <- guarded (tier_cookies st) ;;
             match r3 with
             | Some r => Js.Normal r
             | None => Js.Normal no_recovery
             end
         end
     end)
    (fun _ => Js.Normal no_recovery).

(** ** [createRecoveryBackup] *)

Definition RECOVERY_TIMESTAMP_KEY : string := "taskboard-recovery-timestamp".

(** A write that reached a store. *)
Inductive Write : Type :=
| IdbPut (record : BackupRecord)
| SetItem (key value : string)
| SetCookie (text : string).

(** What the three stores do when written to (the first includes
    [getRecoveryDB()]), the text of [JSON.stringify(backupData)], and the
    text of [expiryDate.toUTCString()], thirty days from now. *)
Record Writers : Type := {
  idb_put : BackupRecord -> Js.Exc unit;
  localStorage_setItem : string -> string -> Js.Exc unit;
  document_cookie_set : string -> Js.Exc unit;
  JSON_stringify_backup : BackupRecord -> string;
  expires_toUTCString : string
}.

Definition perform_one (w : Writers) (x : Write) : Js.Exc unit :=
  match x with
  | IdbPut record => idb_put w record
  | SetItem key value => localStorage_setItem w key value
  | SetCookie text => document_cookie_set w text
  end.

(** The writes of one [try] block, in order: the flag tells whether the end
    of the block, with its [successCount++], was reached; the list holds the
    writes done before one threw. *)
Fixpoint perform (w : Writers) (xs : list Write) : bool * list Write :=
  match xs with
  | [] => (true, [])
  | x :: rest =>
      match perform_one w x with
      | Js.Normal _ =>
          let '(ok, made) := perform w rest in (ok, x :: made)
      | Js.Throw _ => (false, [])
      end
  end.

Definition localStorage_writes (backup : BackupRecord) : list Write :=
  [ SetItem RECOVERY_STORAGE_KEY (data backup);
    SetItem RECOVERY_HASH_KEY (hash backup);
    SetItem RECOVERY_TIMESTAMP_KEY (Js.toString (timestamp backup)) ].

Definition cookie_writes (w : Writers) (backup : BackupRecord) : list Write :=
  let attributes :=
    String.append ";path=/;expires=" (expires_toUTCString w) in
  let cookieValue := String.append (data backup) attributes in
  [ SetCookie
      (String.append RECOVERY_COOKIE_KEY (String.append "=" cookieValue));
    SetCookie
      (String.append RECOVERY_HASH_KEY
         (String.append "=" (String.append (hash backup) attributes))) ].

Definition count (succeeded : bool) : Z := if succeeded then 1 else 0.

(** The result and the writes done, in order. *)
Definition createRecoveryBackup `{Platform} (w : Writers)
  (state : Value) (now : Z) : bool * list Write :=
  match backupData state now with
  | Js.Throw _ => (false, [])
  | Js.Normal backup =>
      let '(ok1, made1) := perform w [IdbPut backup] in
      let '(ok2, made2) :=
        if Js.len (JSON_stringify_backup w backup) <? 4 * 1024 * 1024
        then perform w (localStorage_writes backup)
        else (false, []) in
      let '(ok3, made3) :=
        if Js.len (data backup) <? 3000
        then perform w (cookie_writes w backup)
        else (false, []) in
      let successCount := count ok1 + count ok2 + count ok3 in
      (successCount >? 0, made1 ++ made2 ++ made3)
  end.

End RecoveryManager.

(* ================================================================== *)
(** * src/hooks/useDatabase.ts                                         *)
(* ================================================================== *)

Module Database.
Import Types.
Import Js.Notations.
Local Open Scope exc_scope.

(** [TAG_COLORS[i]] *)
Definition TAG_COLOR (i : nat) : string := nth i TAG_COLORS EmptyString.

Definition defaultTags : list Tag.t :=
  [ Tag.mk "tag-1" "Bug" (TAG_COLOR 0);
    Tag.mk "tag-2" "Feature" (TAG_COLOR 4);
    Tag.mk "tag-3" "Urgent" (TAG_COLOR 1);
    Tag.mk "tag-4" "Design" (TAG_COLOR 6) ].

Definition defaultState : BoardState.t :=
  BoardState.mk
    [ Column.mk "col-1" "To Do" 0;
      Column.mk "col-2" "In Progress" 1;
      Column.mk "col-3" "Done" 2 ]
    []
    (Some defaultTags).

(** The callback of [state.tasks.map] in [migrateState]. *)
Definition migrateTask (task : Task.t) : Task.t :=
  Task.mk (Task.id task) (Task.title task) (Task.description task)
    (Task.priority task)
    (Some (or_default (Task.status task) not_started))
    (Task.notes task)
    (Some (or_default (Task.subtasks task) []))
    (Some (or_default (Task.attachments task) []))
    (Some (or_default (Task.tags task) []))
    (Task.columnId task) (Task.order task) (Task.createdAt task)
    (Task.completedAt task).

Definition migrateState (state : BoardState.t) : BoardState.t :=
  let migratedTasks := map migrateTask (BoardState.tasks state) in
  BoardState.mk (BoardState.columns state) migratedTasks
    (Some (or_default (BoardState.tags state) defaultTags)).

(** ** [migrateState] on a value that was not checked *)

Definition Tag_json (tag : Tag.t) : Json :=
  JObject [ ("id", JString (Tag.id tag));
            ("name", JString (Tag.name tag));
            ("color", JString (Tag.color tag)) ].

(** The callback of [state.tasks.map]: the object literal copies the own
    properties of [task], then reads [task.status], which throws on
    [null], and gives the four keys their values. *)
Definition migrateTask_json (task : Json) : Js.Exc Json :=
  let properties := Dynamic.ownProperties task in
  status <- Dynamic.get task "status" ;;
  let properties :=
    Dynamic.set "status" (Dynamic.or_else status (JString "not-started"))
      properties in
  subtasks <- Dynamic.get task "subtasks" ;;
  let properties :=
    Dynamic.set "subtasks" (Dynamic.or_else subtasks (JArray [])) properties in
  attachments <- Dynamic.get task "attachments" ;;
  let properties :=
    Dynamic.set "attachments" (Dynamic.or_else attachments (JArray []))
      properties in
  tags <- Dynamic.get task "tags" ;;
  let properties :=
    Dynamic.set "tags" (Dynamic.or_else tags (JArray [])) properties in
  Js.Normal (JObject properties).

(** [state.tasks.map(...)] throws unless [state.tasks] is an array: on
    [null] and undefined there is nothing to read [map] from, and no other
    value that [JSON.parse] builds has a function under [map]. *)
Definition migrateState_json (state : Json) : Js.Exc Json :=
  tasks <- Dynamic.get state "tasks" ;;
  match tasks with
  | Some (JArray items) =>
      migratedTasks <- Js.mapM migrateTask_json items ;;
      let properties := Dynamic.ownProperties state in
      let properties :=
        Dynamic.set "tasks" (JArray migratedTasks) properties in
      tags <- Dynamic.get state "tags" ;;
      let properties :=
        Dynamic.set "tags"
          (Dynamic.or_else tags (JArray (map Tag_json defaultTags)))
          properties in
      Js.Normal (JObject properties)
  | _ => Js.Throw Js.TypeError
  end.

(** [migrateState] on what the program holds as a board. *)
Definition migrateValue (state : Value) : Js.Exc Value :=
  match state with
  | Board b => Js.Normal (Board (migrateState b))
  | Other j => migrated <- migrateState_json j ;; Js.Normal (Other migrated)
  end.

(** [compressState]: the [catch] falls back to the plain JSON text. *)
Definition compressState `{Platform} (state : Value) : Js.Exc string :=
  Js.try_catch
    (let json := JSON_stringify state in
     compressed <- pako_gzip json ;;
     binary <- fromCharCode_apply compressed ;;
     Js.btoa binary)
    (fun error => Js.Normal (JSON_stringify state)).

(** What is read back from the store: a string, or the board itself as
    earlier revisions stored it. *)
Inductive Payload : Type :=
| PString (s : string)
| PObject (o : BoardState.t).

(** The decoding of a base64-encoded gzip: the statements of the [try]
    block of [decompressState] that follow the [typeof] test. *)
Definition decodeCompressed `{Platform} (data : string)
  : Js.Exc Value :=
  binaryString <- Js.atob data ;;
  let bytes := bytes_of_binaryString binaryString in
  decompressed <- pako_ungzip bytes ;;
  let json := TextDecoder_decode decompressed in
  JSON_parse json.

(** The inner [try] of the [catch] block: [Some] is its [return]. *)
Definition parsePlain `{Platform} (data : Payload)
  : Js.Exc (option Value) :=
  Js.try_catch
    (match data with
     | PString s => v <- JSON_parse s ;; Js.Normal (Some v)
     | PObject _ => Js.Normal None
     end)
    (fun _ => Js.Normal None).

(** What the decoder returns is what [JSON.parse] returned, unchecked. *)
Definition decompressState `{Platform} (data : Payload)
  : Js.Exc Value :=
  Js.try_catch
    (match data with
     | PObject o => Js.Normal (Board o)
     | PString s => decodeCompressed s
     end)
    (fun error =>
       r <- parsePlain data ;;
       match r with
       | Some v => Js.Normal v
       | None => Js.Normal (Board defaultState)
       end).

(** ** The mutations.  Each one is given the current [state] and yields the
    state handed to [saveState]. *)

Definition with_columns (state : BoardState.t) (cs : list Column.t) :=
  BoardState.mk cs (BoardState.tasks state) (BoardState.tags state).

Definition with_tasks (state : BoardState.t) (ts : list Task.t) :=
  BoardState.mk (BoardState.columns state) ts (BoardState.tags state).

Definition addColumn (state : BoardState.t) (now : Z) (title : string)
  : BoardState.t :=
  let newColumn :=
    Column.mk (String.append "col-" (Js.toString now)) title
      (Z.of_nat (List.length (BoardState.columns state))) in
  with_columns state (BoardState.columns state ++ [newColumn]).

(** [nowId] and [nowCreatedAt] are the two readings of the clock. *)
Definition addTask (state : BoardState.t) (nowId nowCreatedAt : Z)
  (columnId title : string) : BoardState.t * Task.t :=
  let columnTasks :=
    filter (fun t => String.eqb (Task.columnId t) columnId)
      (BoardState.tasks state) in
  let newTask :=
    Task.mk (String.append "task-" (Js.toString nowId)) title None medium
      (Some not_started) [] (Some []) (Some []) (Some []) columnId
      (Z.of_nat (List.length columnTasks)) nowCreatedAt None in
  (with_tasks state (BoardState.tasks state ++ [newTask]), newTask).

(** The callback of [state.tasks.map] in [updateTask]; [now] is the reading
    of the clock made while it runs.  A [status] that is undefined, carried
    or not, passes neither of the two tests. *)
Definition updateTask_map (now : Z) (taskId : string)
  (updates : PartialTask.t) (task : Task.t) : Task.t :=
  if String.eqb (Task.id task) taskId then
    let updated := spread task updates in
    match PartialTask.status updates with
    | Some (Some done) =>
        match Task.status task with
        | Some done => updated
        | _ => Task.set_completedAt updated (Some now)
        end
    | Some (Some _) => Task.set_completedAt updated None
    | Some None | None => updated
    end
  else task.

(** [now index] is what [Date.now()] returns when the callback runs on the
    task at position [index]. *)
Definition updateTask (state : BoardState.t) (now : Z -> Z) (taskId : string)
  (updates : PartialTask.t) : BoardState.t :=
  let updatedTasks :=
    Js.mapi (fun index task => updateTask_map (now index) taskId updates task)
      (BoardState.tasks state) in
  with_tasks state updatedTasks.

(** [moveTask]: the early [return] saves nothing and leaves the state as it
    is.  The [forEach] writes [order] into the objects of the target
    column, which the new task list holds once each. *)
Definition moveTask (state : BoardState.t) (taskId newColumnId : string)
  (newOrder : Z) : BoardState.t :=
  match find (fun t => String.eqb (Task.id t) taskId)
             (BoardState.tasks state) with
  | None => state
  | Some task =>
      let updatedTasks :=
        filter (fun t => negb (String.eqb (Task.id t) taskId))
          (BoardState.tasks state) in
      let targetColumnTasks :=
        Js.sort (Js.ascending Task.order)
          (filter (fun t => String.eqb (Task.columnId t) newColumnId)
             updatedTasks) in
      let targetColumnTasks :=
        Js.splice_insert targetColumnTasks newOrder
          (Task.set_columnId task newColumnId) in
      let targetColumnTasks :=
        Js.mapi (fun index t => Task.set_order t index) targetColumnTasks in
      let updatedTasks :=
        filter (fun t => negb (String.eqb (Task.columnId t) newColumnId))
          updatedTasks in
      let updatedTasks := updatedTasks ++ targetColumnTasks in
      with_tasks state updatedTasks
  end.

(** The callback of [state.tasks.map] in [setColumnTasksStatus]. *)
Definition setColumnTasksStatus_map (now : Z) (columnId : string)
  (status : Status) (task : Task.t) : Task.t :=
  if String.eqb (Task.columnId task) columnId then
    let updated := Task.set_status task (Some status) in
    match status with
    | done =>
        match Task.status task with
        | Some done => updated
        | _ => Task.set_completedAt updated (Some now)
        end
    | _ => Task.set_completedAt updated None
    end
  else task.

Definition setColumnTasksStatus (state : BoardState.t) (now : Z -> Z)
  (columnId : string) (status : Status) : BoardState.t :=
  let updatedTasks :=
    Js.mapi
      (fun index task =>
         setColumnTasksStatus_map (now index) columnId status task)
      (BoardState.tasks state) in
  with_tasks state updatedTasks.

Definition setColumnTasksPriority (state : BoardState.t) (columnId : string)
  (priority : Priority) : BoardState.t :=
  let updatedTasks :=
    map (fun task =>
           if String.eqb (Task.columnId task) columnId
           then Task.set_priority task priority
           else task)
      (BoardState.tasks state) in
  with_tasks state updatedTasks.

(** Reading a property of [undefined], or spreading it, throws. *)
Definition defined {A} (o : option A) : Js.Exc A :=
  match o with
  | Some a => Js.Normal a
  | None => Js.Throw Js.TypeError
  end.

Definition addTag (state : BoardState.t) (now : Z) (name color : string)
  : Js.Exc (BoardState.t * Tag.t) :=
  let newTag := Tag.mk (String.append "tag-" (Js.toString now)) name color in
  tags <- defined (BoardState.tags state) ;;
  Js.Normal
    (BoardState.mk (BoardState.columns state) (BoardState.tasks state)
       (Some (tags ++ [newTag])),
     newTag).

Definition deleteTag (state : BoardState.t) (tagId : string)
  : Js.Exc BoardState.t :=
  tags <- defined (BoardState.tags state) ;;
  let updatedTags :=
    filter (fun tag => negb (String.eqb (Tag.id tag) tagId)) tags in
  updatedTasks <-
    Js.mapM
      (fun task =>
         ids <- defined (Task.tags task) ;;
         Js.Normal
           (Task.set_tags task
              (Some (filter (fun id => negb (String.eqb id tagId)) ids))))
      (BoardState.tasks state) ;;
  Js.Normal (BoardState.mk (BoardState.columns state) updatedTasks
               (Some updatedTags)).

(** ** The other mutations *)

Definition updateColumn (state : BoardState.t) (columnId title : string)
  : BoardState.t :=
  let updatedColumns :=
    map (fun col =>
           if String.eqb (Column.id col) columnId
           then Column.mk (Column.id col) title (Column.order col)
           else col)
      (BoardState.columns state) in
  with_columns state updatedColumns.

Definition deleteColumn (state : BoardState.t) (columnId : string)
  : BoardState.t :=
  let updatedColumns :=
    filter (fun col => negb (String.eqb (Column.id col) columnId))
      (BoardState.columns state) in
  let updatedTasks :=
    filter (fun task => negb (String.eqb (Task.columnId task) columnId))
      (BoardState.tasks state) in
  BoardState.mk updatedColumns updatedTasks (BoardState.tags state).

Definition deleteTask (state : BoardState.t) (taskId : string)
  : BoardState.t :=
  let updatedTasks :=
    filter (fun task => negb (String.eqb (Task.id task) taskId))
      (BoardState.tasks state) in
  with_tasks state updatedTasks.

Definition reorderColumns (state : BoardState.t) (columns : list Column.t)
  : BoardState.t :=
  with_columns state columns.

(** The new state is whatever [importBoard] returned. *)
Definition importBoardState (state newState : Value) : Value :=
  newState.

(** ** [searchTasks], the plain search of the hook *)

(** [xs.some(f)] when [f] may throw. *)
Fixpoint someM {A} (f : A -> Js.Exc bool) (l : list A) : Js.Exc bool :=
  match l with
  | [] => Js.Normal false
  | x :: l' => b <- f x ;; if b then Js.Normal true else someM f l'
  end.

(** [xs.filter(f)] when [f] may throw. *)
Fixpoint filterM {A} (f : A -> Js.Exc bool) (l : list A) : Js.Exc (list A) :=
  match l with
  | [] => Js.Normal []
  | x :: l' =>
      b <- f x ;;
      rest <- filterM f l' ;;
      Js.Normal (if b then x :: rest else rest)
  end.

Definition containsLower (text lowerQuery : string) : bool :=
  Js.includes (Js.toLowerCase text) lowerQuery.

(** The callback of [state.tasks.filter] in [searchTasks]: one [if] after
    the other, each returning [true] at once. *)
Definition searchTasks_filter (state : BoardState.t) (lowerQuery : string)
  (task : Task.t) : Js.Exc bool :=
  if containsLower (Task.title task) lowerQuery then Js.Normal true
  else if match Task.description task with
          | Some d => containsLower d lowerQuery
          | None => false
          end
  then Js.Normal true
  else if existsb (fun note => containsLower (SubNote.content note) lowerQuery)
            (Task.notes task)
  then Js.Normal true
  else
    subtasks <- defined (Task.subtasks task) ;;
    if existsb (fun st => containsLower (Subtask.title st) lowerQuery) subtasks
    then Js.Normal true
    else
      tags <- defined (BoardState.tags state) ;;
      taskTags <-
        filterM
          (fun tag =>
             ids <- defined (Task.tags task) ;;
             Js.Normal (existsb (String.eqb (Tag.id tag)) ids))
          tags ;;
      if existsb (fun tag => containsLower (Tag.name tag) lowerQuery) taskTags
      then Js.Normal true
      else Js.Normal false.

Definition searchTasks (state : BoardState.t) (query : string)
  : Js.Exc (list Task.t) :=
  if String.eqb (Js.trim query) EmptyString then Js.Normal []
  else
    let lowerQuery := Js.toLowerCase query in
    filterM (searchTasks_filter state lowerQuery) (BoardState.tasks state).

(** ** [loadData] and [saveState] *)

(** What the hook holds, and what it has written: the payloads put into the
    main database and the writes of the recovery backups. *)
Module Hook.
Record t : Type := mk {
  state : Value;
  isLoading : bool;
  recoveryInfo : bool * option RecoveryManager.Source;
  puts : list string;
  written : list RecoveryManager.Write
}.
End Hook.

(** The values that [useState] starts with. *)
Definition initialHook : Hook.t :=
  Hook.mk (Board defaultState) true (false, None) [] [].

Definition setState (s : Value) (h : Hook.t) : Hook.t :=
  Hook.mk s (Hook.isLoading h) (Hook.recoveryInfo h) (Hook.puts h)
    (Hook.written h).

Definition setIsLoading (b : bool) (h : Hook.t) : Hook.t :=
  Hook.mk (Hook.state h) b (Hook.recoveryInfo h) (Hook.puts h)
    (Hook.written h).

Definition setRecoveryInfo (info : bool * option RecoveryManager.Source)
  (h : Hook.t) : Hook.t :=
  Hook.mk (Hook.state h) (Hook.isLoading h) info (Hook.puts h)
    (Hook.written h).

(** Statements that change the hook and may throw; what was done before a
    [throw] stays done. *)
Definition Eff (A : Type) : Type := Hook.t -> Hook.t * Js.Exc A.

Definition ret {A} (a : A) : Eff A := fun h => (h, Js.Normal a).

Definition bindE {A B} (m : Eff A) (k : A -> Eff B) : Eff B :=
  fun h =>
    let '(h', r) := m h in
    match r with
    | Js.Normal a => k a h'
    | Js.Throw e => (h', Js.Throw e)
    end.

Definition lift {A} (m : Js.Exc A) : Eff A := fun h => (h, m).

Definition update (f : Hook.t -> Hook.t) : Eff unit :=
  fun h => (f h, Js.Normal tt).

Definition tryE {A} (body : Eff A) (handler : Js.Error -> Eff A) : Eff A :=
  fun h =>
    let '(h', r) := body h in
    match r with
    | Js.Normal a => (h', Js.Normal a)
    | Js.Throw e => handler e h'
    end.

Definition finallyE {A} (body : Eff A) (final : Eff unit) : Eff A :=
  fun h =>
    let '(h', r) := body h in
    let '(h'', f) := final h' in
    match f with
    | Js.Normal _ => (h'', r)
    | Js.Throw e => (h'', Js.Throw e)
    end.

Declare Scope eff_scope.
Delimit Scope eff_scope with eff.
Notation "x <-- m ;; k" := (bindE m (fun x => k))
  (at level 61, m at next level, right associativity) : eff_scope.
Notation "m ;;; k" := (bindE m (fun _ => k))
  (at level 61, right associativity) : eff_scope.

(** The main database: what [db.get('board', 'state')] answers and whether
    [db.put] goes through; both include [getDB()]. *)
Record MainDB : Type := {
  db_get : Js.Exc (option Payload);
  db_put : string -> Js.Exc unit
}.

(** [await db.put('board', payload, 'state')] *)
Definition put (db : MainDB) (payload : string) : Eff unit :=
  fun h =>
    match db_put db payload with
    | Js.Normal _ =>
        (Hook.mk (Hook.state h) (Hook.isLoading h) (Hook.recoveryInfo h)
           (Hook.puts h ++ [payload]) (Hook.written h),
         Js.Normal tt)
    | Js.Throw e => (h, Js.Throw e)
    end.

(** [await createRecoveryBackup(s)]; the result is not looked at. *)
Definition backup `{Platform} (w : RecoveryManager.Writers)
  (s : Value) (now : Z) : Eff unit :=
  update
    (fun h =>
       Hook.mk (Hook.state h) (Hook.isLoading h) (Hook.recoveryInfo h)
         (Hook.puts h)
         (Hook.written h
          ++ snd (RecoveryManager.createRecoveryBackup w s now))).

(** What [if (savedState)] sees: the empty string counts as nothing. *)
Definition truthyPayload (saved : option Payload) : option Payload :=
  match saved with
  | Some (PString s) => if Js.nonEmpty s then saved else None
  | Some (PObject _) => saved
  | None => None
  end.

(** What [if (savedState)] and [recovery.state] in a condition see of a
    value that was decoded or recovered: [null], [false], 0 and the empty
    string count as nothing. *)
Definition truthyState (savedState : option Value) : option Value :=
  match savedState with
  | Some value => if Dynamic.truthy_value value then savedState else None
  | None => None
  end.

Local Open Scope eff_scope.

Definition loadData `{Platform} (db : MainDB) (st : RecoveryManager.Stores)
  (w : RecoveryManager.Writers) (now : Z) : Eff unit :=
  finallyE
    (tryE
       (saved <-- lift (db_get db) ;;
        savedState <--
          match truthyPayload saved with
          | Some payload =>
              decoded <-- lift (decompressState payload) ;; ret (Some decoded)
          | None => ret None
          end ;;
        savedState <--
          match truthyState savedState with
          | Some decoded => ret (Some decoded)
          | None =>
              recovery <-- lift (RecoveryManager.attemptRecovery st) ;;
              match RecoveryManager.recovered recovery,
                    truthyState (RecoveryManager.state recovery) with
              | true, Some recoveredState =>
                  update
                    (setRecoveryInfo
                       (true, RecoveryManager.source recovery)) ;;;
                  payload <-- lift (compressState recoveredState) ;;
                  put db payload ;;;
                  ret (Some recoveredState)
              | _, _ => ret None
              end
          end ;;
        match savedState with
        | Some s =>
            migratedState <-- lift (migrateValue s) ;;
            update (setState migratedState) ;;;
            backup w migratedState now
        | None => ret tt
        end)
       (fun error =>
          recovery <-- lift (RecoveryManager.attemptRecovery st) ;;
          match RecoveryManager.recovered recovery,
                truthyState (RecoveryManager.state recovery) with
          | true, Some recoveredState =>
              migratedState <-- lift (migrateValue recoveredState) ;;
              update (setState migratedState) ;;;
              update
                (setRecoveryInfo (true, RecoveryManager.source recovery))
          | _, _ => ret tt
          end))
    (update (setIsLoading false)).

Definition saveState `{Platform} (db : MainDB) (w : RecoveryManager.Writers)
  (now : Z) (newState : Value) : Eff unit :=
  update (setState newState) ;;;
  tryE
    (compressedState <-- lift (compressState newState) ;;
     put db compressedState ;;;
     backup w newState now)
    (fun error => ret tt).

Local Close Scope eff_scope.

End Database.

(* ================================================================== *)
(** * src/utils/fuzzySearch.ts                                         *)
(* ================================================================== *)

Module FuzzySearch.
Import Types.

Definition Range : Type := (Z * Z)%type.

Record SearchMatch : Type :=
  mkMatch { field : string; value : string; score : Z; indices : list Range }.

Record TaskSearchResult : Type :=
  mkResult { taskId : string;
             columnId : string;
             task : Task.t;
             matches : list SearchMatch;
             totalScore : Z }.

Module FIELD_WEIGHTS.
Definition title : Z := 10.
Definition description : Z := 7.
Definition tag : Z := 8.
Definition subtask : Z := 6.
Definition note : Z := 5.
Definition attachment : Z := 4.
Definition status : Z := 3.
Definition priority : Z := 3.
End FIELD_WEIGHTS.

(** ** [levenshteinDistance]: the table [dp], one row after the other. *)

(** Row 0: [dp[0][j] = j]. *)
Fixpoint firstRow (j : Z) (str2 : string) : list Z :=
  match str2 with
  | EmptyString => [j]
  | String _ r => j :: firstRow (j + 1) r
  end.

(** The inner loop over [j] for the character [c = str1[i-1]]: [diag] is
    [dp[i-1][j-1]], [above] starts at [dp[i-1][j]] and [left] is
    [dp[i][j-1]]. *)
Fixpoint fillRow (c : ascii) (str2 : string) (diag : Z) (above : list Z)
  (left : Z) : list Z :=
  match str2, above with
  | String d r, up :: above' =>
      let cell :=
        if Ascii.eqb c d then diag
        else 1 + Z.min up (Z.min left diag) in
      cell :: fillRow c r up above' cell
  | _, _ => []
  end.

Definition nextRow (i : Z) (c : ascii) (str2 : string) (prev : list Z)
  : list Z :=
  match prev with
  | diag :: above => i :: fillRow c str2 diag above i
  | [] => [i]
  end.

Fixpoint rows (i : Z) (str1 str2 : string) (prev : list Z) : list Z :=
  match str1 with
  | EmptyString => prev
  | String c r => rows (i + 1) r str2 (nextRow i c str2 prev)
  end.

Definition levenshteinDistance (str1 str2 : string) : Z :=
  last (rows 1 str1 str2 (firstRow 0 str2)) 0.

(** The quotient is an exact rational. *)
Definition stringSimilarity (str1 str2 : string) : Q :=
  let longer := if Js.len str1 >? Js.len str2 then str1 else str2 in
  let shorter := if Js.len str1 >? Js.len str2 then str2 else str1 in
  if Js.len longer =? 0 then 1%Q
  else
    let distance := levenshteinDistance longer shorter in
    Qmake (Js.len longer - distance) (Z.to_pos (Js.len longer)).

(** [.replace(/[^\w\s]/g, ' ')] *)
Definition blankNonWord (c : ascii) : ascii :=
  if Js.isWordChar c || Js.isWhiteSpace c then c else " "%char.

Definition tokenize (text : string) : list string :=
  filter Js.nonEmpty
    (Js.splitWhiteSpace (Js.map_string blankNonWord (Js.toLowerCase text))).

(** The [while] loop of [findMatchIndices].  Every turn moves [pos] past a
    match, so [fuel] turns suffice once [fuel] exceeds the length of the
    text; with an empty query the source never leaves the loop. *)
Fixpoint findMatchIndices_loop (fuel : nat) (lowerText lowerQuery : string)
  (pos : nat) : list Range :=
  match fuel with
  | O => []
  | S fuel' =>
      match Js.indexOf lowerText lowerQuery pos with
      | Some p =>
          (Z.of_nat p, Z.of_nat p + Js.len lowerQuery)
            :: findMatchIndices_loop fuel' lowerText lowerQuery (S p)
      | None => []
      end
  end.

Definition findMatchIndices (text query : string) : list Range :=
  let lowerText := Js.toLowerCase text in
  let lowerQuery := Js.toLowerCase query in
  findMatchIndices_loop (S (String.length lowerText)) lowerText lowerQuery O.

(** ** [mergeIndices] *)

(** The loop: [last] is [merged[merged.length - 1]], which the source
    widens in place. *)
Fixpoint mergeIndices_loop (last : Range) (sorted : list Range)
  : list Range :=
  match sorted with
  | [] => [last]
  | current :: rest =>
      if fst current <=? snd last
      then mergeIndices_loop (fst last, Z.max (snd last) (snd current)) rest
      else last :: mergeIndices_loop current rest
  end.

Definition mergeIndices (indices : list Range) : list Range :=
  match Js.sort (Js.ascending fst) indices with
  | [] => []
  | first :: rest => mergeIndices_loop first rest
  end.

(** ** [fuzzyMatchField] *)

Record FieldMatch : Type := mkField { f_score : Z; f_indices : list Range }.

(** One pair (query token, value token). *)
Definition tokenPair (fieldValue queryToken valueToken : string)
  : Z * list Range :=
  if String.eqb valueToken queryToken
  then (30, findMatchIndices fieldValue queryToken)
  else if Js.startsWith valueToken queryToken
  then (20, findMatchIndices fieldValue queryToken)
  else if Js.includes valueToken queryToken
  then (15, findMatchIndices fieldValue queryToken)
  else
    let similarity := stringSimilarity valueToken queryToken in
    if negb (Qle_bool similarity (7 # 10))
    then (Qfloor (similarity * 15), [])
    else (0, []).

(** The two nested loops over the tokens; the accumulator is
    ([totalScore], [allIndices]). *)
Definition tokenLoops (fieldValue : string) (queryTokens valueTokens : list string)
  (acc : Z * list Range) : Z * list Range :=
  fold_left
    (fun acc queryToken =>
       if Js.len queryToken <? 2 then acc
       else
         fold_left
           (fun acc valueToken =>
              let '(s, ix) := tokenPair fieldValue queryToken valueToken in
              (fst acc + s, snd acc ++ ix))
           valueTokens acc)
    queryTokens acc.

(** [w[0]] joined over the words; an empty word gives nothing. *)
Definition acronymOf (words : list string) : string :=
  Js.join
    (map (fun w => match w with
                   | String c _ => String c EmptyString
                   | EmptyString => EmptyString
                   end) words).

Definition fuzzyMatchField (fieldValue : string) (queryTokens : list string)
  (originalQuery : string) : FieldMatch :=
  if String.eqb fieldValue EmptyString
     || (Js.len (Js.trim fieldValue) =? 0)
  then mkField 0 []
  else
    let lowerValue := Js.toLowerCase fieldValue in
    let lowerQuery := Js.toLowerCase originalQuery in
    if String.eqb lowerValue lowerQuery
    then mkField 100 [(0, Js.len fieldValue)]
    else
      let acc : Z * list Range := (0, []) in
      let acc :=
        if Js.includes lowerValue lowerQuery
        then (fst acc + 80,
              snd acc ++ findMatchIndices fieldValue originalQuery)
        else acc in
      let acc :=
        if Js.startsWith lowerValue lowerQuery
        then (fst acc + 60, snd acc) else acc in
      let words := Js.splitWhiteSpace lowerValue in
      let acc :=
        if existsb (fun word => Js.startsWith word lowerQuery) words
        then (fst acc + 40, snd acc) else acc in
      let valueTokens := tokenize fieldValue in
      let acc := tokenLoops fieldValue queryTokens valueTokens acc in
      let acc :=
        match queryTokens with
        | [queryToken] =>
            if (Js.len queryToken <=? 5)
               && Js.includes (acronymOf words) queryToken
            then (fst acc + 25, snd acc) else acc
        | _ => acc
        end in
      mkField (fst acc) (mergeIndices (snd acc)).

(** ** [searchTask] *)

(** One field: the match is pushed when its score is positive. *)
Definition pushMatch (name fieldValue : string) (weight : Z)
  (queryTokens : list string) (query : string) : list SearchMatch :=
  let m := fuzzyMatchField fieldValue queryTokens query in
  if f_score m >? 0
  then [mkMatch name fieldValue (f_score m * weight) (f_indices m)]
  else [].

Definition text_of {A} (show : A -> string) (o : option A) : string :=
  match o with Some a => show a | None => EmptyString end.

Definition searchTags (task : Task.t) (queryTokens : list string)
  (query : string) (tags : list Tag.t) : list SearchMatch :=
  flat_map
    (fun tagId =>
       match find (fun t => String.eqb (Tag.id t) tagId) tags with
       | Some tag =>
           pushMatch "tag" (Tag.name tag) FIELD_WEIGHTS.tag queryTokens query
       | None => []
       end)
    (or_default (Task.tags task) []).

Definition searchSubtasks (task : Task.t) (queryTokens : list string)
  (query : string) : list SearchMatch :=
  flat_map
    (fun subtask =>
       pushMatch "subtask" (Subtask.title subtask) FIELD_WEIGHTS.subtask
         queryTokens query)
    (or_default (Task.subtasks task) []).

Definition searchNotes (task : Task.t) (queryTokens : list string)
  (query : string) : list SearchMatch :=
  flat_map
    (fun note =>
       pushMatch "note" (SubNote.content note) FIELD_WEIGHTS.note
         queryTokens query)
    (Task.notes task).

Definition searchAttachments (task : Task.t) (queryTokens : list string)
  (query : string) : list SearchMatch :=
  flat_map
    (fun attachment =>
       pushMatch "attachment" (Attachment.name attachment)
         FIELD_WEIGHTS.attachment queryTokens query
       ++ match Attachment.type attachment with
          | link =>
              pushMatch "attachment" (Attachment.url attachment)
                (FIELD_WEIGHTS.attachment / 2) queryTokens query
          | _ => []
          end)
    (or_default (Task.attachments task) []).

Definition searchTask (task : Task.t) (query : string) (tags : list Tag.t)
  : list SearchMatch :=
  let queryTokens := tokenize query in
  match queryTokens with
  | [] => []
  | _ =>
      pushMatch "title" (Task.title task) FIELD_WEIGHTS.title queryTokens query
      ++ pushMatch "description" (or_default (Task.description task) "")
           FIELD_WEIGHTS.description queryTokens query
      ++ pushMatch "status" (text_of Status_string (Task.status task))
           FIELD_WEIGHTS.status queryTokens query
      ++ pushMatch "priority" (Priority_string (Task.priority task))
           FIELD_WEIGHTS.priority queryTokens query
      ++ searchTags task queryTokens query tags
      ++ searchSubtasks task queryTokens query
      ++ searchNotes task queryTokens query
      ++ searchAttachments task queryTokens query
  end.

(** ** [fuzzySearchTasks] *)

(** An element of [columnsWithTasks]: the column and the tasks put in it. *)
Record ColumnWithTasks : Type :=
  mkColumn { column : Column.t; tasks : list Task.t }.

(** [matches.reduce((sum, m) => sum + m.score, 0)] *)
Definition sumScores (ms : list SearchMatch) : Z :=
  fold_left (fun sum m => sum + score m) ms 0.

Definition taskResult (col : ColumnWithTasks) (query : string)
  (tags : list Tag.t) (t : Task.t) : list TaskSearchResult :=
  let matches := searchTask t query tags in
  match matches with
  | [] => []
  | _ => [mkResult (Task.id t) (Column.id (column col)) t matches
            (sumScores matches)]
  end.

(** The results in the order the two loops meet them. *)
Definition collectResults (columns : list ColumnWithTasks) (query : string)
  (tags : list Tag.t) : list TaskSearchResult :=
  flat_map (fun col => flat_map (taskResult col query tags) (tasks col))
    columns.

Definition fuzzySearchTasks (columns : list ColumnWithTasks) (query : string)
  (tags : list Tag.t) : list TaskSearchResult :=
  if String.eqb query EmptyString || (Js.len (Js.trim query) =? 0)
  then []
  else
    Js.sort (Js.descending totalScore)
      (collectResults columns query tags).

(** ** [highlightMatches] *)

Record Segment : Type := mkSegment { text : string; highlight : bool }.

(** The [for] loop; the result carries [lastEnd] out of it. *)
Fixpoint highlight_loop (text : string) (indices : list Range) (lastEnd : Z)
  : list Segment * Z :=
  match indices with
  | [] => ([], lastEnd)
  | (start, end_) :: rest =>
      let gap :=
        if start >? lastEnd
        then [mkSegment (Js.slice text lastEnd start) false] else [] in
      let '(more, final) := highlight_loop text rest end_ in
      (gap ++ mkSegment (Js.slice text start end_) true :: more, final)
  end.

Definition highlightMatches (text : string) (indices : list Range)
  : list Segment :=
  match indices with
  | [] => [mkSegment text false]
  | _ =>
      let '(result, lastEnd) := highlight_loop text indices 0 in
      if lastEnd <? Js.len text
      then result ++ [mkSegment (Js.sliceFrom text lastEnd) false]
      else result
  end.

(** ** [getMatchPreview] *)

(** [maxLength] is passed by the caller (the default of the source is 60). *)
Definition getMatchPreview (value : string) (indices : list Range)
  (maxLength : Z) : string :=
  match String.eqb value EmptyString, indices with
  | false, firstMatch :: _ =>
      let matchStart := fst firstMatch in
      let contextBefore := 15 in
      let start := Z.max 0 (matchStart - contextBefore) in
      let end_ := Z.min (Js.len value) (start + maxLength) in
      let preview := Js.slice value start end_ in
      let preview :=
        if start >? 0 then String.append "..." preview else preview in
      if end_ <? Js.len value then String.append preview "..." else preview
  | _, _ => Js.slice value 0 maxLength
  end.

End FuzzySearch.

(* ================================================================== *)
(** * src/components/SearchBar.tsx: the input of the search            *)
(* ================================================================== *)

Module SearchBar.
Import Types FuzzySearch.

(** [columns.map(col => ({...col, tasks: tasks.filter(t => t.columnId === col.id)}))] *)
Definition columnsWithTasks (columns : list Column.t) (tasks : list Task.t)
  : list ColumnWithTasks :=
  map
    (fun col =>
       mkColumn col
         (filter (fun t => String.eqb (Task.columnId t) (Column.id col))
            tasks))
    columns.

(** [fuzzySearchTasks(columnsWithTasks, query, tags)] *)
Definition results (columns : list Column.t) (tasks : list Task.t)
  (tags : list Tag.t) (query : string) : list TaskSearchResult :=
  fuzzySearchTasks (columnsWithTasks columns tasks) query tags.

End SearchBar.

(* ================================================================== *)
(** * src/utils/BackupManager.ts: reading an exported file             *)
(* ================================================================== *)

Module BackupManager.
Import Types.
Import Js.Notations.
Local Open Scope exc_scope.

Definition Invalid_taskboard_file_format : Js.Error :=
  Js.LibraryError "Invalid taskboard file format".

(** [importBoard]: [arrayBuffer] is what [file.arrayBuffer()] gives, [null]
    is [None].  The test on the structure is that of [decompressBackup]. *)
Definition importBoard `{Platform} (arrayBuffer : Js.Exc (list Byte.byte))
  : option Value :=
  let attempt :=
    buffer <- arrayBuffer ;;
    decompressed <- pako_ungzip buffer ;;
    let json := TextDecoder_decode decompressed in
    state <- JSON_parse json ;;
    lacks <- RecoveryManager.lacksStructure state ;;
    if lacks
    then Js.Throw Invalid_taskboard_file_format
    else Js.Normal state in
  match attempt with
  | Js.Normal state => Some state
  | Js.Throw _ => None
  end.

End BackupManager.

(* ================================================================== *)
(** * src/App.tsx: the drag handlers that call [moveTask]              *)
(* ================================================================== *)

Module App.
Import Types Database.







End App.

(* ================================================================== *)
(** * A stand-in for the libraries, for the examples                   *)
(* ================================================================== *)

(** JSON text is written as [JSON.stringify] writes it; the parser knows
    the texts of the boards and of the other values in its tables and
    nothing else; gzip stores the text behind the two magic bytes instead of
    compressing it. *)
Module Sample.
Import Types.

Definition hexDigit (n : N) : ascii :=
  if (n <? 10)%N then ascii_of_N (48 + n) else ascii_of_N (87 + n).

Definition quote : string := String (ascii_of_N 34) "".

Definition escapeChar (c : ascii) : string :=
  let n := N_of_ascii c in
  if (n =? 34)%N then String.append "\" quote
  else if (n =? 92)%N then "\\"
  else if (n =? 8)%N then "\b"
  else if (n =? 12)%N then "\f"
  else if (n =? 10)%N then "\n"
  else if (n =? 13)%N then "\r"
  else if (n =? 9)%N then "\t"
  else if (n <? 32)%N
       then String.append "\u00"
              (String (hexDigit (n / 16)) (String (hexDigit (n mod 16)) ""))
  else String c "".

Fixpoint escape (s : string) : string :=
  match s with
  | EmptyString => EmptyString
  | String c r => String.append (escapeChar c) (escape r)
  end.

Definition str (s : string) : string :=
  String.append quote (String.append (escape s) quote).

Definition num (n : Z) : string := Js.toString n.

Fixpoint commas (items : list string) : string :=
  match items with
  | [] => EmptyString
  | [x] => x
  | x :: rest => String.append x (String.append "," (commas rest))
  end.

Definition arr {A} (item : A -> string) (l : list A) : string :=
  String.append "[" (String.append (commas (map item l)) "]").

(** A property, or nothing when the value is undefined. *)
Definition prop {A} (key : string) (item : A -> string) (o : option A)
  : list string :=
  match o with
  | Some a => [String.append (str key) (String.append ":" (item a))]
  | None => []
  end.

Definition obj (props : list (list string)) : string :=
  String.append "{" (String.append (commas (List.concat props)) "}").

Definition subNote (n : SubNote.t) : string :=
  obj [ prop "id" str (Some (SubNote.id n));
        prop "content" str (Some (SubNote.content n));
        prop "createdAt" num (Some (SubNote.createdAt n)) ].

Definition bool_text (b : bool) : string := if b then "true" else "false".

Definition subtask (t : Subtask.t) : string :=
  obj [ prop "id" str (Some (Subtask.id t));
        prop "title" str (Some (Subtask.title t));
        prop "completed" bool_text (Some (Subtask.completed t));
        prop "createdAt" num (Some (Subtask.createdAt t)) ].

Definition attachmentType (t : AttachmentType) : string :=
  AttachmentType_string t.

Definition attachment (a : Attachment.t) : string :=
  obj [ prop "id" str (Some (Attachment.id a));
        prop "type" (fun t => str (attachmentType t)) (Some (Attachment.type a));
        prop "name" str (Some (Attachment.name a));
        prop "url" str (Some (Attachment.url a));
        prop "size" num (Attachment.size a);
        prop "mimeType" str (Attachment.mimeType a);
        prop "createdAt" num (Some (Attachment.createdAt a)) ].

Definition tag (t : Tag.t) : string :=
  obj [ prop "id" str (Some (Tag.id t));
        prop "name" str (Some (Tag.name t));
        prop "color" str (Some (Tag.color t)) ].

Definition task (t : Task.t) : string :=
  obj [ prop "id" str (Some (Task.id t));
        prop "title" str (Some (Task.title t));
        prop "description" str (Task.description t);
        prop "priority" (fun p => str (Priority_string p))
          (Some (Task.priority t));
        prop "status" (fun x => str (Status_string x)) (Task.status t);
        prop "notes" (arr subNote) (Some (Task.notes t));
        prop "subtasks" (arr subtask) (Task.subtasks t);
        prop "attachments" (arr attachment) (Task.attachments t);
        prop "tags" (arr str) (Task.tags t);
        prop "columnId" str (Some (Task.columnId t));
        prop "order" num (Some (Task.order t));
        prop "createdAt" num (Some (Task.createdAt t));
        prop "completedAt" num (Task.completedAt t) ].

Definition column (c : Column.t) : string :=
  obj [ prop "id" str (Some (Column.id c));
        prop "title" str (Some (Column.title c));
        prop "order" num (Some (Column.order c)) ].

Definition board (b : BoardState.t) : string :=
  obj [ prop "columns" (arr column) (Some (BoardState.columns b));
        prop "tasks" (arr task) (Some (BoardState.tasks b));
        prop "tags" (arr tag) (BoardState.tags b) ].

(** The digits behind the point, seventeen at most. *)
Fixpoint fraction (fuel : nat) (numerator denominator : Z) : string :=
  match fuel with
  | O => EmptyString
  | S fuel' =>
      if numerator =? 0 then EmptyString
      else String.append (Js.toString (10 * numerator / denominator))
             (fraction fuel' ((10 * numerator) mod denominator) denominator)
  end.

Definition number (n : Number) : string :=
  match n with
  | Finite q =>
      let numerator := Z.abs (Qnum q) in
      let denominator := Z.pos (Qden q) in
      let whole := Js.toString (numerator / denominator) in
      let digits := fraction 17 (numerator mod denominator) denominator in
      String.append (if Qnum q <? 0 then "-" else EmptyString)
        (String.append whole
           (if Js.nonEmpty digits then String.append "." digits
            else EmptyString))
  | Infinite _ => "null"
  end.

Fixpoint json (value : Json) : string :=
  match value with
  | JNull => "null"
  | JBool b => bool_text b
  | JNumber n => number n
  | JString s => str s
  | JArray items =>
      String.append "[" (String.append (commas (map json items)) "]")
  | JObject properties =>
      String.append "{"
        (String.append
           (commas
              (map (fun property =>
                      String.append (str (fst property))
                        (String.append ":" (json (snd property))))
                 properties))
           "}")
  end.

Definition stringify (value : Value) : string :=
  match value with
  | Board b => board b
  | Other j => json j
  end.

Fixpoint parseOther (foreign : list Json) (text : string) : Js.Exc Value :=
  match foreign with
  | [] => Js.Throw Js.SyntaxError
  | j :: rest =>
      if String.eqb text (json j) then Js.Normal (Other j)
      else parseOther rest text
  end.

Fixpoint parseFrom (table : list BoardState.t) (foreign : list Json)
  (text : string) : Js.Exc Value :=
  match table with
  | [] => parseOther foreign text
  | b :: rest =>
      if String.eqb text (board b) then Js.Normal (Board b)
      else parseFrom rest foreign text
  end.

Definition magic : list Byte.byte := [Byte.x1f; Byte.x8b].

Definition store (text : string) : Js.Exc (list Byte.byte) :=
  Js.Normal (magic ++ list_byte_of_string text).

Definition unstore (bytes : list Byte.byte) : Js.Exc (list Byte.byte) :=
  match bytes with
  | Byte.x1f :: Byte.x8b :: rest => Js.Normal rest
  | _ => Js.Throw (Js.LibraryError "incorrect header check")
  end.

Definition platformWith (table : list BoardState.t) (foreign : list Json)
  (max_args : nat) : Platform :=
  {| JSON_stringify := stringify;
     JSON_parse := parseFrom table foreign;
     pako_gzip := store;
     pako_ungzip := unstore;
     TextDecoder_decode := string_of_list_byte;
     fromCharCode_max_args := max_args;
     decodeURIComponent := fun s => Js.Normal s |}.

Definition platform (table : list BoardState.t) (max_args : nat)
  : Platform :=
  platformWith table [] max_args.

(** A board stored before tasks had a status, a checklist, attachments and
    tags, and before boards had tags. *)
Definition legacyTask : Task.t :=
  Task.mk "task-1600000000000" "Fix bug" None medium None [] None None None
    "col-1" 0 1600000000000 None.

Definition legacyBoard : BoardState.t :=
  BoardState.mk [Column.mk "col-1" "To Do" 0] [legacyTask] None.

(** A backup payload: the base64 text of the gzip of the JSON text of the
    default board with one task, cut around the character at position 282. *)
Definition payloadBefore : string :=
  "H4sIAAAAAAAAA11Qy07DMBD8lchcGymPJoXcQFGl3jjACfXgJBvXoraRvZZAVf6ddWlrF588szOzjxMbzdEr7Vj3cWJyYl0g8pKtGEo8AuE3k/WGsLETWNYVyyoRVolwp7NXa4QF56K8vJPXibw3GqKuWvZU4u4zmSTAvNwU4dVN0VTpWFv5nQ1eEPNlpbESf4hUMEmviHPI0VMU0wZzAhZhIpoQhAbUy/nh2o4QR+TjQYHGC4FcXH5/B9qlp7megooWOEU/I22aDrrEiNsy4uzVXI".

Definition payloadAfter : string :=
  "xX86jU6ChIPYA85oeux0rqKuo3lIXbyF1FO3QTv8cdXS8W0HLpIb5aVOX7b1hHQ09OCl0angcmnEmw375BR4G/vgmAgAA".

Definition payload (c : ascii) : string :=
  String.append payloadBefore (String c payloadAfter).

End Sample.

(* ================================================================== *)
(** * Boards, tasks and stores for the examples                        *)
(* ================================================================== *)

Module Examples.
Import Types.

Definition sampleTask (status : Status) (completedAt : option Z) : Task.t :=
  Task.mk "task-1" "Write report" None medium (Some status) [] (Some [])
    (Some []) (Some []) "col-1" 0 100 completedAt.

(** [{ status: s }] *)
Definition setStatus (s : Status) : PartialTask.t :=
  PartialTask.mk None None None None (Some (Some s)) None None None None None
    None None None.

(** [{ status: undefined }] and [{ tags: undefined }] *)
Definition statusUndefined : PartialTask.t :=
  PartialTask.mk None None None None (Some None) None None None None None
    None None None.

Definition tagsUndefined : PartialTask.t :=
  PartialTask.mk None None None None None None None None (Some None) None
    None None None.

(** [{ completedAt: c }] *)
Definition setCompletedAt (c : option Z) : PartialTask.t :=
  PartialTask.mk None None None None None None None None None None None
    None (Some c).

Definition punctuationTask : Task.t :=
  Task.mk "task-1" "Fix bug !!!" (Some "why ?!") medium (Some not_started)
    [] (Some []) (Some []) (Some []) "col-1" 0 0 None.

Definition fixBug : Task.t :=
  Task.mk "task-1700000000000" "Fix bug" None medium (Some not_started) []
    (Some []) (Some []) (Some []) "col-1" 1 1700000000000 None.

Definition fixTheButtonBug : Task.t :=
  Task.mk "task-1700000000001" "Fix the button bug" (Some "see the form")
    high (Some in_progress) [] (Some []) (Some []) (Some ["tag-4"]) "col-1"
    0 1700000000001 None.

Definition searchedColumns : list FuzzySearch.ColumnWithTasks :=
  [ FuzzySearch.mkColumn (Column.mk "col-1" "To Do" 0)
      [fixTheButtonBug; fixBug];
    FuzzySearch.mkColumn (Column.mk "col-2" "In Progress" 1) [] ].


(** Three tasks, two of them in the second column. *)
Definition threeTasks : BoardState.t :=
  BoardState.mk
    [Column.mk "col-1" "To Do" 0; Column.mk "col-2" "In Progress" 1]
    [ Task.mk "a" "A" None medium (Some not_started) [] (Some []) (Some [])
        (Some []) "col-1" 4 0 None;
      Task.mk "b" "B" None medium (Some not_started) [] (Some []) (Some [])
        (Some []) "col-2" 7 0 None;
      Task.mk "c" "C" None medium (Some not_started) [] (Some []) (Some [])
        (Some []) "col-2" 2 0 None ]
    (Some []).

(** A board with the starter tags and one task that carries two of them. *)
Definition taggedBoard : BoardState.t :=
  BoardState.mk [Column.mk "col-1" "To Do" 0]
    [Task.mk "a" "A" None medium (Some done) [] (Some []) (Some [])
       (Some ["tag-1"; "tag-3"]) "col-1" 0 0 (Some 5)]
    (Some Database.defaultTags).

(** The libraries of the examples know the default board. *)
Definition samplePlatform : Platform :=
  Sample.platform [Database.defaultState] 4096.

(** The record that [createRecoveryBackup] makes of the default board. *)
Definition sampleRecord : RecoveryManager.BackupRecord :=
  match @RecoveryManager.backupData samplePlatform
          (Board Database.defaultState) 1700000000000 with
  | Js.Normal record => record
  | Js.Throw _ => RecoveryManager.mkBackup "" 0 ""
  end.

(** IndexedDB cannot be opened, localStorage holds the record, there are
    no cookies. *)
Definition localStores (record : RecoveryManager.BackupRecord)
  : RecoveryManager.Stores :=
  {| RecoveryManager.idb_get_backup :=
       Js.Throw (Js.LibraryError "The database cannot be opened");
     RecoveryManager.localStorage_getItem :=
       fun key =>
         if String.eqb key RecoveryManager.RECOVERY_STORAGE_KEY
         then Js.Normal (Some (RecoveryManager.data record))
         else if String.eqb key RecoveryManager.RECOVERY_HASH_KEY
         then Js.Normal (Some (RecoveryManager.hash record))
         else Js.Normal None;
     RecoveryManager.document_cookie := Js.Normal "" |}.

(** Stores that hold nothing. *)
Definition emptyStores : RecoveryManager.Stores :=
  {| RecoveryManager.idb_get_backup := Js.Normal None;
     RecoveryManager.localStorage_getItem := fun _ => Js.Normal None;
     RecoveryManager.document_cookie := Js.Normal "" |}.

(** IndexedDB takes the record; localStorage takes the data and is full
    when the hash comes; cookies are taken. *)
Definition tornWriters : RecoveryManager.Writers :=
  {| RecoveryManager.idb_put := fun _ => Js.Normal tt;
     RecoveryManager.localStorage_setItem :=
       fun key _ =>
         if String.eqb key RecoveryManager.RECOVERY_STORAGE_KEY
         then Js.Normal tt
         else Js.Throw (Js.LibraryError "QuotaExceededError");
     RecoveryManager.document_cookie_set := fun _ => Js.Normal tt;
     RecoveryManager.JSON_stringify_backup := fun _ => "{}";
     RecoveryManager.expires_toUTCString := "Thu, 14 Dec 2023 22:13:20 GMT" |}.

(** Every store takes what it is given. *)
Definition willingWriters : RecoveryManager.Writers :=
  {| RecoveryManager.idb_put := fun _ => Js.Normal tt;
     RecoveryManager.localStorage_setItem := fun _ _ => Js.Normal tt;
     RecoveryManager.document_cookie_set := fun _ => Js.Normal tt;
     RecoveryManager.JSON_stringify_backup := fun _ => "{}";
     RecoveryManager.expires_toUTCString := "Thu, 14 Dec 2023 22:13:20 GMT" |}.

(** A board exported with tags but with a task from before tasks had
    them, and the libraries that know it. *)
Definition halfMigrated : BoardState.t :=
  BoardState.mk [Column.mk "col-1" "To Do" 0] [Sample.legacyTask]
    (Some Database.defaultTags).

Definition importPlatform : Platform := Sample.platform [halfMigrated] 4096.

(** [{"columns":1,"tasks":1,"tags":1}]: a value that has the three
    properties asked of a backup and is no board; libraries that know its
    text, that of the empty object and that of [null]; and the record that
    [createRecoveryBackup] makes of it. *)
Definition notABoard : Json :=
  JObject [ ("columns", JNumber (Finite 1%Q));
            ("tasks", JNumber (Finite 1%Q));
            ("tags", JNumber (Finite 1%Q)) ].

Definition foreignPlatform : Platform :=
  Sample.platformWith [Database.defaultState] [notABoard; JObject []; JNull]
    4096.

Definition foreignRecord : RecoveryManager.BackupRecord :=
  match @RecoveryManager.backupData foreignPlatform (Other notABoard)
          1700000000000 with
  | Js.Normal record => record
  | Js.Throw _ => RecoveryManager.mkBackup "" 0 ""
  end.

(** Three tasks, two of which have the same id. *)
Definition twoWithOneId : BoardState.t :=
  BoardState.mk
    [Column.mk "col-1" "To Do" 0; Column.mk "col-2" "In Progress" 1]
    [ Task.mk "a" "A" None medium (Some not_started) [] (Some []) (Some [])
        (Some []) "col-1" 0 0 None;
      Task.mk "a" "A again" None medium (Some not_started) [] (Some [])
        (Some []) (Some []) "col-1" 1 0 None;
      Task.mk "b" "B" None medium (Some not_started) [] (Some []) (Some [])
        (Some []) "col-2" 0 0 None ]
    (Some []).

End Examples.

(* ================================================================== *)
(** * Notions used to state the properties                             *)
(* ================================================================== *)

Module Spec.
Import Types.

(** ** Orders within a column *)

(** [k, k+1, ..., k+n-1] *)
Fixpoint countFrom (k : Z) (n : nat) : list Z :=
  match n with
  | O => []
  | S n' => k :: countFrom (k + 1) n'
  end.

(** The tasks of a column, sorted by their [order]. *)
Definition columnTasksByOrder (state : BoardState.t) (columnId : string)
  : list Task.t :=
  Js.sort (Js.ascending Task.order)
    (filter (fun t => String.eqb (Task.columnId t) columnId)
       (BoardState.tasks state)).

(** The orders of the column are [0..n-1], each task's order being its
    position in the sorted list. *)
Definition contiguousOrders (state : BoardState.t) (columnId : string)
  : Prop :=
  let sorted := columnTasksByOrder state columnId in
  map Task.order sorted = countFrom 0 (List.length sorted).

Definition hasTask (state : BoardState.t) (taskId : string) : bool :=
  existsb (fun t => String.eqb (Task.id t) taskId) (BoardState.tasks state).

(** ** Status and completion time *)

Definition isDone (task : Task.t) : bool :=
  match Task.status task with
  | Some done => true
  | _ => false
  end.

Definition isSet {A} (o : option A) : bool :=
  match o with Some _ => true | None => false end.

(** [completedAt] is set if and only if the status is "done". *)
Definition completionConsistent (task : Task.t) : bool :=
  Bool.eqb (isSet (Task.completedAt task)) (isDone task).

Definition boardConsistent (state : BoardState.t) : bool :=
  forallb completionConsistent (BoardState.tasks state).

(** A call of one of the two operations that set a status. *)
Inductive StatusCall : Type :=
| UpdateTask (now : Z -> Z) (taskId : string) (updates : PartialTask.t)
| SetColumnTasksStatus (now : Z -> Z) (columnId : string) (status : Status).

Definition call (c : StatusCall) (state : BoardState.t) : BoardState.t :=
  match c with
  | UpdateTask now taskId updates =>
      Database.updateTask state now taskId updates
  | SetColumnTasksStatus now columnId status =>
      Database.setColumnTasksStatus state now columnId status
  end.

Definition run (calls : list StatusCall) (state : BoardState.t)
  : BoardState.t :=
  fold_left (fun state c => call c state) calls state.

(** What the clock showed when the call handled the task at position [i]. *)
Definition clockAt (c : StatusCall) (i : nat) : Z :=
  match c with
  | UpdateTask now _ _ | SetColumnTasksStatus now _ _ => now (Z.of_nat i)
  end.

(** The updates of the call carry no [completedAt] key. *)
Definition leavesCompletedAt (c : StatusCall) : bool :=
  match c with
  | UpdateTask _ _ updates =>
      negb (isSet (PartialTask.completedAt updates))
  | SetColumnTasksStatus _ _ _ => true
  end.

(** A key is not carried with the value undefined. *)
Definition notUndefined {A} (key : option (option A)) : bool :=
  match key with
  | Some None => false
  | _ => true
  end.

(** If the updates of the call carry [status], they carry a status. *)
Definition givesStatus (c : StatusCall) : bool :=
  match c with
  | UpdateTask _ _ updates => notUndefined (PartialTask.status updates)
  | SetColumnTasksStatus _ _ _ => true
  end.

Definition isDoneAt (state : BoardState.t) (i : nat) : bool :=
  match nth_error (BoardState.tasks state) i with
  | Some task => isDone task
  | None => false
  end.

(** The time of the most recent transition into "done" of the task at
    position [i] during the calls: the clock of the last call before which
    the task was not done and after which it was.  [None]: no call made such
    a transition. *)
Fixpoint lastTransitionIntoDone (calls : list StatusCall)
  (state : BoardState.t) (i : nat) : option Z :=
  match calls with
  | [] => None
  | c :: rest =>
      let state' := call c state in
      match lastTransitionIntoDone rest state' i with
      | Some time => Some time
      | None =>
          if negb (isDoneAt state i) && isDoneAt state' i
          then Some (clockAt c i)
          else None
      end
  end.

(** ** Creation of entities *)

Inductive Creation : Type :=
| AddColumn (now : Z) (title : string)
| AddTask (nowId nowCreatedAt : Z) (columnId title : string)
| AddTag (now : Z) (name color : string).

(** The kind of entity and the reading of the clock its id is made of. *)
Inductive Kind : Type := KColumn | KTask | KTag.

Definition stamp (c : Creation) : Kind * Z :=
  match c with
  | AddColumn now _ => (KColumn, now)
  | AddTask nowId _ _ _ => (KTask, nowId)
  | AddTag now _ _ => (KTag, now)
  end.

(** The id that a creation makes: a prefix naming the kind, then the
    clock in decimal. *)
Definition generatedId (c : Creation) : string :=
  match stamp c with
  | (KColumn, now) => String.append "col-" (Js.toString now)
  | (KTask, now) => String.append "task-" (Js.toString now)
  | (KTag, now) => String.append "tag-" (Js.toString now)
  end.

(** One creation: the next state and the id of the entity it appended. *)
Definition create (c : Creation) (state : BoardState.t)
  : Js.Exc (BoardState.t * string) :=
  match c with
  | AddColumn now title =>
      let state' := Database.addColumn state now title in
      Js.Normal
        (state', last (map Column.id (BoardState.columns state')) EmptyString)
  | AddTask nowId nowCreatedAt columnId title =>
      let '(state', newTask) :=
        Database.addTask state nowId nowCreatedAt columnId title in
      Js.Normal (state', Task.id newTask)
  | AddTag now name color =>
      Js.bind (Database.addTag state now name color)
        (fun '(state', newTag) => Js.Normal (state', Tag.id newTag))
  end.

(** A sequence of creations: the last state and the ids in order. *)
Fixpoint createAll (cs : list Creation) (state : BoardState.t)
  : Js.Exc (BoardState.t * list string) :=
  match cs with
  | [] => Js.Normal (state, [])
  | c :: rest =>
      Js.bind (create c state)
        (fun '(state', id) =>
           Js.bind (createAll rest state')
             (fun '(final, ids) => Js.Normal (final, id :: ids)))
  end.

(** ** Search *)

(** The task sits in one of the columns handed to the search. *)
Definition inColumns (t : Task.t) (columns : list FuzzySearch.ColumnWithTasks)
  : Prop :=
  exists col, In col columns /\ In t (FuzzySearch.tasks col).

(** A match on another field than the title. *)
Definition notTitle (m : FuzzySearch.SearchMatch) : Prop :=
  String.eqb (FuzzySearch.field m) "title" = false.

(** No field of the task but its title matches the query. *)
Definition onlyTitleMatches (t : Task.t) (query : string) (tags : list Tag.t)
  : bool :=
  forallb (fun m => String.eqb (FuzzySearch.field m) "title")
    (FuzzySearch.searchTask t query tags).

Fixpoint allWhiteSpace (s : string) : bool :=
  match s with
  | EmptyString => true
  | String c r => Js.isWhiteSpace c && allWhiteSpace r
  end.

(** The query has no word character. *)
Fixpoint noWordChar (query : string) : bool :=
  match query with
  | EmptyString => true
  | String c r => negb (Js.isWordChar c) && noWordChar r
  end.

(** ** Checksum and recovery *)


(** The store of the tier answers with [data] and [hash]. *)
Definition tierHolds `{Platform} (st : RecoveryManager.Stores)
  (tier : RecoveryManager.Source) (data hash : string) : Prop :=
  match tier with
  | RecoveryManager.indexeddb =>
      exists timestamp,
        RecoveryManager.idb_get_backup st
        = Js.Normal (Some (RecoveryManager.mkBackup data timestamp hash))
  | RecoveryManager.localstorage =>
      RecoveryManager.localStorage_getItem st
        RecoveryManager.RECOVERY_STORAGE_KEY = Js.Normal (Some data)
      /\ RecoveryManager.localStorage_getItem st
           RecoveryManager.RECOVERY_HASH_KEY = Js.Normal (Some hash)
  | RecoveryManager.cookies =>
      exists cookie,
        RecoveryManager.document_cookie st = Js.Normal cookie
        /\ RecoveryManager.getCookieValue cookie
             RecoveryManager.RECOVERY_COOKIE_KEY = Js.Normal (Some data)
        /\ RecoveryManager.getCookieValue cookie
             RecoveryManager.RECOVERY_HASH_KEY = Js.Normal (Some hash)
  end.

(** ** The value that a board is *)

(** A board as the value that [JSON.parse] builds from its text: a property
    that is undefined is not there. *)
Definition entry (key : string) (value : option Json)
  : list (string * Json) :=
  match value with
  | Some v => [(key, v)]
  | None => []
  end.

Definition jsonNumber (z : Z) : Json := JNumber (Finite (inject_Z z)).

Definition jsonSubNote (n : SubNote.t) : Json :=
  JObject [ ("id", JString (SubNote.id n));
            ("content", JString (SubNote.content n));
            ("createdAt", jsonNumber (SubNote.createdAt n)) ].

Definition jsonSubtask (t : Subtask.t) : Json :=
  JObject [ ("id", JString (Subtask.id t));
            ("title", JString (Subtask.title t));
            ("completed", JBool (Subtask.completed t));
            ("createdAt", jsonNumber (Subtask.createdAt t)) ].

Definition jsonAttachment (a : Attachment.t) : Json :=
  JObject
    (entry "id" (Some (JString (Attachment.id a)))
     ++ entry "type"
          (Some (JString (AttachmentType_string (Attachment.type a))))
     ++ entry "name" (Some (JString (Attachment.name a)))
     ++ entry "url" (Some (JString (Attachment.url a)))
     ++ entry "size" (option_map jsonNumber (Attachment.size a))
     ++ entry "mimeType" (option_map JString (Attachment.mimeType a))
     ++ entry "createdAt" (Some (jsonNumber (Attachment.createdAt a)))).

Definition jsonTask (t : Task.t) : Json :=
  JObject
    (entry "id" (Some (JString (Task.id t)))
     ++ entry "title" (Some (JString (Task.title t)))
     ++ entry "description" (option_map JString (Task.description t))
     ++ entry "priority"
          (Some (JString (Priority_string (Task.priority t))))
     ++ entry "status"
          (option_map (fun x => JString (Status_string x)) (Task.status t))
     ++ entry "notes" (Some (JArray (map jsonSubNote (Task.notes t))))
     ++ entry "subtasks"
          (option_map (fun l => JArray (map jsonSubtask l))
             (Task.subtasks t))
     ++ entry "attachments"
          (option_map (fun l => JArray (map jsonAttachment l))
             (Task.attachments t))
     ++ entry "tags"
          (option_map (fun l => JArray (map JString l)) (Task.tags t))
     ++ entry "columnId" (Some (JString (Task.columnId t)))
     ++ entry "order" (Some (jsonNumber (Task.order t)))
     ++ entry "createdAt" (Some (jsonNumber (Task.createdAt t)))
     ++ entry "completedAt" (option_map jsonNumber (Task.completedAt t))).

Definition jsonColumn (c : Column.t) : Json :=
  JObject [ ("id", JString (Column.id c));
            ("title", JString (Column.title c));
            ("order", jsonNumber (Column.order c)) ].

Definition jsonBoard (b : BoardState.t) : Json :=
  JObject
    (entry "columns" (Some (JArray (map jsonColumn (BoardState.columns b))))
     ++ entry "tasks" (Some (JArray (map jsonTask (BoardState.tasks b))))
     ++ entry "tags"
          (option_map (fun l => JArray (map Database.Tag_json l))
             (BoardState.tags b))).

(** Two objects with the same properties, whatever their order. *)
Definition sameProperties (a b : Json) : Prop :=
  exists pa pb,
    a = JObject pa /\ b = JObject pb
    /\ forall key, Dynamic.lookup key pa = Dynamic.lookup key pb.

(** ** The codec *)

(** The libraries lose nothing of the board [b]: parsing its JSON text
    gives [b] back; the text is that of an object, so it starts with a
    brace; and whatever gzip makes of the text, ungzip and the text decoder
    turn into the text again. *)
Definition lossless `{Platform} (b : BoardState.t) : Prop :=
  JSON_parse (JSON_stringify (Board b)) = Js.Normal (Board b)
  /\ (exists rest, JSON_stringify (Board b) = String "{" rest)
  /\ (forall z,
        pako_gzip (JSON_stringify (Board b)) = Js.Normal z ->
        exists u, pako_ungzip z = Js.Normal u
                  /\ TextDecoder_decode u = JSON_stringify (Board b)).

(** The decoder as the specification words it.  The first attempt takes
    the text for base64, the bytes behind it for a gzip and the text in
    the gzip for JSON; it fails as soon as one of the three is refused. *)
Definition base64GzipJson `{Platform} (text : string) : option Value :=
  match Js.atob text with
  | Js.Throw _ => None
  | Js.Normal binaryString =>
      match pako_ungzip (bytes_of_binaryString binaryString) with
      | Js.Throw _ => None
      | Js.Normal decompressed =>
          match JSON_parse (TextDecoder_decode decompressed) with
          | Js.Throw _ => None
          | Js.Normal value => Some value
          end
      end
  end.

(** The second attempt takes the text itself for JSON. *)
Definition plainJson `{Platform} (text : string) : option Value :=
  match JSON_parse text with
  | Js.Throw _ => None
  | Js.Normal value => Some value
  end.


(** [decompressState(compressState(b))] *)
Definition roundTrip `{Platform} (b : BoardState.t) : Js.Exc Value :=
  Js.bind (Database.compressState (Board b))
    (fun payload => Database.decompressState (Database.PString payload)).

(** ** Highlighting *)

(** The ranges come in order, none starts before the one in front of it
    ends, and all lie between [lastEnd] and [size]: what [mergeIndices]
    returns for ranges taken inside a text of [size] code units. *)
Fixpoint orderedRanges (lastEnd : Z) (indices : list FuzzySearch.Range)
  (size : Z) : bool :=
  match indices with
  | [] => lastEnd <=? size
  | (start, end_) :: rest =>
      (lastEnd <=? start) && (start <=? end_) && orderedRanges end_ rest size
  end.

(** The range lies inside a text of [size] code units. *)
Definition inside (size : Z) (r : FuzzySearch.Range) : Prop :=
  0 <= fst r /\ fst r <= snd r /\ snd r <= size.

(** The texts of the segments, one after the other. *)
Definition segmentsText (segments : list FuzzySearch.Segment) : string :=
  Js.join (map FuzzySearch.text segments).

(** ** Boards that miss nothing, and references that resolve *)

Definition taskComplete (task : Task.t) : bool :=
  isSet (Task.status task) && isSet (Task.subtasks task)
  && isSet (Task.attachments task) && isSet (Task.tags task).

(** Every property that [migrateState] fills in is there. *)
Definition complete (state : BoardState.t) : bool :=
  forallb taskComplete (BoardState.tasks state)
  && isSet (BoardState.tags state).

Definition columnKnown (state : BoardState.t) (columnId : string) : bool :=
  existsb (fun col => String.eqb (Column.id col) columnId)
    (BoardState.columns state).

(** Every task sits in a column of the board. *)
Definition columnsExist (state : BoardState.t) : bool :=
  forallb (fun t => columnKnown state (Task.columnId t))
    (BoardState.tasks state).

Definition tagKnown (state : BoardState.t) (tagId : string) : bool :=
  existsb (fun tag => String.eqb (Tag.id tag) tagId)
    (or_default (BoardState.tags state) []).

(** Every tag id carried by a task is the id of a tag of the board. *)
Definition tagsExist (state : BoardState.t) : bool :=
  forallb (fun t => forallb (tagKnown state) (or_default (Task.tags t) []))
    (BoardState.tasks state).

(** A call of any of the mutations of the board store. *)
Inductive Mutation : Type :=
| MAddColumn (now : Z) (title : string)
| MUpdateColumn (columnId title : string)
| MDeleteColumn (columnId : string)
| MAddTask (nowId nowCreatedAt : Z) (columnId title : string)
| MUpdateTask (now : Z -> Z) (taskId : string) (updates : PartialTask.t)
| MDeleteTask (taskId : string)
| MMoveTask (taskId newColumnId : string) (newOrder : Z)
| MReorderColumns (columns : list Column.t)
| MSetColumnTasksStatus (now : Z -> Z) (columnId : string) (status : Status)
| MSetColumnTasksPriority (columnId : string) (priority : Priority)
| MAddTag (now : Z) (name color : string)
| MDeleteTag (tagId : string).

(** None of the four keys that [migrateState] fills in is carried with the
    value undefined. *)
Definition definedUpdates (updates : PartialTask.t) : bool :=
  notUndefined (PartialTask.status updates)
  && notUndefined (PartialTask.subtasks updates)
  && notUndefined (PartialTask.attachments updates)
  && notUndefined (PartialTask.tags updates).

(** No [updateTask] of the mutation takes one of these four away. *)
Definition takesNothingAway (m : Mutation) : bool :=
  match m with
  | MUpdateTask _ _ updates => definedUpdates updates
  | _ => true
  end.

(** The state that the call hands to [saveState], or the exception it
    throws before that. *)
Definition mutate (m : Mutation) (state : BoardState.t)
  : Js.Exc BoardState.t :=
  match m with
  | MAddColumn now title => Js.Normal (Database.addColumn state now title)
  | MUpdateColumn columnId title =>
      Js.Normal (Database.updateColumn state columnId title)
  | MDeleteColumn columnId => Js.Normal (Database.deleteColumn state columnId)
  | MAddTask nowId nowCreatedAt columnId title =>
      Js.Normal (fst (Database.addTask state nowId nowCreatedAt columnId title))
  | MUpdateTask now taskId updates =>
      Js.Normal (Database.updateTask state now taskId updates)
  | MDeleteTask taskId => Js.Normal (Database.deleteTask state taskId)
  | MMoveTask taskId newColumnId newOrder =>
      Js.Normal (Database.moveTask state taskId newColumnId newOrder)
  | MReorderColumns columns =>
      Js.Normal (Database.reorderColumns state columns)
  | MSetColumnTasksStatus now columnId status =>
      Js.Normal (Database.setColumnTasksStatus state now columnId status)
  | MSetColumnTasksPriority columnId priority =>
      Js.Normal (Database.setColumnTasksPriority state columnId priority)
  | MAddTag now name color =>
      Js.bind (Database.addTag state now name color)
        (fun r => Js.Normal (fst r))
  | MDeleteTag tagId => Database.deleteTag state tagId
  end.

(** The calls one after the other, each on the state the one before made. *)
Fixpoint mutateAll (ms : list Mutation) (state : BoardState.t)
  : Js.Exc BoardState.t :=
  match ms with
  | [] => Js.Normal state
  | m :: rest => Js.bind (mutate m state) (mutateAll rest)
  end.

(** The tasks of the target column of a move that stay there: all but
    those with the id moved. *)
Definition staying (state : BoardState.t) (taskId newColumnId : string)
  : list Task.t :=
  filter (fun t => String.eqb (Task.columnId t) newColumnId)
    (filter (fun t => negb (String.eqb (Task.id t) taskId))
       (BoardState.tasks state)).

(** The number of tasks of the column. *)
Definition columnSize (state : BoardState.t) (columnId : string) : nat :=
  List.length
    (filter (fun t => String.eqb (Task.columnId t) columnId)
       (BoardState.tasks state)).

(** ** Tokens, occurrences and coverage of the search *)

Fixpoint allChars (p : ascii -> bool) (s : string) : bool :=
  match s with
  | EmptyString => true
  | String c r => p c && allChars p r
  end.

(** [a-z0-9_]: the word characters that lower case leaves. *)
Definition isTokenChar (c : ascii) : bool :=
  Js.in_range 97 122 c || Js.in_range 48 57 c || (Js.code c =? 95).

Definition isToken (s : string) : bool :=
  Js.nonEmpty s && allChars isTokenChar s.

(** [query] stands in [text] at offset [p]. *)
Definition occursAt (text query : string) (p : nat) : Prop :=
  (p <= String.length text)%nat /\ String.prefix query (Js.drop p text) = true.

(** The position [x] lies in one of the ranges. *)
Definition covers (indices : list FuzzySearch.Range) (x : Z) : bool :=
  existsb (fun r => (fst r <=? x) && (x <? snd r)) indices.

(** Each range ends strictly before the next one starts. *)
Fixpoint separated (indices : list FuzzySearch.Range) : bool :=
  match indices with
  | a :: (b :: _) as rest => (snd a <? fst b) && separated rest
  | _ => true
  end.

(** The lower-cased text contains the lower-cased query: the test of
    [searchTasks] and of the second bonus of [fuzzyMatchField]. *)
Definition containsIgnoringCase (text query : string) : bool :=
  Js.includes (Js.toLowerCase text) (Js.toLowerCase query).

(** Row [i] of the table of [levenshteinDistance], from column [j] on: each
    cell lies between the difference and the larger of its two indices. *)
Fixpoint rowBounded (i j : Z) (row : list Z) : Prop :=
  match row with
  | [] => True
  | v :: rest => Z.abs (i - j) <= v <= Z.max i j /\ rowBounded i (j + 1) rest
  end.

(** One of the fields that [searchTasks] looks at contains the query:
    title, description, a note, a checklist item, or the name of a tag of
    the board that the task carries. *)
Definition plainHit (state : BoardState.t) (query : string) (task : Task.t)
  : bool :=
  containsIgnoringCase (Task.title task) query
  || match Task.description task with
     | Some d => containsIgnoringCase d query
     | None => false
     end
  || existsb (fun note => containsIgnoringCase (SubNote.content note) query)
       (Task.notes task)
  || existsb (fun st => containsIgnoringCase (Subtask.title st) query)
       (or_default (Task.subtasks task) [])
  || existsb
       (fun tag => containsIgnoringCase (Tag.name tag) query)
       (filter
          (fun tag =>
             existsb (String.eqb (Tag.id tag))
               (or_default (Task.tags task) []))
          (or_default (BoardState.tags state) [])).

(** Title, description and notes miss the query: [searchTasks] goes on to
    read the checklist. *)
Definition readsSubtasks (query : string) (task : Task.t) : bool :=
  negb (containsIgnoringCase (Task.title task) query)
  && negb match Task.description task with
          | Some d => containsIgnoringCase d query
          | None => false
          end
  && negb (existsb
             (fun note => containsIgnoringCase (SubNote.content note) query)
             (Task.notes task)).

(** ** The tiers of the recovery *)

Definition tierAnswer `{Platform} (st : RecoveryManager.Stores)
  (tier : RecoveryManager.Source)
  : Js.Exc (option RecoveryManager.Recovery) :=
  match tier with
  | RecoveryManager.indexeddb => RecoveryManager.tier_indexeddb st
  | RecoveryManager.localstorage => RecoveryManager.tier_localstorage st
  | RecoveryManager.cookies => RecoveryManager.tier_cookies st
  end.

(** The order in which [attemptRecovery] asks the tiers. *)
Definition tierRank (tier : RecoveryManager.Source) : nat :=
  match tier with
  | RecoveryManager.indexeddb => 0
  | RecoveryManager.localstorage => 1
  | RecoveryManager.cookies => 2
  end.


(** No tier asked before [tier] answers. *)
Definition earlierSilent `{Platform} (st : RecoveryManager.Stores)
  (tier : RecoveryManager.Source) : Prop :=
  forall tier' r,
    (tierRank tier' < tierRank tier)%nat ->
    tierAnswer st tier' <> Js.Normal (Some r).

End Spec.

(* ================================================================== *)
(** * Properties of the run-time functions                             *)
(* ================================================================== *)

Module JsFacts.
Import Js.

(** ** Strings *)

Lemma take_length_ge (n : nat) (s : string) :
  (String.length s <= n)%nat -> take n s = s.
Proof.
  revert s; induction n as [|n IH]; intros [|c r]; simpl; intros Hle;
    try reflexivity; try lia.
  f_equal; apply IH; lia.
Qed.

Lemma drop_drop (a b : nat) (s : string) :
  drop b (drop a s) = drop (a + b) s.
Proof.
  revert s; induction a as [|a IH]; intros s; simpl; [reflexivity|].
  destruct s as [|c r]; [now destruct b | apply IH].
Qed.

Lemma take_plus (n m : nat) (s : string) :
  take (n + m) s = String.append (take n s) (take m (drop n s)).
Proof.
  revert s; induction n as [|n IH]; intros s; simpl; [reflexivity|].
  destruct s as [|c r]; simpl; [now destruct m | now rewrite IH].
Qed.

Lemma clampIndex_inside (size i : Z) :
  0 <= i <= size -> clampIndex size i = i.
Proof.
  intros Hi; unfold clampIndex.
  destruct (Z.ltb_spec i 0); lia.
Qed.

(** Inside the string, [slice] is [take] after [drop]. *)
Lemma slice_inside (s : string) (a b : Z) :
  0 <= a <= b -> b <= len s ->
  slice s a b = take (Z.to_nat (b - a)) (drop (Z.to_nat a) s).
Proof.
  intros Ha Hb; unfold slice.
  rewrite !clampIndex_inside by lia.
  now rewrite Z.max_l by lia.
Qed.

Lemma slice_append (s : string) (a b c : Z) :
  0 <= a <= b -> b <= c -> c <= len s ->
  String.append (slice s a b) (slice s b c) = slice s a c.
Proof.
  intros Ha Hb Hc.
  rewrite !slice_inside by lia.
  replace (Z.to_nat (c - a)) with (Z.to_nat (b - a) + Z.to_nat (c - b))%nat
    by lia.
  rewrite take_plus, drop_drop.
  do 3 f_equal; lia.
Qed.

Lemma slice_whole (s : string) : slice s 0 (len s) = s.
Proof.
  rewrite slice_inside by (unfold len; lia).
  simpl; apply take_length_ge; unfold len; lia.
Qed.

Lemma slice_empty (s : string) (a : Z) :
  0 <= a <= len s -> slice s a a = EmptyString.
Proof.
  intros Ha; rewrite slice_inside by lia.
  rewrite Z.sub_diag; now destruct (drop (Z.to_nat a) s).
Qed.

Lemma append_empty_r (s : string) : String.append s EmptyString = s.
Proof. induction s; simpl; congruence. Qed.

Lemma append_assoc (a b c : string) :
  String.append (String.append a b) c = String.append a (String.append b c).
Proof. induction a; simpl; congruence. Qed.

Lemma join_app (l1 l2 : list string) :
  join (l1 ++ l2) = String.append (join l1) (join l2).
Proof.
  induction l1 as [|x l1 IH]; simpl; [reflexivity|].
  now rewrite IH, append_assoc.
Qed.

(** ** [filter] and [find] *)

Lemma filter_all {A} (f : A -> bool) (l : list A) :
  Forall (fun x => f x = true) l -> filter f l = l.
Proof.
  induction 1 as [|x l Hx _ IH]; simpl; [reflexivity|].
  now rewrite Hx, IH.
Qed.

Lemma filter_none {A} (f : A -> bool) (l : list A) :
  Forall (fun x => f x = false) l -> filter f l = [].
Proof.
  induction 1 as [|x l Hx _ IH]; simpl; [reflexivity|].
  now rewrite Hx, IH.
Qed.

Lemma find_existsb {A} (f : A -> bool) (l : list A) :
  existsb f l = true -> exists x, find f l = Some x.
Proof.
  induction l as [|y l IH]; simpl; [discriminate|].
  destruct (f y); [eauto | exact IH].
Qed.

(** ** [sort] *)

Section Sort.
Context {A : Type} (cmp : A -> A -> Z).

Lemma sort_insert_perm (x : A) (l : list A) :
  Permutation (x :: l) (sort_insert cmp x l).
Proof.
  induction l as [|y l IH]; simpl; [reflexivity|].
  destruct (cmp x y <=? 0); [reflexivity|].
  rewrite perm_swap; now constructor.
Qed.

Lemma sort_perm (l : list A) : Permutation l (sort cmp l).
Proof.
  induction l as [|x l IH]; simpl; [constructor|].
  etransitivity; [|apply sort_insert_perm]; now constructor.
Qed.

Lemma sort_length (l : list A) : List.length (sort cmp l) = List.length l.
Proof. symmetry; apply Permutation_length, sort_perm. Qed.

Lemma sort_Forall (P : A -> Prop) (l : list A) :
  Forall P l -> Forall P (sort cmp l).
Proof. intros H; eapply Permutation_Forall; [apply sort_perm | exact H]. Qed.

Lemma sort_In (x : A) (l : list A) : In x (sort cmp l) <-> In x l.
Proof.
  split; apply Permutation_in; [symmetry|]; apply sort_perm.
Qed.

End Sort.

(** Sorting by a key: the comparator is [key a - key b] (ascending) or
    [key b - key a] (descending). *)
Section SortByKey.
Context {A : Type} (key : A -> Z).

Lemma insert_ascending_sorted (x : A) (l : list A) :
  StronglySorted (fun a b => key a <= key b) l ->
  StronglySorted (fun a b => key a <= key b) (sort_insert (ascending key) x l).
Proof.
  induction 1 as [|y l Hs IH Hy]; simpl; [repeat constructor|].
  unfold ascending at 1.
  destruct (Z.leb_spec (key x - key y) 0) as [Hle|Hgt].
  - constructor; [now constructor|].
    constructor; [lia|].
    eapply Forall_impl; [|exact Hy]; simpl; intros; lia.
  - constructor; [exact IH|].
    eapply Permutation_Forall; [apply sort_insert_perm|].
    constructor; [lia | exact Hy].
Qed.

Lemma sort_ascending_sorted (l : list A) :
  StronglySorted (fun a b => key a <= key b) (sort (ascending key) l).
Proof.
  induction l as [|x l IH]; simpl; [constructor|].
  now apply insert_ascending_sorted.
Qed.

Lemma insert_descending_sorted (x : A) (l : list A) :
  StronglySorted (fun a b => key b <= key a) l ->
  StronglySorted (fun a b => key b <= key a) (sort_insert (descending key) x l).
Proof.
  induction 1 as [|y l Hs IH Hy]; simpl; [repeat constructor|].
  unfold descending at 1.
  destruct (Z.leb_spec (key y - key x) 0) as [Hle|Hgt].
  - constructor; [now constructor|].
    constructor; [lia|].
    eapply Forall_impl; [|exact Hy]; simpl; intros; lia.
  - constructor; [exact IH|].
    eapply Permutation_Forall; [apply sort_insert_perm|].
    constructor; [lia | exact Hy].
Qed.

Lemma sort_descending_sorted (l : list A) :
  StronglySorted (fun a b => key b <= key a) (sort (descending key) l).
Proof.
  induction l as [|x l IH]; simpl; [constructor|].
  now apply insert_descending_sorted.
Qed.

End SortByKey.

(** ** [mapi] *)

Lemma mapi_from_length {A B} (f : Z -> A -> B) (k : Z) (l : list A) :
  List.length (mapi_from f k l) = List.length l.
Proof. revert k; induction l; simpl; intros; [reflexivity | now rewrite IHl]. Qed.

Lemma mapi_from_nth_error {A B} (f : Z -> A -> B) (l : list A) :
  forall (k : Z) (i : nat),
    nth_error (mapi_from f k l) i
    = option_map (f (k + Z.of_nat i)) (nth_error l i).
Proof.
  induction l as [|x l IH]; intros k [|i]; simpl; try reflexivity.
  - now rewrite Z.add_0_r.
  - rewrite IH; do 2 f_equal; lia.
Qed.

Lemma mapi_nth_error {A B} (f : Z -> A -> B) (l : list A) (i : nat) :
  nth_error (mapi f l) i = option_map (f (Z.of_nat i)) (nth_error l i).
Proof. unfold mapi; now rewrite mapi_from_nth_error. Qed.

End JsFacts.

(* ================================================================== *)
(** * Highlighting (fuzzySearch.ts)                                    *)
(* ================================================================== *)

Module HighlightFacts.
Import Types FuzzySearch Spec.

Lemma segmentsText_app (l1 l2 : list Segment) :
  segmentsText (l1 ++ l2) = String.append (segmentsText l1) (segmentsText l2).
Proof. unfold segmentsText; now rewrite map_app, JsFacts.join_app. Qed.

(** The loop covers the text between the [lastEnd] it starts from and the
    [lastEnd] it ends with. *)
Lemma highlight_loop_covers (text : string) (indices : list Range) :
  forall lastEnd,
    0 <= lastEnd ->
    orderedRanges lastEnd indices (Js.len text) = true ->
    lastEnd <= snd (highlight_loop text indices lastEnd) <= Js.len text
    /\ segmentsText (fst (highlight_loop text indices lastEnd))
       = Js.slice text lastEnd (snd (highlight_loop text indices lastEnd)).
Proof.
  induction indices as [|[start end_] rest IH]; intros lastEnd H0 Hord;
    simpl in Hord |- *.
  - apply Z.leb_le in Hord. split; [lia|].
    now rewrite JsFacts.slice_empty by lia.
  - apply andb_prop in Hord as [Hord Hrest].
    apply andb_prop in Hord as [Hle1 Hle2].
    apply Z.leb_le in Hle1, Hle2.
    specialize (IH end_ ltac:(lia) Hrest).
    destruct (highlight_loop text rest end_) as [more final] eqn:Eloop.
    simpl in IH |- *. destruct IH as [Hfinal Hmore].
    split; [lia|].
    rewrite segmentsText_app.
    change (segmentsText (mkSegment (Js.slice text start end_) true :: more))
      with (String.append (Js.slice text start end_) (segmentsText more)).
    rewrite Hmore, JsFacts.slice_append by lia.
    destruct (Z.gtb_spec start lastEnd) as [Hgt|Hngt].
    + change (segmentsText [mkSegment (Js.slice text lastEnd start) false])
        with (String.append (Js.slice text lastEnd start) EmptyString).
      rewrite JsFacts.append_empty_r.
      apply JsFacts.slice_append; lia.
    + replace start with lastEnd by lia. reflexivity.
Qed.

Lemma highlightMatches_covers (text : string) (indices : list Range) :
  orderedRanges 0 indices (Js.len text) = true ->
  segmentsText (highlightMatches text indices) = text.
Proof.
  intros Hord. unfold highlightMatches.
  destruct indices as [|r rest] eqn:E.
  - unfold segmentsText; simpl. apply JsFacts.append_empty_r.
  - rewrite <- E in *. clear E r rest.
    destruct (highlight_loop_covers text indices 0 ltac:(lia) Hord)
      as [Hfinal Hsegs].
    destruct (highlight_loop text indices 0) as [result lastEnd].
    simpl in Hfinal, Hsegs.
    destruct (Z.ltb_spec lastEnd (Js.len text)) as [Hlt|Hge].
    + rewrite segmentsText_app, Hsegs.
      change (segmentsText [mkSegment (Js.sliceFrom text lastEnd) false])
        with (String.append (Js.sliceFrom text lastEnd) EmptyString).
      rewrite JsFacts.append_empty_r. unfold Js.sliceFrom.
      rewrite JsFacts.slice_append by lia.
      apply JsFacts.slice_whole.
    + rewrite Hsegs. replace lastEnd with (Js.len text) by lia.
      apply JsFacts.slice_whole.
Qed.

(** C7, as amended.  For every text and every list of ranges that are in
    order, do not overlap and lie inside the text, the texts of the segments
    that [highlightMatches] returns, joined in order, are the text. *)
Theorem highlight_coverage_ordered (text : string) (indices : list Range) :
  orderedRanges 0 indices (Js.len text) = true ->
  segmentsText (highlightMatches text indices) = text.
Proof. exact (highlightMatches_covers text indices). Qed.

Lemma highlight_coverage_ordered_witness :
  segmentsText (highlightMatches "Fix the fix" [(0, 3); (8, 11)])
  = "Fix the fix".
Proof.
  apply (highlight_coverage_ordered "Fix the fix" [(0, 3); (8, 11)]).
  reflexivity.
Defined.

(** C7 as stated fails: with overlapping ranges the second range is cut out
    of the text again, and the text after it is repeated. *)
Lemma highlight_coverage_counterexample :
  segmentsText (highlightMatches "abcd" [(0, 3); (1, 2)]) <> "abcd".
Proof. vm_compute. discriminate. Qed.

(** ** The ranges that the search hands to the highlighting *)

Lemma mergeIndices_loop_ordered (size : Z) (sorted : list Range) :
  forall (last : Range) (lastEnd : Z),
    lastEnd <= fst last -> inside size last ->
    Forall (inside size) sorted ->
    StronglySorted (fun a b => fst a <= fst b) (last :: sorted) ->
    orderedRanges lastEnd (mergeIndices_loop last sorted) size = true.
Proof.
  induction sorted as [|current rest IH];
    intros [s e] lastEnd Hle [H0 [Hse Hsize]] Hall Hsorted; simpl in *.
  - rewrite !andb_true_iff, !Z.leb_le. lia.
  - inversion Hall as [|? ? [Hc0 [Hcse Hcsize]] Hrest]; subst.
    inversion Hsorted as [|? ? Htail Hhead]; subst.
    inversion Hhead as [|? ? Hsc Hsrest]; subst. simpl in Hsc.
    inversion Htail as [|? ? Htail' Hcrest]; subst.
    destruct (Z.leb_spec (fst current) e) as [Hov|Hgap].
    + apply IH; simpl; try assumption.
      * unfold inside; simpl. lia.
      * constructor; assumption.
    + simpl. rewrite !andb_true_iff, !Z.leb_le.
      repeat split; try lia.
      apply IH; try assumption; [lia | now split].
Qed.

(** [mergeIndices] turns ranges taken inside a text into ranges that are in
    order, do not overlap and lie inside the text. *)
Lemma mergeIndices_ordered (size : Z) (indices : list Range) :
  0 <= size -> Forall (inside size) indices ->
  orderedRanges 0 (mergeIndices indices) size = true.
Proof.
  intros Hsize Hall. unfold mergeIndices.
  pose proof (JsFacts.sort_Forall (Js.ascending fst) _ _ Hall) as Hsorted.
  pose proof (JsFacts.sort_ascending_sorted fst indices) as Hord.
  destruct (Js.sort (Js.ascending fst) indices) as [|first rest];
    [now apply Z.leb_le|].
  inversion Hsorted as [|? ? Hfirst Hrest]; subst.
  apply mergeIndices_loop_ordered; try assumption. apply Hfirst.
Qed.

End HighlightFacts.

(* ================================================================== *)
(** * The mutations of the board store (useDatabase.ts)                *)
(* ================================================================== *)

Module FrameFacts.
Import Types Database.

Lemma mapM_Normal {A B} (f : A -> Js.Exc B) (l : list A) (l' : list B) :
  Js.mapM f l = Js.Normal l' -> Forall2 (fun x y => f x = Js.Normal y) l l'.
Proof.
  revert l'; induction l as [|x l IH]; simpl; intros l' H.
  - injection H as <-. constructor.
  - destruct (f x) as [y|e] eqn:Ex; simpl in H; [|discriminate].
    destruct (Js.mapM f l) as [ys|e] eqn:El; simpl in H; [|discriminate].
    injection H as <-. constructor; [exact Ex | now apply IH].
Qed.

Lemma mapM_total {A B} (f : A -> Js.Exc B) (l : list A) :
  Forall (fun x => exists y, f x = Js.Normal y) l ->
  exists l', Js.mapM f l = Js.Normal l'.
Proof.
  induction 1 as [|x l [y Hy] _ [l' Hl']]; simpl.
  - now exists [].
  - rewrite Hy, Hl'; simpl. now exists (y :: l').
Qed.

Lemma updateTask_map_other now taskId updates task :
  Task.id task <> taskId -> updateTask_map now taskId updates task = task.
Proof.
  intros Hne; unfold updateTask_map.
  destruct (String.eqb_spec (Task.id task) taskId); [contradiction | reflexivity].
Qed.

(** C9.  [updateTask] leaves the columns, the tags and every task with
    another id as they are; [setColumnTasksPriority] leaves every task of
    another column as it is; [deleteTag], when it returns, keeps exactly the
    tags with another id, unchanged and in order, and gives back each task
    with no field changed but [tags]. *)
Theorem keyed_mutations_frame (state : BoardState.t) :
  (forall now taskId updates,
      let state' := updateTask state now taskId updates in
      BoardState.columns state' = BoardState.columns state
      /\ BoardState.tags state' = BoardState.tags state
      /\ List.length (BoardState.tasks state')
         = List.length (BoardState.tasks state)
      /\ forall i task,
           nth_error (BoardState.tasks state) i = Some task ->
           Task.id task <> taskId ->
           nth_error (BoardState.tasks state') i = Some task)
  /\ (forall columnId priority,
         let state' := setColumnTasksPriority state columnId priority in
         List.length (BoardState.tasks state')
         = List.length (BoardState.tasks state)
         /\ forall i task,
              nth_error (BoardState.tasks state) i = Some task ->
              Task.columnId task <> columnId ->
              nth_error (BoardState.tasks state') i = Some task)
  /\ (forall tagId,
         match deleteTag state tagId with
         | Js.Normal state' =>
             BoardState.columns state' = BoardState.columns state
             /\ (exists tags,
                    BoardState.tags state = Some tags
                    /\ BoardState.tags state'
                       = Some (filter
                                 (fun tag => negb (String.eqb (Tag.id tag) tagId))
                                 tags))
             /\ Forall2
                  (fun task task' =>
                     task' = Task.set_tags task (Task.tags task'))
                  (BoardState.tasks state) (BoardState.tasks state')
         | Js.Throw _ => True
         end).
Proof.
  split; [|split].
  - intros now taskId updates; simpl.
    repeat split.
    + unfold Js.mapi; apply JsFacts.mapi_from_length.
    + intros i task Hi Hne.
      rewrite JsFacts.mapi_nth_error, Hi; simpl.
      now rewrite updateTask_map_other.
  - intros columnId priority; simpl. split.
    + apply length_map.
    + intros i task Hi Hne.
      rewrite nth_error_map, Hi; simpl.
      destruct (String.eqb_spec (Task.columnId task) columnId);
        [contradiction | reflexivity].
  - intros tagId. unfold deleteTag.
    destruct (BoardState.tags state) as [tags|]; simpl; [|exact I].
    match goal with |- context [Js.mapM ?f ?l] =>
      destruct (Js.mapM f l) as [updatedTasks|e] eqn:Em end; simpl; [|exact I].
    split; [reflexivity|]. split; [now exists tags|].
    apply mapM_Normal in Em.
    eapply Forall2_impl; [|exact Em]. simpl.
    intros task task' H.
    destruct (Task.tags task) as [ids|]; simpl in H; [|discriminate].
    now injection H as <-.
Qed.

(** [deleteTag] returns on every board whose tags and task tags are there,
    as they are after [migrateState]. *)
Lemma deleteTag_migrated_returns (state : BoardState.t) (tagId : string) :
  exists state', deleteTag (migrateState state) tagId = Js.Normal state'.
Proof.
  unfold deleteTag, migrateState; simpl.
  match goal with |- context [Js.mapM ?f ?l] =>
    destruct (mapM_total f l) as [l' Hl'] end.
  - apply Forall_forall. intros task Hin.
    apply in_map_iff in Hin as [t [<- _]]. simpl. eauto.
  - rewrite Hl'. simpl. eauto.
Qed.

End FrameFacts.

Module MoveFacts.
Import Types Database Spec.

(** A list whose keys already ascend is left as it is by the sort. *)
Lemma sort_ascending_id {A} (key : A -> Z) (l : list A) :
  StronglySorted (fun a b => key a <= key b) l ->
  Js.sort (Js.ascending key) l = l.
Proof.
  induction 1 as [|x l Hs IH Hx]; simpl; [reflexivity|].
  rewrite IH. destruct l as [|y l]; simpl; [reflexivity|].
  inversion Hx as [|? ? Hxy _]; subst. unfold Js.ascending.
  destruct (Z.leb_spec (key x - key y) 0); [reflexivity | lia].
Qed.

Lemma countFrom_sorted (n : nat) :
  forall k, StronglySorted Z.le (countFrom k n)
            /\ Forall (fun x => k <= x) (countFrom k n).
Proof.
  induction n as [|n IH]; intros k; simpl; [split; constructor|].
  destruct (IH (k + 1)) as [Hs Hf]. split.
  - constructor; [exact Hs|].
    eapply Forall_impl; [|exact Hf]; simpl; intros; lia.
  - constructor; [lia|].
    eapply Forall_impl; [|exact Hf]; simpl; intros; lia.
Qed.

Lemma StronglySorted_map_key {A} (key : A -> Z) (l : list A) :
  StronglySorted Z.le (map key l) ->
  StronglySorted (fun a b => key a <= key b) l.
Proof.
  induction l as [|x l IH]; simpl; intros H; [constructor|].
  inversion H as [|? ? Hs Hf]; subst. constructor; [now apply IH|].
  now rewrite Forall_map in Hf.
Qed.

(** The renumbering of [forEach]: the orders become the positions. *)
Lemma renumber_orders (l : list Task.t) :
  forall k,
    map Task.order (Js.mapi_from (fun index t => Task.set_order t index) k l)
    = countFrom k (List.length l).
Proof.
  induction l as [|t l IH]; intros k; simpl; [reflexivity|].
  now rewrite IH.
Qed.

Lemma renumber_columnId (columnId : string) (l : list Task.t) :
  forall k,
    Forall (fun t => String.eqb (Task.columnId t) columnId = true) l ->
    Forall (fun t => String.eqb (Task.columnId t) columnId = true)
      (Js.mapi_from (fun index t => Task.set_order t index) k l).
Proof.
  induction l as [|t l IH]; intros k H; simpl; [constructor|].
  inversion H; subst. constructor; [assumption | now apply IH].
Qed.

Lemma splice_insert_Forall {A} (P : A -> Prop) (l : list A) (k : Z) (x : A) :
  Forall P l -> P x -> Forall P (Js.splice_insert l k x).
Proof.
  intros Hl Hx. unfold Js.splice_insert.
  set (n := Z.to_nat (Js.clampIndex (Z.of_nat (List.length l)) k)).
  rewrite <- (firstn_skipn n l) in Hl. apply Forall_app in Hl as [H1 H2].
  apply Forall_app; split; [exact H1 | now constructor].
Qed.

Lemma splice_insert_length {A} (l : list A) (k : Z) (x : A) :
  List.length (Js.splice_insert l k x) = S (List.length l).
Proof.
  unfold Js.splice_insert.
  set (n := Z.to_nat (Js.clampIndex (Z.of_nat (List.length l)) k)).
  rewrite <- (firstn_skipn n l) at 3.
  rewrite !length_app; simpl. lia.
Qed.

(** The tasks of the target column after a move that found its task: the
    renumbered list, in the order of the board. *)
Lemma moveTask_target_tasks state taskId newColumnId newOrder task :
  find (fun t => String.eqb (Task.id t) taskId) (BoardState.tasks state)
  = Some task ->
  exists target,
    filter (fun t => String.eqb (Task.columnId t) newColumnId)
      (BoardState.tasks (moveTask state taskId newColumnId newOrder))
    = Js.mapi (fun index t => Task.set_order t index) target
    /\ List.length target
       = S (List.length
              (filter (fun t => String.eqb (Task.columnId t) newColumnId)
                 (filter (fun t => negb (String.eqb (Task.id t) taskId))
                    (BoardState.tasks state)))).
Proof.
  intros Hfind. unfold moveTask. rewrite Hfind. simpl.
  set (rest := filter (fun t => negb (String.eqb (Task.id t) taskId))
                 (BoardState.tasks state)).
  set (inColumn := filter (fun t => String.eqb (Task.columnId t) newColumnId)
                     rest).
  set (target := Js.splice_insert (Js.sort (Js.ascending Task.order) inColumn)
                   newOrder (Task.set_columnId task newColumnId)).
  exists target. split.
  - rewrite filter_app, JsFacts.filter_none, JsFacts.filter_all;
      [reflexivity | |].
    + apply renumber_columnId. subst target.
      apply splice_insert_Forall.
      * apply JsFacts.sort_Forall. subst inColumn.
        apply Forall_forall. intros t Ht. now apply filter_In in Ht.
      * simpl. apply String.eqb_refl.
    + apply Forall_forall. intros t Ht. apply filter_In in Ht as [_ Ht].
      now apply negb_true_iff in Ht.
  - subst target. now rewrite splice_insert_length, JsFacts.sort_length.
Qed.

(** C4, as amended.  After every [moveTask] whose task id is the id of a
    task of the board, the tasks of the target column, sorted by [order],
    have the orders 0..n-1, each one its position in the sorted list. *)
Theorem moveTask_order_contiguity (state : BoardState.t)
  (taskId newColumnId : string) (newOrder : Z) :
  hasTask state taskId = true ->
  contiguousOrders (moveTask state taskId newColumnId newOrder) newColumnId.
Proof.
  intros Hhas. apply JsFacts.find_existsb in Hhas as [task Hfind].
  destruct (moveTask_target_tasks state taskId newColumnId newOrder task Hfind)
    as [target [Htarget _]].
  unfold contiguousOrders, columnTasksByOrder. rewrite Htarget.
  assert (Horders :
    map Task.order (Js.mapi (fun index t => Task.set_order t index) target)
    = countFrom 0 (List.length target)) by apply renumber_orders.
  rewrite sort_ascending_id.
  - rewrite Horders. unfold Js.mapi. now rewrite JsFacts.mapi_from_length.
  - apply StronglySorted_map_key. rewrite Horders. apply countFrom_sorted.
Qed.

Lemma moveTask_order_contiguity_witness :
  contiguousOrders
    (moveTask
       (BoardState.mk []
          [ Task.mk "a" "A" None medium (Some not_started) [] (Some [])
              (Some []) (Some []) "col-1" 4 0 None;
            Task.mk "b" "B" None medium (Some not_started) [] (Some [])
              (Some []) (Some []) "col-2" 7 0 None;
            Task.mk "c" "C" None medium (Some not_started) [] (Some [])
              (Some []) (Some []) "col-2" 2 0 None ]
          (Some []))
       "a" "col-2" 1)
    "col-2".
Proof.
  apply moveTask_order_contiguity. reflexivity.
Defined.

(** C4 as stated fails: a call that names no task of the board returns
    early, and the target column keeps the gap that a deletion left. *)
Lemma moveTask_order_contiguity_counterexample :
  let state :=
    BoardState.mk []
      [ Task.mk "b" "B" None medium (Some not_started) [] (Some [])
          (Some []) (Some []) "col-1" 1 0 None ]
      (Some []) in
  ~ contiguousOrders (moveTask state "a" "col-1" 0) "col-1".
Proof. vm_compute. discriminate. Qed.

End MoveFacts.

Module CompletionFacts.
Import Types Database Spec Examples.

Lemma call_nth_error (c : StatusCall) (state : BoardState.t) (i : nat) :
  nth_error (BoardState.tasks (call c state)) i
  = option_map
      (match c with
       | UpdateTask now taskId updates =>
           updateTask_map (now (Z.of_nat i)) taskId updates
       | SetColumnTasksStatus now columnId status =>
           setColumnTasksStatus_map (now (Z.of_nat i)) columnId status
       end)
      (nth_error (BoardState.tasks state) i).
Proof. destruct c; simpl; apply JsFacts.mapi_nth_error. Qed.

(** One call, one task: consistency is kept, and the completion time of a
    task that is done afterwards is the clock of this call if the call made
    it done, and the time it had otherwise. *)
Lemma updateTask_map_completion now taskId updates task :
  PartialTask.completedAt updates = None ->
  notUndefined (PartialTask.status updates) = true ->
  completionConsistent task = true ->
  let task' := updateTask_map now taskId updates task in
  completionConsistent task' = true
  /\ (isDone task' = true ->
      Task.completedAt task'
      = if isDone task then Task.completedAt task else Some now).
Proof.
  intros Hu Hs Hc. unfold updateTask_map.
  destruct (String.eqb (Task.id task) taskId); [|split; [exact Hc|]].
  - revert Hc. unfold completionConsistent, isDone, spread.
    rewrite Hu. destruct task as [? ? ? ? st ? ? ? ? ? ? ? ca]; simpl.
    destruct (PartialTask.status updates) as [[[]|]|];
      try discriminate Hs; destruct st as [[]|];
      destruct ca; simpl; intros Hc; split; try reflexivity; try exact Hc;
      intros; try discriminate; reflexivity.
  - intros Hd; now rewrite Hd.
Qed.

Lemma setColumnTasksStatus_map_completion now columnId status task :
  completionConsistent task = true ->
  let task' := setColumnTasksStatus_map now columnId status task in
  completionConsistent task' = true
  /\ (isDone task' = true ->
      Task.completedAt task'
      = if isDone task then Task.completedAt task else Some now).
Proof.
  intros Hc. unfold setColumnTasksStatus_map.
  destruct (String.eqb (Task.columnId task) columnId); [|split; [exact Hc|]].
  - revert Hc. unfold completionConsistent, isDone.
    destruct task as [? ? ? ? st ? ? ? ? ? ? ? ca]; simpl.
    destruct status; destruct st as [[]|]; destruct ca; simpl; intros Hc;
      split; try reflexivity; try exact Hc; intros; try discriminate;
      reflexivity.
  - intros Hd; now rewrite Hd.
Qed.

Lemma call_completion (c : StatusCall) (state : BoardState.t) (i : nat)
  (task : Task.t) :
  leavesCompletedAt c = true ->
  givesStatus c = true ->
  nth_error (BoardState.tasks state) i = Some task ->
  completionConsistent task = true ->
  exists task',
    nth_error (BoardState.tasks (call c state)) i = Some task'
    /\ completionConsistent task' = true
    /\ (isDone task' = true ->
        Task.completedAt task'
        = if isDone task then Task.completedAt task else Some (clockAt c i)).
Proof.
  intros Hleave Hgives Hi Hc. rewrite call_nth_error, Hi. simpl.
  eexists; split; [reflexivity|].
  destruct c as [now taskId updates | now columnId status]; simpl.
  - apply updateTask_map_completion; [|exact Hgives|exact Hc].
    simpl in Hleave. now destruct (PartialTask.completedAt updates).
  - now apply setColumnTasksStatus_map_completion.
Qed.

Lemma run_cons c calls state : run (c :: calls) state = run calls (call c state).
Proof. reflexivity. Qed.

Lemma run_length calls : forall state,
  List.length (BoardState.tasks (run calls state))
  = List.length (BoardState.tasks state).
Proof.
  induction calls as [|c calls IH]; intros state; [reflexivity|].
  rewrite run_cons, IH. destruct c; simpl; apply JsFacts.mapi_from_length.
Qed.

(** The invariant along a sequence of calls, task by task. *)
Lemma run_completion (calls : list StatusCall) :
  forall (state : BoardState.t) (i : nat) (task : Task.t),
    forallb leavesCompletedAt calls = true ->
    forallb givesStatus calls = true ->
    nth_error (BoardState.tasks state) i = Some task ->
    completionConsistent task = true ->
    exists final,
      nth_error (BoardState.tasks (run calls state)) i = Some final
      /\ completionConsistent final = true
      /\ (isDone final = true ->
          Task.completedAt final
          = match lastTransitionIntoDone calls state i with
            | Some time => Some time
            | None => Task.completedAt task
            end
          /\ (isDone task = false ->
              lastTransitionIntoDone calls state i <> None)).
Proof.
  induction calls as [|c calls IH]; intros state i task Hleave Hgives Hi Hc.
  - exists task. simpl. split; [exact Hi|]. split; [exact Hc|].
    intros Hd. split; [reflexivity | congruence].
  - simpl in Hleave. apply andb_prop in Hleave as [Hc1 Hrest].
    simpl in Hgives. apply andb_prop in Hgives as [Hg1 Hgrest].
    destruct (call_completion c state i task Hc1 Hg1 Hi Hc)
      as [task' [Hi' [Hc' Hstep]]].
    destruct (IH (call c state) i task' Hrest Hgrest Hi' Hc')
      as [final [Hf [Hcf Hlast]]].
    exists final. rewrite run_cons. split; [exact Hf|]. split; [exact Hcf|].
    intros Hdone. specialize (Hlast Hdone) as [Htime Hentered].
    simpl. unfold isDoneAt. rewrite Hi, Hi'.
    destruct (lastTransitionIntoDone calls (call c state) i) as [time|].
    + split; [exact Htime | discriminate].
    + destruct (isDone task') eqn:Hd'; [|now exfalso; apply Hentered].
      rewrite Htime, (Hstep eq_refl).
      destruct (isDone task); simpl; (split; [reflexivity|]);
        intros; discriminate.
Qed.

(** C3, as amended.  From a board on which every task has [completedAt] set
    if and only if its status is "done", after every sequence of
    [updateTask] and [setColumnTasksStatus] calls whose updates carry no
    [completedAt] key and no key with the value undefined (what is used of
    the latter is that [status] is not carried so), every task has
    [completedAt] set if and only if its status is "done";
    and for a task that is done, [completedAt] is the clock of the most
    recent call that turned it from not done to done, or, when no call did,
    the value it started with. *)
Theorem completedAt_status_invariant (state : BoardState.t)
  (calls : list StatusCall) :
  boardConsistent state = true ->
  forallb leavesCompletedAt calls = true ->
  forallb givesStatus calls = true ->
  boardConsistent (run calls state) = true
  /\ forall i task final,
       nth_error (BoardState.tasks state) i = Some task ->
       nth_error (BoardState.tasks (run calls state)) i = Some final ->
       isDone final = true ->
       Task.completedAt final
       = match lastTransitionIntoDone calls state i with
         | Some time => Some time
         | None => Task.completedAt task
         end.
Proof.
  intros Hboard Hleave Hgives. unfold boardConsistent in *.
  rewrite forallb_forall in Hboard. split.
  - apply forallb_forall. intros final Hin.
    apply In_nth_error in Hin as [i Hi].
    assert (Hlt : (i < List.length (BoardState.tasks state))%nat).
    { rewrite <- (run_length calls). apply nth_error_Some. congruence. }
    destruct (nth_error (BoardState.tasks state) i) as [task|] eqn:Ht;
      [|apply nth_error_Some in Hlt; contradiction].
    destruct (run_completion calls state i task Hleave Hgives Ht)
      as [final' [Hf [Hcf _]]].
    + apply Hboard. eapply nth_error_In; eassumption.
    + congruence.
  - intros i task final Ht Hf Hdone.
    destruct (run_completion calls state i task Hleave Hgives Ht)
      as [final' [Hf' [_ Hlast]]].
    + apply Hboard. eapply nth_error_In; eassumption.
    + assert (final' = final) by congruence. subst final'.
      now apply Hlast.
Qed.

Lemma completedAt_status_invariant_witness :
  let state := BoardState.mk [] [sampleTask not_started None] (Some []) in
  let calls :=
    [ UpdateTask (fun _ => 200) "task-1" (setStatus done);
      SetColumnTasksStatus (fun _ => 300) "col-1" paused;
      SetColumnTasksStatus (fun _ => 400) "col-1" done;
      UpdateTask (fun _ => 500) "task-1" (setStatus done) ] in
  boardConsistent (run calls state) = true
  /\ map Task.completedAt (BoardState.tasks (run calls state)) = [Some 400].
Proof.
  intros state calls.
  destruct (completedAt_status_invariant state calls eq_refl eq_refl
              eq_refl)
    as [Hboard Htime].
  split; [exact Hboard|].
  specialize (Htime 0%nat (sampleTask not_started None)
                (sampleTask done (Some 400)) eq_refl eq_refl eq_refl).
  reflexivity.
Defined.

(** C3 as stated fails: the updates of [updateTask] may carry [completedAt]
    itself, which the merge copies onto a task that is not done. *)
Lemma completedAt_status_invariant_counterexample :
  let state := BoardState.mk [] [sampleTask not_started None] (Some []) in
  let calls := [UpdateTask (fun _ => 200) "task-1" (setCompletedAt (Some 5))] in
  boardConsistent state = true
  /\ boardConsistent (run calls state) = false.
Proof. split; reflexivity. Qed.

(** So does a [status] carried with the value undefined: the merge takes
    the status of a done task away, and neither test touches
    [completedAt]. *)
Lemma status_undefined_keeps_completedAt :
  let state := BoardState.mk [] [sampleTask done (Some 100)] (Some []) in
  let calls := [UpdateTask (fun _ => 200) "task-1" statusUndefined] in
  boardConsistent state = true
  /\ forallb leavesCompletedAt calls = true
  /\ map Task.status (BoardState.tasks (run calls state)) = [None]
  /\ map Task.completedAt (BoardState.tasks (run calls state)) = [Some 100]
  /\ boardConsistent (run calls state) = false.
Proof. repeat split; reflexivity. Qed.

End CompletionFacts.

Module IdFacts.
Import Types Database Spec.

Lemma toString_inj (a b : Z) : Js.toString a = Js.toString b -> a = b.
Proof.
  unfold Js.toString. intros H.
  assert (Hnil : forall z, Z.to_int z <> Decimal.Pos Decimal.Nil
                           /\ Z.to_int z <> Decimal.Neg Decimal.Nil).
  { intros z. split; intros Hz;
      pose proof (DecimalZ.of_to z) as Hof; rewrite Hz in Hof;
      simpl in Hof; subst z; discriminate. }
  apply DecimalZ.to_int_inj.
  assert (Some (Z.to_int a) = Some (Z.to_int b)) as [= ->]; [|reflexivity].
  rewrite <- (DecimalString.NilZero.isi (Z.to_int a)) by apply Hnil.
  rewrite <- (DecimalString.NilZero.isi (Z.to_int b)) by apply Hnil.
  now rewrite H.
Qed.

Lemma generatedId_inj (c1 c2 : Creation) :
  generatedId c1 = generatedId c2 -> stamp c1 = stamp c2.
Proof.
  unfold generatedId.
  destruct (stamp c1) as [[] n1], (stamp c2) as [[] n2]; simpl; intros H;
    try discriminate; injection H as H; apply toString_inj in H;
    now subst.
Qed.

Lemma last_app_single {A} (l : list A) (x d : A) : last (l ++ [x]) d = x.
Proof.
  induction l as [|y l IH]; simpl; [reflexivity|].
  destruct (l ++ [x]) eqn:E; [now destruct l | exact IH].
Qed.

Lemma create_id (c : Creation) (state state' : BoardState.t) (id : string) :
  create c state = Js.Normal (state', id) -> id = generatedId c.
Proof.
  destruct c as [now title | nowId nowCreatedAt columnId title | now name color];
    simpl; unfold generatedId; simpl.
  - intros [= _ <-]. rewrite map_app. apply last_app_single.
  - now intros [= _ <-].
  - unfold addTag. destruct (BoardState.tags state); simpl; [|discriminate].
    now intros [= _ <-].
Qed.

Lemma createAll_ids (cs : list Creation) :
  forall state final ids,
    createAll cs state = Js.Normal (final, ids) ->
    ids = map generatedId cs.
Proof.
  induction cs as [|c cs IH]; simpl; intros state final ids H.
  - now injection H as _ <-.
  - destruct (create c state) as [[state' id]|e] eqn:Ec; simpl in H;
      [|discriminate].
    destruct (createAll cs state') as [[final' ids']|e] eqn:Er; simpl in H;
      [|discriminate].
    injection H as _ <-.
    f_equal; [eapply create_id; eassumption | eapply IH; eassumption].
Qed.

Lemma NoDup_map_of_inj {A B C} (f : A -> B) (g : A -> C) (l : list A) :
  (forall x y, f x = f y -> g x = g y) -> NoDup (map g l) -> NoDup (map f l).
Proof.
  intros Hinj. induction l as [|x l IH]; simpl; intros H; [constructor|].
  inversion H as [|? ? Hnin Hnd]; subst. constructor; [|now apply IH].
  intros Hin. apply Hnin.
  apply in_map_iff in Hin as [y [Hy Hin]].
  apply in_map_iff. exists y. split; [|exact Hin].
  symmetry. now apply Hinj.
Qed.

(** Every created entity is appended to its list under the id made for it. *)
Lemma create_appends (c : Creation) (state state' : BoardState.t)
  (id : string) :
  create c state = Js.Normal (state', id) ->
  match c with
  | AddColumn _ _ =>
      exists new, BoardState.columns state' = BoardState.columns state ++ [new]
                  /\ Column.id new = id
  | AddTask _ _ _ _ =>
      exists new, BoardState.tasks state' = BoardState.tasks state ++ [new]
                  /\ Task.id new = id
  | AddTag _ _ _ =>
      exists tags new, BoardState.tags state = Some tags
                       /\ BoardState.tags state' = Some (tags ++ [new])
                       /\ Tag.id new = id
  end.
Proof.
  destruct c as [now title | nowId nowCreatedAt columnId title | now name color];
    simpl.
  - intros [= <- <-]. eexists; split; [reflexivity|].
    simpl. rewrite map_app. symmetry. apply last_app_single.
  - intros [= <- <-]. eexists; split; reflexivity.
  - unfold addTag. destruct (BoardState.tags state) as [tags|]; simpl;
      [|discriminate].
    intros [= <- <-]. exists tags. eexists. repeat split.
Qed.

(** C8, as amended.  In every sequence of [addColumn], [addTask] and
    [addTag] calls in which no two creations of the same kind read the same
    value from the clock, every created entity gets the id made from its
    kind and its clock reading, and the ids made are pairwise distinct. *)
Theorem created_ids_distinct (cs : list Creation)
  (state final : BoardState.t) (ids : list string) :
  createAll cs state = Js.Normal (final, ids) ->
  NoDup (map stamp cs) ->
  ids = map generatedId cs /\ NoDup ids.
Proof.
  intros Hrun Hstamps.
  pose proof (createAll_ids cs state final ids Hrun) as ->.
  split; [reflexivity|].
  eapply NoDup_map_of_inj; [|exact Hstamps].
  apply generatedId_inj.
Qed.

Lemma created_ids_distinct_witness :
  let cs := [ AddTask 1700000000000 1700000000000 "col-1" "Fix bug";
              AddTask 1700000000001 1700000000001 "col-1" "Fix the button bug";
              AddTag 1700000000001 "Later" "#ef4444";
              AddColumn 1700000000001 "Review" ] in
  NoDup ["task-1700000000000"; "task-1700000000001";
         "tag-1700000000001"; "col-1700000000001"].
Proof.
  intros cs.
  destruct (createAll cs defaultState) as [[final ids]|e] eqn:E;
    [|discriminate E].
  refine (proj2 (eq_ind _ (fun l => l = map generatedId cs /\ NoDup l)
                   (created_ids_distinct cs defaultState final ids E _) _ _)).
  - repeat constructor; simpl; intuition discriminate.
  - vm_compute in E. now injection E as _ <-.
Defined.

(** C8 as stated fails: two tasks added while the clock shows the same
    millisecond get the same id. *)
Lemma created_ids_distinct_counterexample :
  exists final id,
    createAll [ AddTask 1700000000000 1700000000000 "col-1" "Fix bug";
                AddTask 1700000000000 1700000000000 "col-1" "Fix it again" ]
      defaultState
    = Js.Normal (final, [id; id]).
Proof. vm_compute. eauto. Qed.

End IdFacts.

(* ================================================================== *)
(** * Ranked search (fuzzySearch.ts)                                   *)
(* ================================================================== *)

Module SearchFacts.
Import Types FuzzySearch Spec Examples.

Lemma flat_map_nil {A B} (f : A -> list B) (l : list A) :
  (forall x, In x l -> f x = []) -> flat_map f l = [].
Proof.
  induction l as [|x l IH]; simpl; intros H; [reflexivity|].
  rewrite (H x) by now left. apply IH. intros y Hy. apply H. now right.
Qed.

(** ** Queries without tokens *)

Lemma searchTask_no_tokens (t : Task.t) (query : string) (tags : list Tag.t) :
  tokenize query = [] -> searchTask t query tags = [].
Proof. intros H. unfold searchTask. now rewrite H. Qed.

(** C10.  For every board and every query whose tokenization yields no
    token, [fuzzySearchTasks] returns the empty list, whatever the fields of
    the tasks contain. *)
Theorem token_empty_query_matches_nothing
  (columns : list ColumnWithTasks) (query : string) (tags : list Tag.t) :
  tokenize query = [] ->
  fuzzySearchTasks columns query tags = [].
Proof.
  intros Htok. unfold fuzzySearchTasks.
  destruct (String.eqb query EmptyString || (Js.len (Js.trim query) =? 0));
    [reflexivity|].
  unfold collectResults. rewrite flat_map_nil; [reflexivity|].
  intros col _. apply flat_map_nil. intros t _.
  unfold taskResult. now rewrite searchTask_no_tokens.
Qed.

Lemma blank_char_is_space (c : ascii) :
  Js.isWordChar c = false ->
  Js.isWhiteSpace (blankNonWord (Js.lowerChar c)) = true.
Proof.
  destruct c as [[] [] [] [] [] [] [] []]; vm_compute; congruence.
Qed.

Lemma splitWhiteSpace_blank (s : string) :
  allWhiteSpace s = true -> filter Js.nonEmpty (Js.splitWhiteSpace s) = [].
Proof.
  induction s as [|c r IH]; simpl; intros Hall; [reflexivity|].
  apply andb_prop in Hall as [Hc Hr]. rewrite Hc.
  destruct (Js.startsWithWhiteSpace r); simpl; now apply IH.
Qed.

Lemma blanked_allWhiteSpace (query : string) :
  noWordChar query = true ->
  allWhiteSpace (Js.map_string blankNonWord (Js.toLowerCase query)) = true.
Proof.
  unfold Js.toLowerCase.
  induction query as [|c r IH]; simpl; intros H; [reflexivity|].
  apply andb_prop in H as [Hc Hr]. apply negb_true_iff in Hc.
  now rewrite blank_char_is_space, IH.
Qed.

(** A query without word character has no token: its characters are all
    turned into white space. *)
Lemma tokenize_noWordChar (query : string) :
  noWordChar query = true -> tokenize query = [].
Proof.
  intros H. unfold tokenize.
  now apply splitWhiteSpace_blank, blanked_allWhiteSpace.
Qed.

Lemma token_empty_query_matches_nothing_witness :
  Js.includes (Task.title punctuationTask) "!!!" = true
  /\ Js.trim "!!!" = "!!!"
  /\ fuzzySearchTasks
       [mkColumn (Column.mk "col-1" "To Do" 0) [punctuationTask]] "!!!" []
     = [].
Proof.
  split; [reflexivity|]. split; [reflexivity|].
  apply token_empty_query_matches_nothing.
  apply tokenize_noWordChar. reflexivity.
Defined.

(** ** Ranking *)

Lemma pushMatch_notTitle name fieldValue weight queryTokens query :
  String.eqb name "title" = false ->
  Forall notTitle (pushMatch name fieldValue weight queryTokens query).
Proof.
  intros Hname. unfold pushMatch.
  destruct (f_score (fuzzyMatchField fieldValue queryTokens query) >? 0);
    repeat constructor. exact Hname.
Qed.

Lemma flat_map_notTitle {A} (f : A -> list SearchMatch) (l : list A) :
  (forall x, Forall notTitle (f x)) -> Forall notTitle (flat_map f l).
Proof.
  intros H. apply Forall_flat_map, Forall_forall. intros x _. apply H.
Qed.

Create HintDb search.
#[local] Hint Resolve pushMatch_notTitle : search.

(** When the query has tokens, [searchTask] is the match of the title
    followed by matches of other fields. *)
Lemma searchTask_title_first (t : Task.t) (query : string)
  (tags : list Tag.t) :
  tokenize query <> [] ->
  exists others,
    searchTask t query tags
    = pushMatch "title" (Task.title t) FIELD_WEIGHTS.title (tokenize query)
        query ++ others
    /\ Forall notTitle others.
Proof.
  intros Htok. unfold searchTask.
  destruct (tokenize query) as [|tok toks] eqn:E; [contradiction|].
  eexists; split; [reflexivity|].
  repeat (apply Forall_app; split); auto with search.
  - apply flat_map_notTitle. intros tagId.
    destruct (find _ tags); [auto with search | constructor].
  - apply flat_map_notTitle. intros x. auto with search.
  - apply flat_map_notTitle. intros x. auto with search.
  - apply flat_map_notTitle. intros x. apply Forall_app; split.
    + auto with search.
    + destruct (Attachment.type x); [auto with search | constructor..].
Qed.

Lemma searchTask_only_title (t : Task.t) (query : string)
  (tags : list Tag.t) :
  tokenize query <> [] ->
  onlyTitleMatches t query tags = true ->
  searchTask t query tags
  = pushMatch "title" (Task.title t) FIELD_WEIGHTS.title (tokenize query)
      query.
Proof.
  intros Htok Honly.
  destruct (searchTask_title_first t query tags Htok) as [others [Heq Hnt]].
  unfold onlyTitleMatches in Honly. rewrite Heq in *.
  rewrite forallb_app in Honly. apply andb_prop in Honly as [_ Hothers].
  destruct others as [|m others]; [apply app_nil_r|].
  simpl in Hothers. apply andb_prop in Hothers as [Hm _].
  inversion Hnt as [|? ? Hm' _]; subst. unfold notTitle in Hm'. congruence.
Qed.

(** Every result of the two loops is the result of one task of one column. *)
Lemma collectResults_In (columns : list ColumnWithTasks) (query : string)
  (tags : list Tag.t) (r : TaskSearchResult) :
  In r (collectResults columns query tags) <->
  exists col t,
    In col columns /\ In t (tasks col)
    /\ searchTask t query tags <> []
    /\ r = mkResult (Task.id t) (Column.id (column col)) t
             (searchTask t query tags)
             (sumScores (searchTask t query tags)).
Proof.
  unfold collectResults. rewrite in_flat_map. split.
  - intros [col [Hcol Hin]]. apply in_flat_map in Hin as [t [Ht Hr]].
    exists col, t. unfold taskResult in Hr.
    destruct (searchTask t query tags) as [|m ms] eqn:E; [contradiction|].
    destruct Hr as [<-|[]]. repeat split; try assumption. discriminate.
  - intros [col [t [Hcol [Ht [Hne ->]]]]].
    exists col. split; [exact Hcol|]. apply in_flat_map.
    exists t. split; [exact Ht|]. unfold taskResult.
    destruct (searchTask t query tags); [contradiction | now left].
Qed.

Lemma StronglySorted_nth_error {A} (R : A -> A -> Prop) (l : list A) :
  StronglySorted R l ->
  forall i j a b,
    (i < j)%nat -> nth_error l i = Some a -> nth_error l j = Some b -> R a b.
Proof.
  induction 1 as [|x l Hs IH Hx]; intros i j a b Hij Hi Hj.
  - now destruct i.
  - destruct j as [|j]; [lia|]. simpl in Hj. destruct i as [|i].
    + injection Hi as <-. rewrite Forall_forall in Hx.
      apply Hx. eapply nth_error_In; eassumption.
    + simpl in Hi. apply (IH i j); [lia | assumption..].
Qed.

(** The scores of the two titles against the query "Fix bug". *)
Lemma exact_title_score :
  pushMatch "title" "Fix bug" FIELD_WEIGHTS.title (tokenize "Fix bug")
    "Fix bug"
  = [mkMatch "title" "Fix bug" 1000 [(0, 7)]].
Proof. reflexivity. Qed.

Lemma longer_title_score :
  pushMatch "title" "Fix the button bug" FIELD_WEIGHTS.title
    (tokenize "Fix bug") "Fix bug"
  = [mkMatch "title" "Fix the button bug" 600 [(0, 3); (15, 18)]].
Proof. vm_compute. reflexivity. Qed.

(** C5.  When the columns hold a task titled "Fix bug" and a task titled
    "Fix the button bug", neither of which matches the query "Fix bug" in
    any field but the title, [fuzzySearchTasks] returns both; the first has
    total score 1000 and the second 600, and the first stands before the
    second in the list. *)
Theorem exact_match_ranked_first (columns : list ColumnWithTasks)
  (tags : list Tag.t) (t1 t2 : Task.t) :
  Task.title t1 = "Fix bug" ->
  Task.title t2 = "Fix the button bug" ->
  onlyTitleMatches t1 "Fix bug" tags = true ->
  onlyTitleMatches t2 "Fix bug" tags = true ->
  inColumns t1 columns ->
  inColumns t2 columns ->
  let results := fuzzySearchTasks columns "Fix bug" tags in
  (exists r1 r2,
      In r1 results /\ task r1 = t1 /\ In r2 results /\ task r2 = t2)
  /\ (forall i j r1 r2,
         nth_error results i = Some r1 ->
         nth_error results j = Some r2 ->
         task r1 = t1 -> task r2 = t2 ->
         totalScore r1 = 1000 /\ totalScore r2 = 600 /\ (i < j)%nat).
Proof.
  intros Ht1 Ht2 Honly1 Honly2 Hin1 Hin2 results.
  assert (Htok : tokenize "Fix bug" <> []) by (vm_compute; discriminate).
  assert (Hs1 : searchTask t1 "Fix bug" tags
                = [mkMatch "title" "Fix bug" 1000 [(0, 7)]]).
  { rewrite searchTask_only_title, Ht1 by assumption.
    apply exact_title_score. }
  assert (Hs2 : searchTask t2 "Fix bug" tags
                = [mkMatch "title" "Fix the button bug" 600
                     [(0, 3); (15, 18)]]).
  { rewrite searchTask_only_title, Ht2 by assumption.
    apply longer_title_score. }
  assert (Hresults :
    results = Js.sort (Js.descending totalScore)
                (collectResults columns "Fix bug" tags)) by reflexivity.
  assert (Hscore : forall r t,
    In r results -> task r = t ->
    totalScore r = sumScores (searchTask t "Fix bug" tags)).
  { intros r t Hr Ht. rewrite Hresults in Hr.
    apply JsFacts.sort_In, collectResults_In in Hr
      as [col [t' [_ [_ [_ ->]]]]].
    simpl in Ht. now subst t'. }
  split.
  - destruct Hin1 as [col1 [Hc1 Hm1]], Hin2 as [col2 [Hc2 Hm2]].
    eexists. eexists. rewrite Hresults.
    split; [apply JsFacts.sort_In, collectResults_In;
            exists col1, t1; repeat split; try eassumption;
            rewrite Hs1; discriminate |].
    split; [reflexivity|].
    split; [apply JsFacts.sort_In, collectResults_In;
            exists col2, t2; repeat split; try eassumption;
            rewrite Hs2; discriminate |].
    reflexivity.
  - intros i j r1 r2 Hi Hj Hr1 Hr2.
    assert (H1 : totalScore r1 = 1000).
    { rewrite (Hscore r1 t1), Hs1;
        [reflexivity | eapply nth_error_In; eassumption | exact Hr1]. }
    assert (H2 : totalScore r2 = 600).
    { rewrite (Hscore r2 t2), Hs2;
        [reflexivity | eapply nth_error_In; eassumption | exact Hr2]. }
    split; [exact H1|]. split; [exact H2|].
    destruct (Nat.lt_trichotomy i j) as [Hlt|[Heq|Hgt]]; [exact Hlt | |].
    + subst j. rewrite Hi in Hj. injection Hj as ->. lia.
    + pose proof (JsFacts.sort_descending_sorted totalScore
                    (collectResults columns "Fix bug" tags)) as Hsorted.
      rewrite <- Hresults in Hsorted.
      pose proof (StronglySorted_nth_error _ _ Hsorted j i r2 r1 Hgt Hj Hi)
        as Hle.
      simpl in Hle. lia.
Qed.

Lemma exact_match_ranked_first_witness :
  map (fun r => (taskId r, totalScore r))
    (fuzzySearchTasks searchedColumns "Fix bug" Database.defaultTags)
  = [("task-1700000000000", 1000); ("task-1700000000001", 600)].
Proof.
  pose proof (exact_match_ranked_first searchedColumns Database.defaultTags
                fixBug fixTheButtonBug eq_refl eq_refl eq_refl eq_refl) as H.
  assert (H1 : inColumns fixBug searchedColumns).
  { eexists. split; [left; reflexivity | right; left; reflexivity]. }
  assert (H2 : inColumns fixTheButtonBug searchedColumns).
  { eexists. split; [left; reflexivity | left; reflexivity]. }
  specialize (H H1 H2). destruct H as [_ H].
  reflexivity.
Defined.

(** ** The ranges of a match lie in its value *)

Lemma prefix_length (q s : string) :
  String.prefix q s = true -> (String.length q <= String.length s)%nat.
Proof.
  revert s; induction q as [|a q IH]; intros [|b s]; simpl; intros H;
    try lia; try discriminate.
  destruct (ascii_dec a b); [|discriminate]. apply IH in H. lia.
Qed.

Lemma indexOf_go_bounds (q s : string) :
  forall pos k p,
    Js.indexOf_go q s pos k = Some p ->
    (p + String.length q <= k + String.length s)%nat
    /\ (q <> EmptyString -> k + pos <= p)%nat.
Proof.
  induction s as [|c r IH]; intros [|pos] k p; cbn [Js.indexOf_go].
  - destruct (String.prefix q "") eqn:E; [|discriminate].
    intros [= <-]. apply prefix_length in E. simpl in E. split; lia.
  - destruct q as [|a q]; simpl; [|discriminate].
    intros [= <-]. split; [lia | congruence].
  - destruct (String.prefix q (String c r)) eqn:E.
    + intros [= <-]. apply prefix_length in E. simpl String.length in *.
      split; lia.
    + intros H. apply IH in H as [H1 H2]. simpl String.length.
      split; [lia|]. intros Hq. specialize (H2 Hq). lia.
  - intros H. apply IH in H as [H1 H2]. simpl String.length.
    split; [lia|]. intros Hq. specialize (H2 Hq). lia.
Qed.

Lemma toLowerCase_length (s : string) :
  String.length (Js.toLowerCase s) = String.length s.
Proof.
  unfold Js.toLowerCase. induction s; simpl; congruence.
Qed.

Lemma findMatchIndices_loop_inside (lowerText lowerQuery : string) :
  forall fuel pos,
    Forall (inside (Js.len lowerText))
      (findMatchIndices_loop fuel lowerText lowerQuery pos).
Proof.
  induction fuel as [|fuel IH]; intros pos; simpl; [constructor|].
  destruct (Js.indexOf lowerText lowerQuery pos) as [p|] eqn:E;
    [|constructor].
  constructor; [|apply IH].
  apply indexOf_go_bounds in E as [E _].
  unfold inside, Js.len; simpl. lia.
Qed.

(** With a query that is not empty the loop is over before the fuel is:
    any larger amount of fuel gives the same ranges. *)
Lemma findMatchIndices_loop_fuel (lowerText lowerQuery : string) :
  lowerQuery <> EmptyString ->
  forall fuel fuel' pos,
    (String.length lowerText - pos < fuel)%nat ->
    (String.length lowerText - pos < fuel')%nat ->
    findMatchIndices_loop fuel lowerText lowerQuery pos
    = findMatchIndices_loop fuel' lowerText lowerQuery pos.
Proof.
  intros Hq. induction fuel as [|fuel IH]; intros fuel' pos H1 H2; [lia|].
  destruct fuel' as [|fuel']; [lia|]. simpl.
  destruct (Js.indexOf lowerText lowerQuery pos) as [p|] eqn:E;
    [|reflexivity].
  apply indexOf_go_bounds in E as [Hend Hstart]. specialize (Hstart Hq).
  assert (0 < String.length lowerQuery)%nat
    by (destruct lowerQuery; [congruence | simpl; lia]).
  f_equal. apply IH; lia.
Qed.

Lemma findMatchIndices_inside (text query : string) :
  Forall (inside (Js.len text)) (findMatchIndices text query).
Proof.
  unfold findMatchIndices.
  replace (Js.len text) with (Js.len (Js.toLowerCase text))
    by (unfold Js.len; now rewrite toLowerCase_length).
  apply findMatchIndices_loop_inside.
Qed.

Lemma tokenLoops_inside (fieldValue : string)
  (queryTokens valueTokens : list string) :
  forall acc,
    Forall (inside (Js.len fieldValue)) (snd acc) ->
    Forall (inside (Js.len fieldValue))
      (snd (tokenLoops fieldValue queryTokens valueTokens acc)).
Proof.
  unfold tokenLoops.
  induction queryTokens as [|queryToken rest IH]; intros acc Hacc;
    simpl; [exact Hacc|].
  apply IH. destruct (Js.len queryToken <? 2); [exact Hacc|].
  clear IH. revert acc Hacc.
  induction valueTokens as [|valueToken more IHv]; intros acc Hacc;
    simpl; [exact Hacc|].
  apply IHv.
  destruct (tokenPair fieldValue queryToken valueToken) as [sc ix] eqn:E.
  simpl. apply Forall_app. split; [exact Hacc|].
  unfold tokenPair in E.
  repeat match type of E with
         | (if ?c then _ else _) = _ => destruct c
         end;
    injection E as _ <-;
    (apply findMatchIndices_inside || constructor).
Qed.

(** The ranges that [fuzzyMatchField] returns are in order, do not overlap
    and lie inside the field value. *)
Lemma fuzzyMatchField_ordered (fieldValue : string)
  (queryTokens : list string) (originalQuery : string) :
  orderedRanges 0
    (f_indices (fuzzyMatchField fieldValue queryTokens originalQuery))
    (Js.len fieldValue) = true.
Proof.
  assert (Hlen : 0 <= Js.len fieldValue) by (unfold Js.len; lia).
  unfold fuzzyMatchField.
  destruct (String.eqb fieldValue "" || (Js.len (Js.trim fieldValue) =? 0));
    [now apply Z.leb_le|].
  destruct (String.eqb (Js.toLowerCase fieldValue)
              (Js.toLowerCase originalQuery)).
  { simpl. rewrite !andb_true_iff, !Z.leb_le. lia. }
  cbv zeta. simpl f_indices.
  apply HighlightFacts.mergeIndices_ordered; [exact Hlen|].
  match goal with
  | |- Forall _ (snd (match queryTokens with
                      | [] => ?a
                      | x :: l => _
                      end)) =>
      assert (Hacc : Forall (inside (Js.len fieldValue)) (snd a))
  end.
  { apply tokenLoops_inside.
    repeat match goal with
           | |- context [if ?c then _ else _] => destruct c
           end;
      simpl; try constructor; apply findMatchIndices_inside. }
  destruct queryTokens as [|queryToken [|other rest]]; try exact Hacc.
  match goal with
  | |- context [if ?c then _ else _] => destruct c
  end; exact Hacc.
Qed.

Lemma pushMatch_covered name fieldValue weight queryTokens query :
  Forall
    (fun m =>
       segmentsText (highlightMatches (value m) (indices m)) = value m)
    (pushMatch name fieldValue weight queryTokens query).
Proof.
  unfold pushMatch.
  destruct (f_score (fuzzyMatchField fieldValue queryTokens query) >? 0);
    constructor; [|constructor].
  simpl. apply HighlightFacts.highlightMatches_covers,
           fuzzyMatchField_ordered.
Qed.

(** Every match that the search returns can be highlighted: the segments
    made from its ranges cover its value. *)
Lemma searchTask_matches_covered (t : Task.t) (query : string)
  (tags : list Tag.t) :
  Forall
    (fun m =>
       segmentsText (highlightMatches (value m) (indices m)) = value m)
    (searchTask t query tags).
Proof.
  unfold searchTask. destruct (tokenize query) as [|tok toks]; [constructor|].
  repeat (apply Forall_app; split); try apply pushMatch_covered;
    apply Forall_flat_map, Forall_forall; intros x _.
  - destruct (find _ tags); [apply pushMatch_covered | constructor].
  - apply pushMatch_covered.
  - apply pushMatch_covered.
  - apply Forall_app. split; [apply pushMatch_covered|].
    destruct (Attachment.type x); (apply pushMatch_covered || constructor).
Qed.

End SearchFacts.

(* ================================================================== *)
(** * Base64                                                           *)
(* ================================================================== *)

Module Base64Facts.
Import Js.

(** Induction over a list three elements at a time. *)
Lemma list_ind3 {A} (P : list A -> Prop) :
  P [] -> (forall a, P [a]) -> (forall a b, P [a; b]) ->
  (forall a b c r, P r -> P (a :: b :: c :: r)) ->
  forall l, P l.
Proof.
  intros H0 H1 H2 H3 l.
  enough (P l /\ (forall a, P (a :: l)) /\ (forall a b, P (a :: b :: l)))
    by tauto.
  induction l as [|x l [IH0 [IH1 IH2]]]; [now auto|].
  split; [apply IH1|]. split; [intros a; apply IH2|].
  intros a b. now apply H3.
Qed.

Lemma char_sextet_sextet_char (s : sextet) :
  char_sextet (sextet_char s) = Some s.
Proof. destruct s as [[] [] [] [] [] []]; reflexivity. Qed.

Lemma sextet_char_plain (s : sextet) :
  isAsciiWhitespace (sextet_char s) = false /\ sextet_char s <> "="%char.
Proof.
  destruct s as [[] [] [] [] [] []]; split; (reflexivity || discriminate).
Qed.

Lemma chars_sextets_map (ss : list sextet) :
  chars_sextets (map sextet_char ss) = Some ss.
Proof.
  induction ss as [|s ss IH]; simpl; [reflexivity|].
  now rewrite char_sextet_sextet_char, IH.
Qed.

Lemma of_to_sextets (l : list ascii) : of_sextets (to_sextets l) = l.
Proof.
  induction l as [|[]|[] []|[] [] [] r IH] using list_ind3;
    try reflexivity.
  simpl. now rewrite IH.
Qed.

Lemma mod4 (k r : nat) : (r < 4)%nat -> ((4 * k + r) mod 4 = r)%nat.
Proof.
  intros Hr. rewrite Nat.add_comm, Nat.mul_comm, Nat.Div0.mod_add.
  now apply Nat.mod_small.
Qed.

(** The number of sextets and the padding go together. *)
Lemma sextets_padding (l : list ascii) :
  exists k,
    (List.length (to_sextets l) = 4 * k /\ padding l = [])%nat
    \/ (List.length (to_sextets l) = 4 * k + 3
        /\ padding l = ["="%char])%nat
    \/ (List.length (to_sextets l) = 4 * k + 2
        /\ padding l = ["="%char; "="%char])%nat.
Proof.
  induction l as [|[]|[] []|[] [] [] r [k IH]] using list_ind3.
  - exists 0%nat. now left.
  - exists 0%nat. right. right. now split.
  - exists 0%nat. right. left. now split.
  - exists (S k). simpl to_sextets. simpl padding. simpl List.length.
    destruct IH as [[Hl Hp]|[[Hl Hp]|[Hl Hp]]]; rewrite Hl, Hp;
      [left | right; left | right; right]; split; (lia || reflexivity).
Qed.

Lemma stripPadding_plain (l : list ascii) :
  Forall (fun c => c <> "="%char) l -> stripPadding l = l.
Proof.
  intros Hl. unfold stripPadding.
  assert (Hrev : Forall (fun c => c <> "="%char) (rev l)).
  { apply Forall_forall. intros c Hc. rewrite Forall_forall in Hl.
    apply Hl. now apply in_rev. }
  destruct (rev l) as [|x r]; [reflexivity|].
  inversion Hrev as [|? ? Hx _]; subst.
  destruct x as [[] [] [] [] [] [] [] []]; try reflexivity.
  now contradiction Hx.
Qed.

Lemma stripPadding_one (l : list ascii) :
  Forall (fun c => c <> "="%char) l ->
  stripPadding (l ++ ["="%char]) = l.
Proof.
  intros Hl. unfold stripPadding. rewrite rev_app_distr. simpl.
  assert (Hrev : Forall (fun c => c <> "="%char) (rev l)).
  { apply Forall_forall. intros c Hc. rewrite Forall_forall in Hl.
    apply Hl. now apply in_rev. }
  destruct (rev l) as [|x r] eqn:E.
  - rewrite <- (rev_involutive l), E. reflexivity.
  - inversion Hrev as [|? ? Hx _]; subst.
    rewrite <- (rev_involutive l), E.
    destruct x as [[] [] [] [] [] [] [] []]; try reflexivity.
    now contradiction Hx.
Qed.

Lemma stripPadding_two (l : list ascii) :
  stripPadding (l ++ ["="%char; "="%char]) = l.
Proof.
  unfold stripPadding. rewrite rev_app_distr. simpl. apply rev_involutive.
Qed.

(** Decoding undoes encoding. *)
Lemma base64_decode_encode (l : list ascii) :
  base64_decode (base64_encode l) = Some l.
Proof.
  unfold base64_decode, base64_encode.
  set (body := map sextet_char (to_sextets l)).
  assert (Hplain : Forall (fun c => c <> "="%char) body).
  { apply Forall_forall. intros c Hc. apply in_map_iff in Hc as [s [<- _]].
    apply sextet_char_plain. }
  assert (Hws : Forall (fun c => negb (isAsciiWhitespace c) = true)
                  (body ++ padding l)).
  { apply Forall_app. split.
    - apply Forall_forall. intros c Hc. apply in_map_iff in Hc as [s [<- _]].
      now rewrite (proj1 (sextet_char_plain s)).
    - destruct (sextets_padding l) as [k [[_ ->]|[[_ ->]|[_ ->]]]];
        repeat constructor. }
  rewrite (JsFacts.filter_all _ _ Hws).
  assert (Hlen : List.length body = List.length (to_sextets l))
    by apply length_map.
  assert (Hdone : option_map of_sextets (chars_sextets body) = Some l).
  { subst body. rewrite chars_sextets_map. simpl. now rewrite of_to_sextets. }
  assert (Hfacts :
    (List.length (body ++ padding l) mod 4 = 0)%nat
    /\ stripPadding (body ++ padding l) = body
    /\ (List.length body mod 4 =? 1)%nat = false).
  { rewrite length_app, Hlen.
    destruct (sextets_padding l) as [k [[Hk Hp]|[[Hk Hp]|[Hk Hp]]]];
      rewrite Hp, Hk.
    - rewrite app_nil_r, Nat.add_0_r.
      replace (4 * k)%nat with (4 * k + 0)%nat by lia.
      rewrite (mod4 k 0) by lia.
      split; [reflexivity|]. split; [now apply stripPadding_plain | reflexivity].
    - replace (4 * k + 3 + List.length ["="%char])%nat
        with (4 * S k + 0)%nat by (simpl; lia).
      rewrite (mod4 (S k) 0), (mod4 k 3) by lia.
      split; [reflexivity|]. split; [now apply stripPadding_one | reflexivity].
    - replace (4 * k + 2 + List.length ["="%char; "="%char])%nat
        with (4 * S k + 0)%nat by (simpl; lia).
      rewrite (mod4 (S k) 0), (mod4 k 2) by lia.
      split; [reflexivity|]. split; [now apply stripPadding_two | reflexivity]. }
  destruct Hfacts as [Hmod [Hstrip Hone]].
  now rewrite Hmod, Nat.eqb_refl, Hstrip, Hone.
Qed.

(** [atob(btoa(s))] is [s]. *)
Lemma atob_btoa (s : string) :
  bind (btoa s) atob = Normal s.
Proof.
  unfold btoa, atob. simpl.
  rewrite list_ascii_of_string_of_list_ascii, base64_decode_encode.
  now rewrite string_of_list_ascii_of_string.
Qed.

Lemma chars_sextets_foreign (c : ascii) (l : list ascii) :
  char_sextet c = None -> In c l -> chars_sextets l = None.
Proof.
  intros Hc. induction l as [|x l IH]; simpl; intros Hin; [contradiction|].
  destruct Hin as [->|Hin].
  - now rewrite Hc.
  - rewrite (IH Hin). now destruct (char_sextet x).
Qed.

(** [stripPadding] leaves the list as it is or takes [=] signs off its
    end. *)
Lemma stripPadding_cases (l : list ascii) :
  stripPadding l = l
  \/ (exists r, rev l = "="%char :: r /\ stripPadding l = rev r)
  \/ (exists r, rev l = "="%char :: "="%char :: r /\ stripPadding l = rev r).
Proof.
  unfold stripPadding. destruct (rev l) as [|x r]; [now left|].
  destruct (ascii_dec x "="%char) as [->|Hx].
  - destruct r as [|y r]; [right; left; now exists []|].
    destruct (ascii_dec y "="%char) as [->|Hy].
    + right. right. now exists r.
    + right. left. exists (y :: r). split; [reflexivity|].
      destruct y as [[] [] [] [] [] [] [] []]; try reflexivity.
      now contradiction Hy.
  - left. destruct x as [[] [] [] [] [] [] [] []]; try reflexivity.
    now contradiction Hx.
Qed.

Lemma stripPadding_keeps (c : ascii) (l : list ascii) :
  c <> "="%char -> In c l -> In c (stripPadding l).
Proof.
  intros Hc Hin.
  destruct (stripPadding_cases l) as [->|[[r [Hr ->]]|[r [Hr ->]]]];
    [exact Hin | |];
    apply in_rev in Hin; rewrite Hr in Hin; apply -> in_rev;
    simpl in Hin; intuition congruence.
Qed.

(** A character outside the alphabet that is neither white space nor [=]
    makes the decoding fail. *)
Lemma base64_decode_foreign (c : ascii) (l : list ascii) :
  char_sextet c = None -> isAsciiWhitespace c = false -> c <> "="%char ->
  In c l -> base64_decode l = None.
Proof.
  intros Hc Hws Heq Hin. unfold base64_decode.
  set (data := filter (fun c => negb (isAsciiWhitespace c)) l).
  assert (Hdata : In c data).
  { apply filter_In. split; [exact Hin | now rewrite Hws]. }
  set (data' := if (List.length data mod 4 =? 0)%nat
                then stripPadding data else data).
  assert (Hdata' : In c data').
  { subst data'. destruct (List.length data mod 4 =? 0)%nat;
      [now apply stripPadding_keeps | exact Hdata]. }
  destruct (List.length data' mod 4 =? 1)%nat; [reflexivity|].
  now rewrite (chars_sextets_foreign c).
Qed.

(** [atob] throws on a text that starts with a brace, as the JSON text of
    an object does. *)
Lemma atob_brace (rest : string) :
  atob (String "{" rest) = Throw InvalidCharacterError.
Proof.
  unfold atob. rewrite (base64_decode_foreign "{"%char); try reflexivity.
  - discriminate.
  - now left.
Qed.

End Base64Facts.

(* ================================================================== *)
(** * The codec (useDatabase.ts)                                       *)
(* ================================================================== *)

Module CodecFacts.
Import Types Database Spec.

Section Decoder.
Context `{Platform}.

(** The [try] block of the decoder succeeds exactly when base64, gzip and
    JSON all accept what they are given. *)
Lemma decodeCompressed_attempt (s : string) :
  match base64GzipJson s with
  | Some value => decodeCompressed s = Js.Normal value
  | None => exists e, decodeCompressed s = Js.Throw e
  end.
Proof.
  unfold base64GzipJson, decodeCompressed.
  destruct (Js.atob s) as [binaryString|e]; simpl; [|now exists e].
  destruct (pako_ungzip (bytes_of_binaryString binaryString))
    as [decompressed|e]; simpl; [|now exists e].
  destruct (JSON_parse (TextDecoder_decode decompressed)) as [value|e];
    [reflexivity | now exists e].
Qed.

(** The three cases of [decompressState] on a string. *)
Lemma decompressState_string (s : string) :
  decompressState (PString s)
  = Js.Normal
      match base64GzipJson s with
      | Some decoded => decoded
      | None =>
          match JSON_parse s with
          | Js.Normal parsed => parsed
          | Js.Throw _ => Board defaultState
          end
      end.
Proof.
  pose proof (decodeCompressed_attempt s) as Hattempt.
  unfold decompressState; simpl.
  destruct (base64GzipJson s) as [decoded|].
  - now rewrite Hattempt.
  - destruct Hattempt as [e ->]. simpl.
    unfold parsePlain. now destruct (JSON_parse s).
Qed.

End Decoder.


Section RoundTrip.
Context `{Platform}.

(** With libraries that lose nothing of [b], decoding the text that
    [compressState] made of [b] gives [b]: by the compressed form when gzip
    and the conversion to text go through, by the plain JSON text when one
    of them throws. *)
Lemma roundTrip_lossless (b : BoardState.t) :
  lossless b -> roundTrip b = Js.Normal (Board b).
Proof.
  intros [Hparse [[rest Hbrace] Hgzip]].
  unfold roundTrip, compressState.
  assert (Hplain :
    decompressState (PString (JSON_stringify (Board b)))
    = Js.Normal (Board b)).
  { rewrite decompressState_string.
    unfold base64GzipJson.
    rewrite Hbrace, Base64Facts.atob_brace.
    now rewrite <- Hbrace, Hparse. }
  destruct (pako_gzip (JSON_stringify (Board b))) as [z|e] eqn:Ez; simpl;
    [|exact Hplain].
  unfold fromCharCode_apply.
  destruct (List.length z <=? fromCharCode_max_args)%nat; simpl;
    [|exact Hplain].
  rewrite decompressState_string. unfold base64GzipJson.
  pose proof (Base64Facts.atob_btoa (string_of_list_byte z)) as Hb64.
  simpl in Hb64. rewrite Hb64.
  unfold bytes_of_binaryString.
  rewrite list_byte_of_string_of_list_byte.
  destruct (Hgzip z eq_refl) as [u [Hu Hd]].
  rewrite Hu. now rewrite Hd, Hparse.
Qed.

End RoundTrip.

(** C1, as amended.  With libraries that lose nothing of the board [b],
    [decompressState(compressState(b))] is [b] itself, unmigrated; it is
    [migrateState(b)] exactly when [b] is already migrated; and migrating
    the decoded board, as the loader does next, gives [migrateState(b)]. *)
Theorem codec_round_trip `{Platform} (b : BoardState.t) :
  lossless b ->
  roundTrip b = Js.Normal (Board b)
  /\ (roundTrip b = Js.Normal (Board (migrateState b))
      <-> migrateState b = b)
  /\ Js.bind (roundTrip b) migrateValue
     = Js.Normal (Board (migrateState b)).
Proof.
  intros Hb. rewrite (roundTrip_lossless b Hb). simpl.
  split; [reflexivity|]. split; [|reflexivity].
  split; [intros [= Heq]; now symmetry | intros Heq; now rewrite Heq].
Qed.

Lemma sample_lossless (table : list BoardState.t) (foreign : list Json)
  (max_args : nat) (b : BoardState.t) :
  @JSON_parse (Sample.platformWith table foreign max_args)
    (Sample.stringify (Board b))
  = Js.Normal (Board b) ->
  @lossless (Sample.platformWith table foreign max_args) b.
Proof.
  intros Hparse. split; [exact Hparse|]. split.
  - eexists. reflexivity.
  - intros z [= <-]. eexists. split; [reflexivity|]. simpl.
    apply string_of_list_byte_of_string.
Qed.

Lemma codec_round_trip_witness :
  @roundTrip (Sample.platform [defaultState] 4096) defaultState
  = Js.Normal (Board defaultState).
Proof.
  exact (proj1 (@codec_round_trip (Sample.platform [defaultState] 4096)
                  defaultState
                  (sample_lossless [defaultState] [] 4096 defaultState
                     eq_refl))).
Defined.

(** C1 as stated fails: the decoder does not migrate.  A board stored by
    an earlier revision comes back without the fields that [migrateState]
    would fill in. *)
Lemma codec_round_trip_counterexample :
  ~ (forall (P : Platform) (b : BoardState.t),
        @lossless P b
        -> @roundTrip P b = Js.Normal (Board (migrateState b))).
Proof.
  intros Hclaim.
  specialize (Hclaim (Sample.platform [Sample.legacyBoard] 4096)
                Sample.legacyBoard).
  rewrite roundTrip_lossless in Hclaim.
  - specialize
      (Hclaim (sample_lossless [Sample.legacyBoard] [] 4096
                 Sample.legacyBoard eq_refl)).
    discriminate Hclaim.
  - now apply (sample_lossless [Sample.legacyBoard] []).
Qed.

End CodecFacts.

(* ================================================================== *)
(** * Checksum and recovery (RecoveryManager.ts)                       *)
(* ================================================================== *)

Module RecoveryFacts.
Import Types RecoveryManager Spec Examples.

(** ** Arithmetic modulo 2^32 *)










(** ** The printed hash *)




(** The record that [createRecoveryBackup] writes carries the hash of its
    data. *)
Lemma backupData_hash `{Platform} (state : Value) (now : Z)
  (r : BackupRecord) :
  backupData state now = Js.Normal r ->
  hash r = generateHash (data r) /\ verifyHash (data r) (hash r) = true.
Proof.
  unfold backupData, Js.btoa.
  destruct (pako_gzip (JSON_stringify state)); simpl; [|discriminate].
  destruct (fromCharCode_apply a); simpl; [|discriminate].
  intros [= <-]. simpl. split; [reflexivity|].
  unfold verifyHash. apply String.eqb_refl.
Qed.

(** ** The tiers *)

(** A value that has the three properties is an object, which is truthy. *)
Lemma lacksStructure_truthy (state : Value) :
  lacksStructure state = Js.Normal false ->
  Dynamic.truthy_value state = true.
Proof.
  destruct state as [b|j]; [reflexivity|].
  destruct j; simpl; try discriminate; reflexivity.
Qed.

Section Tiers.
Context `{Platform}.

(** What [decompressBackup] returns has passed its test. *)
Lemma decompressBackup_structure (base64 : string) (state : Value) :
  decompressBackup base64 = Some state ->
  lacksStructure state = Js.Normal false.
Proof.
  unfold decompressBackup.
  destruct (Js.atob base64) as [binaryString|]; simpl; [|discriminate].
  destruct (pako_ungzip (bytes_of_binaryString binaryString))
    as [decompressed|]; simpl; [|discriminate].
  destruct (JSON_parse (TextDecoder_decode decompressed)) as [parsed|];
    simpl; [|discriminate].
  destruct (lacksStructure parsed) as [[|]|] eqn:Hlacks; simpl;
    try discriminate.
  now intros [= <-].
Qed.

Lemma decompressBackup_truthy (base64 : string) (state : Value) :
  decompressBackup base64 = Some state ->
  Dynamic.truthy_value state = true.
Proof.
  intros Hdec. now apply lacksStructure_truthy, decompressBackup_structure
    with (base64 := base64).
Qed.






End Tiers.




(** A tier whose data passes the check and decodes is the source. *)
Lemma indexeddb_accepts `{Platform} (st : Stores) (record : BackupRecord)
  (decoded : Value) :
  idb_get_backup st = Js.Normal (Some record) ->
  verifyHash (data record) (hash record) = true ->
  decompressBackup (data record) = Some decoded ->
  attemptRecovery st
  = Js.Normal (mkRecovery true (Some decoded) (Some indexeddb)).
Proof.
  intros Hget Hok Hdec. unfold attemptRecovery, guarded, tier_indexeddb.
  rewrite Hget. simpl.
  now rewrite Hok, Hdec, (decompressBackup_truthy _ _ Hdec).
Qed.

End RecoveryFacts.

(* ================================================================== *)
(** * More on the board store (useDatabase.ts)                         *)
(* ================================================================== *)

Module StoreFacts.
Import Types Database Spec.

(** ** Migration *)

Lemma migrateTask_complete (task : Task.t) :
  taskComplete (migrateTask task) = true.
Proof. reflexivity. Qed.

Lemma migrateTask_fixed (task : Task.t) :
  taskComplete task = true -> migrateTask task = task.
Proof.
  destruct task as [? ? ? ? [st|] ? [su|] [at_|] [tg|] ? ? ? ?];
    simpl; try discriminate; reflexivity.
Qed.

Lemma complete_fixed (state : BoardState.t) :
  complete state = true -> migrateState state = state.
Proof.
  unfold complete, migrateState. intros H.
  apply andb_prop in H as [Htasks Htags].
  destruct state as [columns tasks [tags|]]; simpl in *; [|discriminate].
  f_equal. rewrite forallb_forall in Htasks.
  induction tasks as [|t tasks IH]; simpl; [reflexivity|].
  rewrite migrateTask_fixed, IH; auto.
  - intros x Hx. apply Htasks. now right.
  - apply Htasks. now left.
Qed.

Lemma migrateState_complete (state : BoardState.t) :
  complete (migrateState state) = true.
Proof.
  unfold complete, migrateState; simpl. rewrite andb_true_r.
  apply forallb_forall. intros t Ht.
  apply in_map_iff in Ht as [t0 [<- _]]. reflexivity.
Qed.

(** [migrateState] fills in what is missing and changes nothing else:
    migrating twice is migrating once, and a board that misses nothing is
    left as it is. *)
Theorem migrateState_idempotent (state : BoardState.t) :
  migrateState (migrateState state) = migrateState state
  /\ complete (migrateState state) = true
  /\ (complete state = true -> migrateState state = state)
  /\ BoardState.columns (migrateState state) = BoardState.columns state
  /\ List.length (BoardState.tasks (migrateState state))
     = List.length (BoardState.tasks state).
Proof.
  split; [apply complete_fixed, migrateState_complete|].
  split; [apply migrateState_complete|].
  split; [apply complete_fixed|].
  split; [reflexivity | apply length_map].
Qed.

(** ** Mutations keep a board complete, and do not throw on one *)

Lemma forallb_mapi_from {A B} (P : A -> bool) (Q : B -> bool)
  (f : Z -> A -> B) (l : list A) :
  (forall k x, P x = true -> Q (f k x) = true) ->
  forall k, forallb P l = true -> forallb Q (Js.mapi_from f k l) = true.
Proof.
  intros Hf. induction l as [|x l IH]; intros k H; simpl in *; [reflexivity|].
  apply andb_prop in H as [Hx Hl]. now rewrite Hf, IH.
Qed.

Lemma forallb_map_keep {A} (P : A -> bool) (f : A -> A) (l : list A) :
  (forall x, P x = true -> P (f x) = true) ->
  forallb P l = true -> forallb P (map f l) = true.
Proof.
  intros Hf. induction l as [|x l IH]; intros H; simpl in *; [reflexivity|].
  apply andb_prop in H as [Hx Hl]. now rewrite Hf, IH.
Qed.

Lemma forallb_filter_keep {A} (P f : A -> bool) (l : list A) :
  forallb P l = true -> forallb P (filter f l) = true.
Proof.
  rewrite !forallb_forall. intros H x Hx. apply H.
  now apply filter_In in Hx.
Qed.

Lemma forallb_perm {A} (P : A -> bool) (l l' : list A) :
  Permutation l l' -> forallb P l = true -> forallb P l' = true.
Proof.
  rewrite !forallb_forall. intros Hp H x Hx. apply H.
  eapply Permutation_in; [symmetry; exact Hp | exact Hx].
Qed.

Lemma updateTask_map_complete now taskId updates task :
  definedUpdates updates = true ->
  taskComplete task = true ->
  taskComplete (updateTask_map now taskId updates task) = true.
Proof.
  unfold updateTask_map, definedUpdates. intros Hu.
  destruct (String.eqb (Task.id task) taskId); [|trivial].
  destruct task as [? ? ? ? [st|] ? [su|] [at_|] [tg|] ? ? ? ?];
    simpl; try discriminate; intros _.
  unfold taskComplete, spread; simpl.
  destruct (PartialTask.status updates) as [[[]|]|],
           (PartialTask.subtasks updates) as [[]|],
           (PartialTask.attachments updates) as [[]|],
           (PartialTask.tags updates) as [[]|];
    try discriminate Hu; destruct st; reflexivity.
Qed.

Lemma setColumnTasksStatus_map_complete now columnId status task :
  taskComplete task = true ->
  taskComplete (setColumnTasksStatus_map now columnId status task) = true.
Proof.
  unfold setColumnTasksStatus_map.
  destruct (String.eqb (Task.columnId task) columnId); [|trivial].
  destruct task as [? ? ? ? [st|] ? [su|] [at_|] [tg|] ? ? ? ?];
    simpl; try discriminate; intros _.
  destruct status, st; reflexivity.
Qed.

Lemma splice_insert_In {A} (l : list A) (k : Z) (y x : A) :
  In x (Js.splice_insert l k y) <-> x = y \/ In x l.
Proof.
  unfold Js.splice_insert.
  set (n := Z.to_nat (Js.clampIndex (Z.of_nat (List.length l)) k)).
  rewrite <- (firstn_skipn n l) at 3.
  rewrite !in_app_iff. simpl. intuition congruence.
Qed.

Lemma moveTask_complete state taskId newColumnId newOrder :
  forallb taskComplete (BoardState.tasks state) = true ->
  forallb taskComplete
    (BoardState.tasks (moveTask state taskId newColumnId newOrder)) = true.
Proof.
  intros H. unfold moveTask.
  destruct (find _ (BoardState.tasks state)) as [task|] eqn:Hfind;
    [|exact H].
  simpl. rewrite forallb_app. apply andb_true_intro. split.
  - now do 2 apply forallb_filter_keep.
  - apply (forallb_mapi_from taskComplete); [now intros k [] | ].
    apply forallb_forall. intros t Ht.
    apply splice_insert_In in Ht as [->|Ht].
    + apply find_some in Hfind as [Hin _].
      rewrite forallb_forall in H. specialize (H _ Hin).
      now destruct task.
    + apply JsFacts.sort_In, filter_In in Ht as [Ht _].
      apply filter_In in Ht as [Ht _].
      rewrite forallb_forall in H. now apply H.
Qed.

Lemma Forall2_In_right {A B} (R : A -> B -> Prop) (l : list A)
  (l' : list B) (y : B) :
  Forall2 R l l' -> In y l' -> exists x, In x l /\ R x y.
Proof.
  induction 1 as [|x z l l' Hxz _ IH]; simpl; [contradiction|].
  intros [<-|Hy]; [exists x; auto|].
  destruct (IH Hy) as [x' [Hx' HR]]. exists x'. auto.
Qed.

Lemma mutate_complete (m : Mutation) (state : BoardState.t) :
  takesNothingAway m = true ->
  complete state = true ->
  exists state', mutate m state = Js.Normal state'
                 /\ complete state' = true.
Proof.
  unfold complete. intros Hm H. apply andb_prop in H as [Htasks Htags].
  destruct m; simpl; try (eexists; split; [reflexivity|]; simpl;
                          apply andb_true_intro; split; [|exact Htags]).
  - exact Htasks.
  - exact Htasks.
  - now apply forallb_filter_keep.
  - rewrite forallb_app, Htasks. reflexivity.
  - apply (forallb_mapi_from taskComplete); [|exact Htasks].
    intros k x. now apply updateTask_map_complete.
  - now apply forallb_filter_keep.
  - eexists; split; [reflexivity|]. apply andb_true_intro.
    split; [now apply moveTask_complete|].
    unfold moveTask. now destruct (find _ (BoardState.tasks state)).
  - exact Htasks.
  - apply (forallb_mapi_from taskComplete); [|exact Htasks].
    intros k x. apply setColumnTasksStatus_map_complete.
  - apply forallb_map_keep; [|exact Htasks].
    intros x Hx. destruct (String.eqb (Task.columnId x) columnId);
      [now destruct x | exact Hx].
  - unfold addTag. destruct (BoardState.tags state) as [tags|];
      [|discriminate]. simpl.
    eexists; split; [reflexivity|]. simpl. now rewrite Htasks.
  - unfold deleteTag. destruct (BoardState.tags state) as [tags|];
      [|discriminate]. simpl.
    match goal with |- context [Js.mapM ?f ?l] =>
      destruct (FrameFacts.mapM_total f l) as [l' Hl'] end.
    { apply Forall_forall. intros t Ht.
      rewrite forallb_forall in Htasks. specialize (Htasks t Ht).
      unfold taskComplete in Htasks.
      destruct (Task.tags t); [simpl; eauto|].
      now rewrite andb_false_r in Htasks. }
    rewrite Hl'. simpl. eexists; split; [reflexivity|]. simpl.
    rewrite andb_true_r. apply FrameFacts.mapM_Normal in Hl'.
    apply forallb_forall. intros t' Ht'.
    destruct (Forall2_In_right _ _ _ _ Hl' Ht') as [t [Ht Hf]].
    rewrite forallb_forall in Htasks. specialize (Htasks t Ht).
    destruct t as [? ? ? ? [st|] ? [su|] [at_|] [tg|] ? ? ? ?];
      simpl in *; try discriminate.
    now injection Hf as <-.
Qed.

(** On a board that misses nothing (as [migrateState] leaves it), every
    sequence of mutations in which no [updateTask] carries a key with the
    value undefined (what is used of it is that [status], [subtasks],
    [attachments] and [tags] are not carried so) runs to its end without
    throwing, and the board it ends with misses nothing either. *)
Theorem mutations_keep_complete (ms : list Mutation) (state : BoardState.t) :
  complete state = true ->
  forallb takesNothingAway ms = true ->
  exists final, mutateAll ms state = Js.Normal final
                /\ complete final = true.
Proof.
  revert state. induction ms as [|m ms IH]; intros state H Hms; simpl.
  - now exists state.
  - simpl in Hms. apply andb_prop in Hms as [Hm Hms].
    destruct (mutate_complete m state Hm H) as [state' [-> H']]. simpl.
    now apply IH.
Qed.

Lemma mutations_keep_complete_witness :
  exists final,
    mutateAll
      [ MAddTask 1700000000000 1700000000000 "col-1" "Fix bug";
        MAddTag 1700000000001 "Later" "#ef4444";
        MUpdateTask (fun _ => 1700000000002) "task-1700000000000"
          (Examples.setStatus done);
        MMoveTask "task-1700000000000" "col-2" 0;
        MDeleteTag "tag-1" ]
      (migrateState Sample.legacyBoard)
    = Js.Normal final
    /\ complete final = true.
Proof.
  apply mutations_keep_complete; reflexivity.
Defined.

(** The condition on [updateTask] is needed: an update that carries [tags]
    with the value undefined takes the tags of the task away, and the next
    [deleteTag] throws. *)
Lemma tags_undefined_breaks_deleteTag :
  let ms :=
    [ MUpdateTask (fun _ => 0) "a" Examples.tagsUndefined;
      MDeleteTag "tag-1" ] in
  complete Examples.taggedBoard = true
  /\ mutateAll ms Examples.taggedBoard = Js.Throw Js.TypeError.
Proof. split; reflexivity. Qed.

(** ** Deleting a column, deleting a tag *)

Lemma filter_filter_imp {A} (f g : A -> bool) (l : list A) :
  (forall x, f x = true -> g x = true) ->
  filter f (filter g l) = filter f l.
Proof.
  intros H. induction l as [|x l IH]; simpl; [reflexivity|].
  destruct (g x) eqn:Eg; simpl.
  - now rewrite IH.
  - destruct (f x) eqn:Ef; [|exact IH].
    apply H in Ef. congruence.
Qed.

(** [deleteColumn] takes the column and its tasks away: afterwards the
    column is unknown and has no task, the tasks of every other column are
    the same in the same order, the tags are untouched, and if every task
    sat in a column of the board before, every task still does. *)
Theorem deleteColumn_cascade (state : BoardState.t) (columnId : string) :
  let state' := deleteColumn state columnId in
  columnKnown state' columnId = false
  /\ columnSize state' columnId = 0%nat
  /\ (forall other,
         other <> columnId ->
         filter (fun t => String.eqb (Task.columnId t) other)
           (BoardState.tasks state')
         = filter (fun t => String.eqb (Task.columnId t) other)
             (BoardState.tasks state))
  /\ BoardState.tags state' = BoardState.tags state
  /\ (columnsExist state = true -> columnsExist state' = true).
Proof.
  simpl. split; [|split; [|split; [|split; [reflexivity|]]]].
  - unfold columnKnown; simpl.
    apply not_true_is_false. intros H.
    apply existsb_exists in H as [c [Hc Heq]].
    apply filter_In in Hc as [_ Hc]. now rewrite Heq in Hc.
  - unfold columnSize; simpl. rewrite JsFacts.filter_none; [reflexivity|].
    apply Forall_forall. intros t Ht. apply filter_In in Ht as [_ Ht].
    now apply negb_true_iff in Ht.
  - intros other Hother. apply filter_filter_imp.
    intros t Ht. apply String.eqb_eq in Ht. rewrite Ht.
    apply negb_true_iff. now apply String.eqb_neq.
  - unfold columnsExist, columnKnown; simpl.
    rewrite !forallb_forall. intros H t Ht.
    apply filter_In in Ht as [Ht Hne]. specialize (H t Ht).
    apply existsb_exists in H as [c [Hc Heq]].
    apply existsb_exists. exists c. split; [|exact Heq].
    apply filter_In. split; [exact Hc|].
    apply String.eqb_eq in Heq. now rewrite Heq.
Qed.

(** [deleteTag], when it returns, leaves no trace of the tag: no tag of the
    board and no task carries the id, the tasks are as many as before, and
    if every tag id on a task was the id of a tag of the board before, it
    still is. *)
Theorem deleteTag_scrubs (state state' : BoardState.t) (tagId : string) :
  deleteTag state tagId = Js.Normal state' ->
  tagKnown state' tagId = false
  /\ (forall task ids,
         In task (BoardState.tasks state') ->
         Task.tags task = Some ids -> ~ In tagId ids)
  /\ List.length (BoardState.tasks state')
     = List.length (BoardState.tasks state)
  /\ (tagsExist state = true -> tagsExist state' = true).
Proof.
  unfold deleteTag.
  destruct (BoardState.tags state) as [tags|] eqn:Etags; simpl;
    [|discriminate].
  match goal with |- context [Js.mapM ?f ?l] =>
    destruct (Js.mapM f l) as [updatedTasks|e] eqn:Em end; simpl;
    [|discriminate].
  intros [= <-]. apply FrameFacts.mapM_Normal in Em.
  assert (Hstep : forall t', In t' updatedTasks ->
            exists t ids,
              In t (BoardState.tasks state) /\ Task.tags t = Some ids
              /\ Task.tags t'
                 = Some (filter (fun id => negb (String.eqb id tagId)) ids)).
  { intros t' Ht'.
    destruct (Forall2_In_right _ _ _ _ Em Ht') as [t [Ht Hf]].
    destruct (Task.tags t) as [ids|] eqn:Eids; simpl in Hf; [|discriminate].
    injection Hf as <-. exists t, ids. now repeat split. }
  split; [|split; [|split]].
  - unfold tagKnown; simpl. apply not_true_is_false. intros H.
    apply existsb_exists in H as [tag [Hin Heq]].
    apply filter_In in Hin as [_ Hne]. now rewrite Heq in Hne.
  - intros task ids Hin Hids Hmem.
    destruct (Hstep task Hin) as [t [ids0 [_ [_ Hnew]]]].
    rewrite Hids in Hnew. injection Hnew as ->.
    apply filter_In in Hmem as [_ Hne]. now rewrite String.eqb_refl in Hne.
  - simpl. symmetry. eapply Forall2_length. exact Em.
  - unfold tagsExist, tagKnown. rewrite Etags. simpl.
    rewrite !forallb_forall. intros H t' Ht'.
    destruct (Hstep t' Ht') as [t [ids [Ht [Hids Hnew]]]].
    specialize (H t Ht). rewrite Hids in H. simpl in H.
    rewrite Hnew. simpl. rewrite forallb_forall in *.
    intros id Hid. apply filter_In in Hid as [Hid Hne].
    specialize (H id Hid). apply existsb_exists in H as [tag [Htag Heq]].
    apply existsb_exists. exists tag. split; [|exact Heq].
    apply filter_In. split; [exact Htag|].
    apply String.eqb_eq in Heq. now rewrite Heq.
Qed.

Lemma deleteTag_scrubs_witness :
  exists state',
    deleteTag Examples.taggedBoard "tag-1" = Js.Normal state'
    /\ tagKnown state' "tag-1" = false
    /\ map Task.tags (BoardState.tasks state') = [Some ["tag-3"]].
Proof.
  destruct (deleteTag Examples.taggedBoard "tag-1") as [state'|e] eqn:E;
    [|discriminate E].
  exists state'. split; [reflexivity|].
  split; [exact (proj1 (deleteTag_scrubs _ _ _ E))|].
  vm_compute in E. now injection E as <-.
Defined.

(** ** Where [moveTask] puts the task, and what it leaves alone *)

Lemma moveTask_tasks state taskId newColumnId newOrder task :
  find (fun t => String.eqb (Task.id t) taskId) (BoardState.tasks state)
  = Some task ->
  BoardState.tasks (moveTask state taskId newColumnId newOrder)
  = filter (fun t => negb (String.eqb (Task.columnId t) newColumnId))
      (filter (fun t => negb (String.eqb (Task.id t) taskId))
         (BoardState.tasks state))
    ++ Js.mapi (fun index t => Task.set_order t index)
         (Js.splice_insert
            (Js.sort (Js.ascending Task.order)
               (staying state taskId newColumnId))
            newOrder (Task.set_columnId task newColumnId)).
Proof. intros Hfind. unfold moveTask. now rewrite Hfind. Qed.

Lemma target_in_column state taskId newColumnId newOrder task :
  Forall (fun t => String.eqb (Task.columnId t) newColumnId = true)
    (Js.mapi (fun index t => Task.set_order t index)
       (Js.splice_insert
          (Js.sort (Js.ascending Task.order)
             (staying state taskId newColumnId))
          newOrder (Task.set_columnId task newColumnId))).
Proof.
  apply MoveFacts.renumber_columnId, MoveFacts.splice_insert_Forall.
  - apply JsFacts.sort_Forall, Forall_forall. intros t Ht.
    now apply filter_In in Ht.
  - simpl. apply String.eqb_refl.
Qed.

Lemma clampIndex_range (size i : Z) :
  0 <= size -> 0 <= Js.clampIndex size i <= size.
Proof. unfold Js.clampIndex. destruct (Z.ltb_spec i 0); lia. Qed.

Lemma mapi_splice_nth {A B} (f : Z -> A -> B) (l : list A) (k : Z) (x : A) :
  let at_ := Js.clampIndex (Z.of_nat (List.length l)) k in
  nth_error (Js.mapi f (Js.splice_insert l k x)) (Z.to_nat at_)
  = Some (f at_ x).
Proof.
  intros at_. rewrite JsFacts.mapi_nth_error. unfold Js.splice_insert.
  fold at_.
  pose proof (clampIndex_range (Z.of_nat (List.length l)) k ltac:(lia))
    as Hr. fold at_ in Hr.
  rewrite nth_error_app2; rewrite length_firstn, Nat.min_l by lia; [|lia].
  rewrite Nat.sub_diag. simpl. f_equal. f_equal. lia.
Qed.

Lemma moveTask_position (state : BoardState.t) (taskId newColumnId : string)
  (newOrder : Z) (task : Task.t) :
  find (fun t => String.eqb (Task.id t) taskId) (BoardState.tasks state)
  = Some task ->
  let position :=
    Js.clampIndex
      (Z.of_nat (List.length (staying state taskId newColumnId))) newOrder in
  nth_error
    (columnTasksByOrder (moveTask state taskId newColumnId newOrder)
       newColumnId)
    (Z.to_nat position)
  = Some (Task.set_order (Task.set_columnId task newColumnId) position).
Proof.
  intros Hfind position. unfold columnTasksByOrder.
  rewrite (moveTask_tasks _ _ _ _ _ Hfind), filter_app.
  rewrite JsFacts.filter_none, (JsFacts.filter_all _ _
            (target_in_column state taskId newColumnId newOrder task)).
  2:{ apply Forall_forall. intros t Ht. apply filter_In in Ht as [_ Ht].
      now apply negb_true_iff in Ht. }
  simpl app. rewrite MoveFacts.sort_ascending_id.
  - subst position. rewrite <- (JsFacts.sort_length (Js.ascending Task.order)).
    apply (mapi_splice_nth (fun index t => Task.set_order t index)).
  - apply MoveFacts.StronglySorted_map_key.
    unfold Js.mapi. rewrite MoveFacts.renumber_orders.
    apply MoveFacts.countFrom_sorted.
Qed.

Lemma moveTask_column_length (state : BoardState.t)
  (taskId newColumnId : string) (newOrder : Z) (task : Task.t) :
  find (fun t => String.eqb (Task.id t) taskId) (BoardState.tasks state)
  = Some task ->
  List.length
    (columnTasksByOrder (moveTask state taskId newColumnId newOrder)
       newColumnId)
  = S (List.length (staying state taskId newColumnId)).
Proof.
  intros Hfind. unfold columnTasksByOrder.
  rewrite JsFacts.sort_length.
  destruct (MoveFacts.moveTask_target_tasks state taskId newColumnId newOrder
              task Hfind) as [target [-> Hlen]].
  unfold Js.mapi. now rewrite JsFacts.mapi_from_length.
Qed.

(** After a move that found its task, the task stands in the target
    column at the position asked for, brought into the range from 0 to the
    number of tasks that stay there (a negative position counts from the
    end), with that position as its order and no other field changed but
    [columnId]; the column then has one task more than stay there. *)
Theorem moveTask_lands (state : BoardState.t) (taskId newColumnId : string)
  (newOrder : Z) (task : Task.t) :
  find (fun t => String.eqb (Task.id t) taskId) (BoardState.tasks state)
  = Some task ->
  let position :=
    Js.clampIndex
      (Z.of_nat (List.length (staying state taskId newColumnId))) newOrder in
  let column :=
    columnTasksByOrder (moveTask state taskId newColumnId newOrder)
      newColumnId in
  nth_error column (Z.to_nat position)
  = Some (Task.set_order (Task.set_columnId task newColumnId) position)
  /\ List.length column = S (List.length (staying state taskId newColumnId)).
Proof.
  intros Hfind. split.
  - now apply moveTask_position.
  - now apply (moveTask_column_length state taskId newColumnId newOrder task).
Qed.

Lemma moveTask_lands_witness :
  nth_error
    (columnTasksByOrder
       (moveTask Examples.threeTasks "a" "col-2" (-1)) "col-2") 1
  = Some (Task.mk "a" "A" None medium (Some not_started) [] (Some [])
            (Some []) (Some []) "col-2" 1 0 None).
Proof.
  exact (proj1 (moveTask_lands Examples.threeTasks "a" "col-2" (-1) _
                  eq_refl)).
Defined.

Lemma filter_partition_perm {A} (f : A -> bool) (l : list A) :
  Permutation l (filter f l ++ filter (fun x => negb (f x)) l).
Proof.
  induction l as [|x l IH]; simpl; [constructor|].
  destruct (f x); simpl; [now constructor|].
  now apply Permutation_cons_app.
Qed.

Lemma splice_insert_perm {A} (l : list A) (k : Z) (x : A) :
  Permutation (x :: l) (Js.splice_insert l k x).
Proof.
  unfold Js.splice_insert.
  set (n := Z.to_nat (Js.clampIndex (Z.of_nat (List.length l)) k)).
  rewrite <- (firstn_skipn n l) at 1. apply Permutation_middle.
Qed.

Lemma renumber_ids (l : list Task.t) :
  forall k,
    map Task.id (Js.mapi_from (fun index t => Task.set_order t index) k l)
    = map Task.id l.
Proof.
  induction l as [|t l IH]; intros k; simpl; [reflexivity|].
  now rewrite IH.
Qed.

Lemma unique_id_rest (tasks : list Task.t) (taskId : string) (task : Task.t) :
  NoDup (map Task.id tasks) ->
  find (fun t => String.eqb (Task.id t) taskId) tasks = Some task ->
  Permutation (map Task.id tasks)
    (taskId
       :: map Task.id
            (filter (fun t => negb (String.eqb (Task.id t) taskId)) tasks)).
Proof.
  induction tasks as [|t tasks IH]; simpl; intros Hnd Hfind; [discriminate|].
  inversion Hnd as [|? ? Hnin Hnd']; subst.
  destruct (String.eqb_spec (Task.id t) taskId) as [Heq|Hne]; simpl.
  - subst taskId. constructor.
    rewrite JsFacts.filter_all; [reflexivity|].
    apply Forall_forall. intros x Hx. apply negb_true_iff.
    apply String.eqb_neq. intros Heq. apply Hnin. rewrite <- Heq.
    now apply in_map.
  - rewrite perm_swap. constructor. now apply IH.
Qed.

(** What a move that found its task does to the other tasks.  Outside the
    target column the tasks are those that [deleteTask] would leave there,
    unchanged and in the same order; the ids of the new list are the id
    moved, once, and the ids that [deleteTask] would leave, so that of
    several tasks with the id moved one is kept; columns and tags stay.
    Only when the ids of the board are distinct is nothing lost: then the
    new list has the same ids, still distinct, and as many tasks. *)
Theorem moveTask_keeps_tasks (state : BoardState.t)
  (taskId newColumnId : string) (newOrder : Z) :
  hasTask state taskId = true ->
  let state' := moveTask state taskId newColumnId newOrder in
  filter (fun t => negb (String.eqb (Task.columnId t) newColumnId))
    (BoardState.tasks state')
  = filter (fun t => negb (String.eqb (Task.columnId t) newColumnId))
      (BoardState.tasks (deleteTask state taskId))
  /\ Permutation (map Task.id (BoardState.tasks state'))
       (taskId :: map Task.id (BoardState.tasks (deleteTask state taskId)))
  /\ List.length (BoardState.tasks state')
     = S (List.length (BoardState.tasks (deleteTask state taskId)))
  /\ (NoDup (map Task.id (BoardState.tasks state)) ->
      Permutation (map Task.id (BoardState.tasks state'))
        (map Task.id (BoardState.tasks state))
      /\ NoDup (map Task.id (BoardState.tasks state'))
      /\ List.length (BoardState.tasks state')
         = List.length (BoardState.tasks state))
  /\ BoardState.columns state' = BoardState.columns state
  /\ BoardState.tags state' = BoardState.tags state.
Proof.
  intros Hhas state'. apply JsFacts.find_existsb in Hhas as [task Hfind].
  assert (Htasks := moveTask_tasks state taskId newColumnId newOrder task
                      Hfind).
  fold state' in Htasks.
  assert (Hid : Task.id task = taskId).
  { apply find_some in Hfind as [_ H]. now apply String.eqb_eq. }
  assert (Hperm :
    Permutation (map Task.id (BoardState.tasks state'))
      (taskId :: map Task.id (BoardState.tasks (deleteTask state taskId)))).
  { rewrite Htasks, map_app. unfold Js.mapi. rewrite renumber_ids.
    set (others := filter (fun t => negb (String.eqb (Task.columnId t)
                                           newColumnId)) _).
    assert (Hinserted :
      Permutation
        (map Task.id
           (Js.splice_insert
              (Js.sort (Js.ascending Task.order)
                 (staying state taskId newColumnId))
              newOrder (Task.set_columnId task newColumnId)))
        (taskId :: map Task.id (staying state taskId newColumnId))).
    { etransitivity;
        [apply Permutation_map; symmetry; apply splice_insert_perm|].
      simpl. replace (Task.id task) with taskId. constructor.
      apply Permutation_map. symmetry. apply JsFacts.sort_perm. }
    etransitivity; [apply Permutation_app_head; exact Hinserted|].
    etransitivity; [symmetry; apply Permutation_middle|].
    constructor. rewrite <- map_app. apply Permutation_map.
    etransitivity; [apply Permutation_app_comm|].
    symmetry. simpl. subst others. unfold staying.
    apply (filter_partition_perm
             (fun t => String.eqb (Task.columnId t) newColumnId)). }
  split; [|split; [exact Hperm|split; [|split; [|split]]]].
  - rewrite Htasks, filter_app.
    rewrite (JsFacts.filter_none _
               (Js.mapi _ _)).
    + rewrite app_nil_r. apply filter_filter_imp. trivial.
    + eapply Forall_impl;
        [|apply (target_in_column state taskId newColumnId newOrder task)].
      simpl. intros t Ht. now rewrite Ht.
  - apply Permutation_length in Hperm. simpl in Hperm.
    now rewrite !length_map in Hperm.
  - intros Hnd.
    assert (Hall : Permutation (map Task.id (BoardState.tasks state'))
                     (map Task.id (BoardState.tasks state))).
    { rewrite Hperm. symmetry. now apply unique_id_rest with (task := task). }
    split; [exact Hall|]. split.
    + eapply Permutation_NoDup; [symmetry; exact Hall | exact Hnd].
    + rewrite <- (length_map Task.id), <- (length_map Task.id
                                           (BoardState.tasks state)).
      now apply Permutation_length.
  - subst state'. unfold moveTask. now rewrite Hfind.
  - subst state'. unfold moveTask. now rewrite Hfind.
Qed.

Lemma moveTask_keeps_tasks_witness :
  Permutation
    (map Task.id
       (BoardState.tasks (moveTask Examples.threeTasks "a" "col-2" (-1))))
    (map Task.id (BoardState.tasks Examples.threeTasks))
  /\ List.length
       (BoardState.tasks (moveTask Examples.twoWithOneId "a" "col-2" 0))
     = 2%nat.
Proof.
  split.
  - apply (moveTask_keeps_tasks Examples.threeTasks "a" "col-2" (-1) eq_refl).
    repeat constructor; simpl; intuition discriminate.
  - exact (proj1 (proj2 (proj2 (moveTask_keeps_tasks Examples.twoWithOneId
                                  "a" "col-2" 0 eq_refl)))).
Defined.

(** ** [addTask] puts the new task last *)

Lemma In_countFrom (n : nat) : forall k x, In x (countFrom k n) -> k <= x < k + Z.of_nat n.
Proof.
  induction n as [|n IH]; intros k x; simpl; [contradiction|].
  intros [<-|H]; [lia|]. apply IH in H. lia.
Qed.

Lemma countFrom_snoc (n : nat) :
  forall k, countFrom k (S n) = countFrom k n ++ [k + Z.of_nat n].
Proof.
  induction n as [|n IH]; intros k.
  - simpl. now rewrite Z.add_0_r.
  - change (countFrom k (S (S n))) with (k :: countFrom (k + 1) (S n)).
    rewrite IH. simpl. do 3 f_equal. lia.
Qed.

Lemma sort_insert_snoc {A} (key : A -> Z) (y x : A) (l : list A) :
  key y <= key x ->
  Js.sort_insert (Js.ascending key) y (l ++ [x])
  = Js.sort_insert (Js.ascending key) y l ++ [x].
Proof.
  intros Hle. induction l as [|z l IH]; simpl.
  - unfold Js.ascending. destruct (Z.leb_spec (key y - key x) 0);
      [reflexivity | lia].
  - destruct (Js.ascending key y z <=? 0); [reflexivity|].
    now rewrite IH.
Qed.

Lemma sort_snoc {A} (key : A -> Z) (x : A) (l : list A) :
  Forall (fun y => key y <= key x) l ->
  Js.sort (Js.ascending key) (l ++ [x])
  = Js.sort (Js.ascending key) l ++ [x].
Proof.
  induction 1 as [|y l Hy _ IH]; simpl; [reflexivity|].
  rewrite IH. now apply sort_insert_snoc.
Qed.

(** [addTask] gives the new task the number of tasks of its column as
    order; if the orders of the column were 0..n-1 they are 0..n afterwards,
    and the tasks of the other columns are the same. *)
Theorem addTask_appends (state : BoardState.t) (nowId nowCreatedAt : Z)
  (columnId title : string) :
  let state' := fst (addTask state nowId nowCreatedAt columnId title) in
  let newTask := snd (addTask state nowId nowCreatedAt columnId title) in
  BoardState.tasks state' = BoardState.tasks state ++ [newTask]
  /\ Task.order newTask = Z.of_nat (columnSize state columnId)
  /\ (forall other,
         other <> columnId ->
         columnTasksByOrder state' other = columnTasksByOrder state other)
  /\ (contiguousOrders state columnId ->
      contiguousOrders state' columnId
      /\ columnTasksByOrder state' columnId
         = columnTasksByOrder state columnId ++ [newTask]).
Proof.
  simpl. split; [reflexivity|]. split; [reflexivity|]. split.
  - intros other Hother. unfold columnTasksByOrder; simpl.
    rewrite filter_app; simpl.
    destruct (String.eqb_spec columnId other); [congruence|].
    now rewrite app_nil_r.
  - intros Hcont. unfold contiguousOrders, columnTasksByOrder in *.
    simpl in *. rewrite filter_app; simpl. rewrite String.eqb_refl.
    set (inColumn := filter (fun t => String.eqb (Task.columnId t) columnId)
                       (BoardState.tasks state)) in *.
    set (newTask := Task.mk _ _ _ _ _ _ _ _ _ _ _ _ _).
    assert (Hsnoc :
      Js.sort (Js.ascending Task.order) (inColumn ++ [newTask])
      = Js.sort (Js.ascending Task.order) inColumn ++ [newTask]).
    { apply sort_snoc. apply Forall_forall. intros t Ht.
      assert (Hin : In (Task.order t)
                      (map Task.order
                         (Js.sort (Js.ascending Task.order) inColumn))).
      { apply in_map. now apply JsFacts.sort_In. }
      rewrite Hcont, JsFacts.sort_length in Hin.
      apply In_countFrom in Hin. simpl. lia. }
    rewrite Hsnoc. split; [|reflexivity].
    rewrite map_app, Hcont, length_app, JsFacts.sort_length. simpl.
    rewrite Nat.add_1_r, countFrom_snoc. reflexivity.
Qed.

End StoreFacts.

(* ================================================================== *)
(** * The ranked search: tokens, occurrences, merged ranges             *)
(* ================================================================== *)

Module TokenFacts.
Import Types FuzzySearch Spec.

Lemma blanked_char (c : ascii) :
  let c' := blankNonWord (Js.lowerChar c) in
  Js.isWhiteSpace c' = false -> isTokenChar c' = true.
Proof.
  destruct c as [[] [] [] [] [] [] [] []]; vm_compute; congruence.
Qed.

Lemma token_char_fixed (c : ascii) :
  isTokenChar c = true ->
  blankNonWord (Js.lowerChar c) = c /\ Js.isWhiteSpace c = false.
Proof.
  destruct c as [[] [] [] [] [] [] [] []]; vm_compute; intros H;
    (discriminate H || (split; reflexivity)).
Qed.

(** The pieces of [split(/\s+/)] are made of the characters of the text that
    are no white space. *)
Lemma splitWhiteSpace_chars (p : ascii -> bool) (s : string) :
  allChars (fun c => Js.isWhiteSpace c || p c) s = true ->
  Forall (fun w => allChars p w = true) (Js.splitWhiteSpace s).
Proof.
  induction s as [|c r IH]; simpl; intros H.
  - repeat constructor.
  - apply andb_prop in H as [Hc Hr]. specialize (IH Hr).
    destruct (Js.isWhiteSpace c) eqn:Ews.
    + destruct (Js.startsWithWhiteSpace r); [exact IH|].
      constructor; [reflexivity | exact IH].
    + simpl in Hc. destruct (Js.splitWhiteSpace r) as [|w ws].
      * repeat constructor. simpl. now rewrite Hc.
      * inversion IH; subst. constructor; [|assumption].
        simpl. now rewrite Hc.
Qed.

Lemma blanked_chars (text : string) :
  allChars (fun c => Js.isWhiteSpace c || isTokenChar c)
    (Js.map_string blankNonWord (Js.toLowerCase text)) = true.
Proof.
  unfold Js.toLowerCase. induction text as [|c r IH]; simpl; [reflexivity|].
  rewrite IH, andb_true_r.
  destruct (Js.isWhiteSpace (blankNonWord (Js.lowerChar c))) eqn:E;
    [reflexivity|]. simpl. now apply blanked_char.
Qed.

Lemma token_map_fixed (tok : string) :
  allChars isTokenChar tok = true ->
  Js.map_string blankNonWord (Js.toLowerCase tok) = tok.
Proof.
  unfold Js.toLowerCase. induction tok as [|c r IH]; simpl; intros H;
    [reflexivity|].
  apply andb_prop in H as [Hc Hr].
  apply token_char_fixed in Hc as [-> _]. now rewrite IH.
Qed.

Lemma splitWhiteSpace_word (tok : string) :
  allChars isTokenChar tok = true ->
  Js.splitWhiteSpace tok = [tok].
Proof.
  induction tok as [|c r IH]; simpl; intros H; [reflexivity|].
  apply andb_prop in H as [Hc Hr].
  apply token_char_fixed in Hc as [_ ->]. now rewrite IH.
Qed.

(** The tokens of any text are non-empty strings over [a-z0-9_], and a token
    is its own only token. *)
Theorem tokenize_tokens (text : string) :
  Forall (fun tok => isToken tok = true /\ tokenize tok = [tok])
    (tokenize text).
Proof.
  assert (Htok : Forall (fun tok => isToken tok = true) (tokenize text)).
  { unfold tokenize. apply Forall_forall. intros tok Hin.
    apply filter_In in Hin as [Hin Hne].
    unfold isToken. rewrite Hne. simpl.
    pose proof (splitWhiteSpace_chars isTokenChar _ (blanked_chars text))
      as Hall.
    rewrite Forall_forall in Hall. now apply Hall. }
  eapply Forall_impl; [|exact Htok]. intros tok H.
  split; [exact H|].
  unfold isToken in H. apply andb_prop in H as [Hne Hall].
  unfold tokenize.
  rewrite token_map_fixed, splitWhiteSpace_word by assumption.
  simpl. now rewrite Hne.
Qed.

End TokenFacts.

Module OccurrenceFacts.
Import Types FuzzySearch Spec.

Lemma occursAt_tail (c : ascii) (r q : string) (p : nat) :
  occursAt (String c r) q (S p) <-> occursAt r q p.
Proof. unfold occursAt; simpl. split; intros [H1 H2]; split; (lia || exact H2). Qed.

(** [indexOf] answers with the first occurrence at or after [pos]. *)
Lemma indexOf_go_first (q s : string) :
  q <> EmptyString ->
  forall pos k,
    match Js.indexOf_go q s pos k with
    | Some p =>
        exists p0, p = (k + p0)%nat /\ (pos <= p0)%nat /\ occursAt s q p0
                   /\ forall j, (pos <= j < p0)%nat -> ~ occursAt s q j
    | None => forall j, (pos <= j)%nat -> ~ occursAt s q j
    end.
Proof.
  intros Hq. induction s as [|c r IH]; intros [|pos] k; cbn [Js.indexOf_go].
  - destruct q as [|a q]; [congruence|]. simpl.
    intros j _ [Hj Hp]. destruct j; simpl in Hp; discriminate.
  - destruct q as [|a q]; [congruence|]. simpl.
    intros j Hge [Hj Hp]. simpl in Hj. lia.
  - destruct (String.prefix q (String c r)) eqn:E.
    + exists O. unfold occursAt. simpl Js.drop.
      repeat split; try lia; try exact E.
    + specialize (IH O (S k)).
      destruct (Js.indexOf_go q r 0 (S k)) as [p|].
      * destruct IH as [p0 [-> [_ [Hocc Hfirst]]]].
        exists (S p0). split; [lia|]. split; [lia|]. split.
        -- now apply occursAt_tail.
        -- intros [|j] Hj.
           ++ intros [_ Hp]. cbn [Js.drop] in Hp. congruence.
           ++ rewrite occursAt_tail. apply Hfirst. lia.
      * intros [|j] _.
        -- intros [_ Hp]. cbn [Js.drop] in Hp. congruence.
        -- rewrite occursAt_tail. apply IH. lia.
  - specialize (IH pos (S k)).
    destruct (Js.indexOf_go q r pos (S k)) as [p|].
    + destruct IH as [p0 [-> [Hpos [Hocc Hfirst]]]].
      exists (S p0). split; [lia|]. split; [lia|]. split.
      * now apply occursAt_tail.
      * intros [|j] Hj; [lia|]. rewrite occursAt_tail. apply Hfirst. lia.
    + intros [|j] Hj; [lia|]. rewrite occursAt_tail. apply IH. lia.
Qed.

Lemma occursAt_inside (s q : string) (p : nat) :
  q <> EmptyString -> occursAt s q p -> (p < String.length s)%nat.
Proof.
  intros Hq [Hle Hp]. destruct (Nat.eq_dec p (String.length s)); [|lia].
  subst p. exfalso. clear Hle. induction s as [|c r IH]; simpl in Hp.
  - destruct q; [congruence | discriminate].
  - now apply IH.
Qed.

(** The starts that the loop collects from [pos] on, in order. *)
Lemma findMatchIndices_loop_starts (lowerText lowerQuery : string) :
  lowerQuery <> EmptyString ->
  forall fuel pos,
    (String.length lowerText - pos < fuel)%nat ->
    let found := findMatchIndices_loop fuel lowerText lowerQuery pos in
    (forall r, In r found ->
       exists p, r = (Z.of_nat p, Z.of_nat p + Js.len lowerQuery)
                 /\ (pos <= p)%nat /\ occursAt lowerText lowerQuery p)
    /\ (forall p, (pos <= p)%nat -> occursAt lowerText lowerQuery p ->
          In (Z.of_nat p, Z.of_nat p + Js.len lowerQuery) found)
    /\ StronglySorted (fun a b => fst a < fst b) found.
Proof.
  intros Hq. induction fuel as [|fuel IH]; intros pos Hfuel; [lia|].
  cbn [findMatchIndices_loop]. unfold Js.indexOf.
  pose proof (indexOf_go_first lowerQuery lowerText Hq pos O) as Hfirst.
  destruct (Js.indexOf_go lowerQuery lowerText pos 0) as [p|].
  - destruct Hfirst as [p0 [-> [Hpos [Hocc Hnone]]]]. simpl Nat.add.
    pose proof (occursAt_inside _ _ _ Hq Hocc) as Hin.
    destruct (IH (S p0) ltac:(lia)) as [Hsound [Hcomplete Hsorted]].
    cbv zeta. split; [|split].
    + intros r [<-|Hr].
      * exists p0. auto.
      * apply Hsound in Hr as [p [-> [Hp Ho]]]. exists p.
        split; [reflexivity|]. split; [lia | exact Ho].
    + intros p Hp Ho.
      destruct (Nat.eq_dec p p0) as [->|Hne]; [now left|]. right.
      apply Hcomplete; [|exact Ho].
      destruct (Nat.lt_ge_cases p p0) as [Hlt|Hge]; [|lia].
      exfalso. apply (Hnone p); [lia | exact Ho].
    + constructor; [exact Hsorted|].
      apply Forall_forall. intros r Hr.
      apply Hsound in Hr as [p [-> [Hp _]]]. simpl. lia.
  - cbv zeta. split; [|split].
    + intros r [].
    + intros p Hp Ho. exfalso. now apply (Hfirst p).
    + constructor.
Qed.

(** For a query that is not empty, [findMatchIndices] returns the ranges of
    all occurrences of the lower-cased query in the lower-cased text, each
    once and by increasing start, overlapping ones included.  As in the
    source, a range ends [lowerQuery.length] after its start: the length is
    that of the lower-cased query. *)
Theorem findMatchIndices_occurrences (text query : string) :
  query <> EmptyString ->
  let lowerText := Js.toLowerCase text in
  let lowerQuery := Js.toLowerCase query in
  let found := findMatchIndices text query in
  (forall r, In r found <->
     exists p, r = (Z.of_nat p, Z.of_nat p + Js.len lowerQuery)
               /\ occursAt lowerText lowerQuery p)
  /\ StronglySorted (fun a b => fst a < fst b) found.
Proof.
  intros Hq. unfold findMatchIndices.
  assert (Hlq : Js.toLowerCase query <> EmptyString)
    by (destruct query; [congruence | discriminate]).
  destruct (findMatchIndices_loop_starts (Js.toLowerCase text)
              (Js.toLowerCase query) Hlq
              (S (String.length (Js.toLowerCase text))) O ltac:(lia))
    as [Hsound [Hcomplete Hsorted]].
  cbv zeta in *. split; [|exact Hsorted].
  intros r. split.
  - intros Hr. apply Hsound in Hr as [p [-> [_ Ho]]]. now exists p.
  - intros [p [-> Ho]]. apply Hcomplete; [lia | exact Ho].
Qed.

Lemma findMatchIndices_occurrences_witness :
  findMatchIndices "aAa" "aa" = [(0, 2); (1, 3)]
  /\ StronglySorted (fun a b => fst a < fst b) (findMatchIndices "aAa" "aa").
Proof.
  split; [reflexivity|].
  apply (findMatchIndices_occurrences "aAa" "aa"). discriminate.
Defined.

End OccurrenceFacts.

Module MergeFacts.
Import Types FuzzySearch Spec.

Lemma covers_perm (l l' : list Range) (x : Z) :
  Permutation l l' -> covers l x = covers l' x.
Proof.
  unfold covers. induction 1; simpl; try congruence.
  now rewrite !orb_assoc, (orb_comm (_ && _) (_ && _)).
Qed.

Lemma mergeIndices_loop_head (sorted : list Range) :
  forall last, exists e rest,
    mergeIndices_loop last sorted = (fst last, e) :: rest.
Proof.
  induction sorted as [|current rest IH]; intros [s e]; simpl.
  - now exists e, [].
  - destruct (fst current <=? e).
    + apply (IH (s, Z.max e (snd current))).
    + now exists e, (mergeIndices_loop current rest).
Qed.

Lemma mergeIndices_loop_separated (sorted : list Range) :
  forall last, separated (mergeIndices_loop last sorted) = true.
Proof.
  induction sorted as [|current rest IH]; intros [s e]; simpl;
    [reflexivity|].
  destruct (Z.leb_spec (fst current) e) as [Hov|Hgap]; [apply IH|].
  specialize (IH current).
  destruct (mergeIndices_loop_head rest current) as [e' [tl E]].
  rewrite E in IH |- *. cbn [separated fst snd] in *.
  rewrite IH, andb_true_r. now apply Z.ltb_lt.
Qed.

Lemma mergeIndices_loop_covers (x : Z) (sorted : list Range) :
  forall last,
    StronglySorted (fun a b => fst a <= fst b) (last :: sorted) ->
    covers (mergeIndices_loop last sorted) x = covers (last :: sorted) x.
Proof.
  induction sorted as [|current rest IH]; intros [s e] Hsorted;
    [reflexivity|].
  inversion Hsorted as [|? ? Htail Hhead]; subst.
  inversion Hhead as [|? ? Hsc Hsrest]; subst. simpl in Hsc.
  inversion Htail as [|? ? Htail' Hcrest]; subst.
  cbn [mergeIndices_loop fst snd].
  destruct (Z.leb_spec (fst current) e) as [Hov|Hgap].
  - rewrite IH by (constructor; assumption).
    unfold covers; cbn [existsb fst snd]. rewrite orb_assoc. f_equal.
    destruct current as [cs ce]; simpl in *.
    destruct (Z.leb_spec s x), (Z.ltb_spec x (Z.max e ce)),
      (Z.ltb_spec x e), (Z.leb_spec cs x), (Z.ltb_spec x ce);
      simpl; try reflexivity; lia.
  - change (covers ((s, e) :: mergeIndices_loop current rest) x)
      with (((s <=? x) && (x <? e))
            || covers (mergeIndices_loop current rest) x).
    now rewrite IH.
Qed.

Lemma mergeIndices_loop_length (sorted : list Range) :
  forall last,
    (List.length (mergeIndices_loop last sorted) <= S (List.length sorted))%nat.
Proof.
  induction sorted as [|current rest IH]; intros last; simpl; [lia|].
  destruct (fst current <=? snd last); simpl.
  - specialize (IH (fst last, Z.max (snd last) (snd current))). lia.
  - specialize (IH current). lia.
Qed.

(** [mergeIndices] keeps the covered positions: a position lies in one of
    the merged ranges exactly when it lies in one of the given ones.  The
    merged ranges are apart from each other (each ends strictly before the
    next starts), and they are not more than the given ones. *)
Theorem mergeIndices_same_cover (indices : list Range) :
  (forall x, covers (mergeIndices indices) x = covers indices x)
  /\ separated (mergeIndices indices) = true
  /\ (List.length (mergeIndices indices) <= List.length indices)%nat.
Proof.
  unfold mergeIndices.
  pose proof (JsFacts.sort_perm (Js.ascending fst) indices) as Hperm.
  pose proof (JsFacts.sort_ascending_sorted fst indices) as Hsorted.
  pose proof (JsFacts.sort_length (Js.ascending fst) indices) as Hlen.
  destruct (Js.sort (Js.ascending fst) indices) as [|first rest].
  - repeat split; try (simpl; lia).
    intros x. now rewrite (covers_perm _ _ x Hperm).
  - repeat split.
    + intros x. rewrite (covers_perm _ _ x Hperm).
      now apply mergeIndices_loop_covers.
    + apply mergeIndices_loop_separated.
    + pose proof (mergeIndices_loop_length rest first) as Hloop.
      simpl in Hlen. unfold Range in *. lia.
Qed.

End MergeFacts.

Module RankingFacts.
Import Types FuzzySearch Spec.

(** ** Blank texts *)

Lemma trimEnd_empty (s : string) :
  Js.trimEnd s = EmptyString -> allWhiteSpace s = true.
Proof.
  induction s as [|c r IH]; simpl; [reflexivity|].
  destruct (Js.trimEnd r); [|discriminate].
  destruct (Js.isWhiteSpace c); [|discriminate].
  intros _. now apply IH.
Qed.

Lemma trimStart_blank (s : string) :
  allWhiteSpace (Js.trimStart s) = true -> allWhiteSpace s = true.
Proof.
  induction s as [|c r IH]; simpl; [reflexivity|].
  destruct (Js.isWhiteSpace c) eqn:E; simpl; [exact IH|].
  now rewrite E.
Qed.

Lemma blank_allWhiteSpace (s : string) :
  String.eqb s EmptyString || (Js.len (Js.trim s) =? 0) = true ->
  allWhiteSpace s = true.
Proof.
  intros H. apply orb_prop in H as [H|H].
  - apply String.eqb_eq in H. now subst.
  - apply Z.eqb_eq in H. unfold Js.len, Js.trim in H.
    apply trimStart_blank, trimEnd_empty.
    destruct (Js.trimEnd (Js.trimStart s)); [reflexivity | simpl in H; lia].
Qed.

Lemma whiteSpace_no_word (c : ascii) :
  Js.isWhiteSpace c = true -> Js.isWordChar c = false.
Proof.
  destruct c as [[] [] [] [] [] [] [] []]; vm_compute; congruence.
Qed.

Lemma allWhiteSpace_noWordChar (s : string) :
  allWhiteSpace s = true -> noWordChar s = true.
Proof.
  induction s as [|c r IH]; simpl; [reflexivity|]. intros H.
  apply andb_prop in H as [Hc Hr].
  now rewrite (whiteSpace_no_word c Hc), IH.
Qed.

Lemma blank_no_tokens (s : string) :
  String.eqb s EmptyString || (Js.len (Js.trim s) =? 0) = true ->
  tokenize s = [].
Proof.
  intros H. now apply SearchFacts.tokenize_noWordChar,
              allWhiteSpace_noWordChar, blank_allWhiteSpace.
Qed.

Lemma lowerChar_whiteSpace (c : ascii) :
  Js.isWhiteSpace (Js.lowerChar c) = Js.isWhiteSpace c.
Proof. destruct c as [[] [] [] [] [] [] [] []]; reflexivity. Qed.

Lemma toLowerCase_allWhiteSpace (s : string) :
  allWhiteSpace (Js.toLowerCase s) = allWhiteSpace s.
Proof.
  unfold Js.toLowerCase. induction s as [|c r IH]; simpl; [reflexivity|].
  now rewrite lowerChar_whiteSpace, IH.
Qed.

Lemma drop_allWhiteSpace (s : string) :
  forall p, allWhiteSpace s = true -> allWhiteSpace (Js.drop p s) = true.
Proof.
  induction s as [|c r IH]; intros [|p] H; simpl in *; try assumption.
  apply andb_prop in H as [_ H]. now apply IH.
Qed.

Lemma prefix_allWhiteSpace (q : string) :
  forall s, String.prefix q s = true -> allWhiteSpace s = true ->
            allWhiteSpace q = true.
Proof.
  induction q as [|a q IH]; intros [|b s]; simpl; intros Hp Hs;
    try reflexivity; try discriminate.
  destruct (ascii_dec a b) as [->|]; [|discriminate].
  apply andb_prop in Hs as [Hb Hs]. rewrite Hb. simpl. now apply (IH s).
Qed.

(** A text of white space contains texts of white space only. *)
Lemma includes_allWhiteSpace (s q : string) :
  Js.includes s q = true -> allWhiteSpace s = true -> allWhiteSpace q = true.
Proof.
  unfold Js.includes, Js.indexOf. intros Hinc Hs.
  destruct q as [|a q]; [reflexivity|].
  pose proof (OccurrenceFacts.indexOf_go_first (String a q) s
                ltac:(discriminate) O O) as Hfirst.
  destruct (Js.indexOf_go (String a q) s 0 0); [|discriminate].
  destruct Hfirst as [p0 [_ [_ [[_ Hocc] _]]]].
  eapply prefix_allWhiteSpace; [exact Hocc|]. now apply drop_allWhiteSpace.
Qed.

(** ** Scores *)

Lemma tokenPair_nonneg (fieldValue queryToken valueToken : string) :
  0 <= fst (tokenPair fieldValue queryToken valueToken).
Proof.
  unfold tokenPair.
  destruct (String.eqb _ _); [simpl; lia|].
  destruct (Js.startsWith _ _); [simpl; lia|].
  destruct (Js.includes _ _); [simpl; lia|].
  cbv zeta. destruct (Qle_bool _ _) eqn:E; simpl; [lia|].
  assert (Hlt : (7 # 10 < stringSimilarity valueToken queryToken)%Q).
  { apply Qnot_le_lt. intros Hle. apply Qle_bool_iff in Hle. congruence. }
  assert (H : (0 <= stringSimilarity valueToken queryToken * 15)%Q).
  { apply Qmult_le_0_compat; [|discriminate].
    apply Qlt_le_weak. eapply Qlt_trans; [|exact Hlt]. reflexivity. }
  apply Qfloor_resp_le in H. exact H.
Qed.

Lemma tokenLoops_mono (fieldValue : string) (queryTokens valueTokens : list string) :
  forall acc, fst acc <= fst (tokenLoops fieldValue queryTokens valueTokens acc).
Proof.
  unfold tokenLoops.
  induction queryTokens as [|queryToken rest IH]; intros acc; simpl; [lia|].
  etransitivity; [|apply IH].
  destruct (Js.len queryToken <? 2); [lia|].
  generalize acc. clear.
  induction valueTokens as [|valueToken more IH]; intros acc; simpl; [lia|].
  etransitivity; [|apply IH].
  pose proof (tokenPair_nonneg fieldValue queryToken valueToken) as H.
  destruct (tokenPair fieldValue queryToken valueToken). simpl in *. lia.
Qed.

Lemma fuzzyMatchField_nonneg (fieldValue : string) (queryTokens : list string)
  (query : string) :
  0 <= f_score (fuzzyMatchField fieldValue queryTokens query).
Proof.
  unfold fuzzyMatchField.
  destruct (_ || _); [simpl; lia|]. cbv zeta.
  destruct (String.eqb _ _); [simpl; lia|].
  match goal with
  | |- context [tokenLoops ?f ?q ?v ?acc] =>
      pose proof (tokenLoops_mono f q v acc) as Hloops;
      assert (Hacc : 0 <= fst acc)
  end.
  { destruct (Js.includes _ _), (Js.startsWith _ _), (existsb _ _);
      simpl; lia. }
  destruct queryTokens as [|tok [|tok' toks]]; cbv beta iota in *;
    [ | destruct (_ && _) | ]; cbn [f_score fst] in *; lia.
Qed.

(** The second bonus: a field that contains the query scores 80 at least. *)
Lemma fuzzyMatchField_contains (fieldValue : string)
  (queryTokens : list string) (query : string) :
  String.eqb fieldValue EmptyString || (Js.len (Js.trim fieldValue) =? 0)
  = false ->
  containsIgnoringCase fieldValue query = true ->
  80 <= f_score (fuzzyMatchField fieldValue queryTokens query).
Proof.
  unfold containsIgnoringCase, fuzzyMatchField. intros -> Hinc. cbv zeta.
  destruct (String.eqb _ _); [simpl; lia|]. rewrite Hinc.
  match goal with
  | |- context [tokenLoops ?f ?q ?v ?acc] =>
      pose proof (tokenLoops_mono f q v acc) as Hloops;
      assert (Hacc : 80 <= fst acc)
  end.
  { destruct (Js.startsWith _ _), (existsb _ _); simpl; lia. }
  destruct queryTokens as [|tok [|tok' toks]]; cbv beta iota in *;
    [ | destruct (_ && _) | ]; cbn [f_score fst] in *; lia.
Qed.

(** ** The matches of a task *)

Lemma pushMatch_positive name fieldValue weight queryTokens query :
  0 < weight ->
  Forall (fun m => 0 < score m)
    (pushMatch name fieldValue weight queryTokens query).
Proof.
  intros Hw. unfold pushMatch.
  destruct (f_score (fuzzyMatchField fieldValue queryTokens query) >? 0)
    eqn:E; constructor; [|constructor].
  apply Z.gtb_lt in E. simpl. lia.
Qed.

Lemma searchTask_positive (t : Task.t) (query : string) (tags : list Tag.t) :
  Forall (fun m => 0 < score m) (searchTask t query tags).
Proof.
  unfold searchTask. destruct (tokenize query) as [|tok toks]; [constructor|].
  repeat (apply Forall_app; split);
    try (apply pushMatch_positive; reflexivity);
    apply Forall_flat_map, Forall_forall; intros x _.
  - destruct (find _ tags);
      [apply pushMatch_positive; reflexivity | constructor].
  - apply pushMatch_positive; reflexivity.
  - apply pushMatch_positive; reflexivity.
  - apply Forall_app. split; [apply pushMatch_positive; reflexivity|].
    destruct (Attachment.type x);
      (apply pushMatch_positive; reflexivity) || constructor.
Qed.

Lemma fold_scores (ms : list SearchMatch) :
  Forall (fun m => 0 < score m) ms ->
  forall a,
    a <= fold_left (fun sum m => sum + score m) ms a
    /\ forall m, In m ms ->
                 a + score m <= fold_left (fun sum m => sum + score m) ms a.
Proof.
  induction 1 as [|m0 ms Hm0 Hms IH]; intros a; simpl.
  - split; [lia | intros m []].
  - destruct (IH (a + score m0)) as [Hle Hin]. split; [lia|].
    intros m [<-|Hm]; [lia|]. specialize (Hin m Hm). lia.
Qed.

(** ** The order of the results *)

(** The sort keeps the results of equal score in the order they had. *)
Lemma filter_sort_insert_descending {A} (key : A -> Z) (k : Z) (x : A)
  (l : list A) :
  filter (fun r => key r =? k) (Js.sort_insert (Js.descending key) x l)
  = filter (fun r => key r =? k) (x :: l).
Proof.
  induction l as [|y l IH]; [reflexivity|].
  cbn [Js.sort_insert]. unfold Js.descending at 1.
  destruct (Z.leb_spec (key y - key x) 0) as [Hle|Hgt]; [reflexivity|].
  cbn [filter] in *. rewrite IH.
  destruct (Z.eqb_spec (key x) k), (Z.eqb_spec (key y) k);
    try reflexivity; lia.
Qed.

Lemma filter_sort_descending {A} (key : A -> Z) (k : Z) (l : list A) :
  filter (fun r => key r =? k) (Js.sort (Js.descending key) l)
  = filter (fun r => key r =? k) l.
Proof.
  induction l as [|x l IH]; [reflexivity|].
  change (Js.sort (Js.descending key) (x :: l))
    with (Js.sort_insert (Js.descending key) x
            (Js.sort (Js.descending key) l)).
  rewrite filter_sort_insert_descending. cbn [filter]. now rewrite IH.
Qed.

Lemma blank_collects_nothing (columns : list ColumnWithTasks)
  (query : string) (tags : list Tag.t) :
  String.eqb query EmptyString || (Js.len (Js.trim query) =? 0) = true ->
  collectResults columns query tags = [].
Proof.
  intros Hblank. unfold collectResults.
  apply SearchFacts.flat_map_nil. intros col _.
  apply SearchFacts.flat_map_nil. intros t _. unfold taskResult.
  now rewrite SearchFacts.searchTask_no_tokens by now apply blank_no_tokens.
Qed.

(** What [fuzzySearchTasks] returns is ranked: the total scores never
    increase along the list, results of equal total score stand in the order
    in which the columns and their tasks were visited, and every result
    carries the matches of its task, one at least, each with a positive
    score that the total, their sum, is not below. *)
Theorem fuzzySearchTasks_ranking (columns : list ColumnWithTasks)
  (query : string) (tags : list Tag.t) :
  let found := fuzzySearchTasks columns query tags in
  StronglySorted (fun a b => totalScore b <= totalScore a) found
  /\ (forall k,
        filter (fun r => totalScore r =? k) found
        = filter (fun r => totalScore r =? k)
            (collectResults columns query tags))
  /\ Forall
       (fun r =>
          matches r = searchTask (task r) query tags
          /\ matches r <> []
          /\ taskId r = Task.id (task r)
          /\ totalScore r = sumScores (matches r)
          /\ Forall (fun m => 0 < score m <= totalScore r) (matches r))
       found.
Proof.
  unfold fuzzySearchTasks.
  destruct (String.eqb query EmptyString || (Js.len (Js.trim query) =? 0))
    eqn:Hblank; cbv zeta.
  - rewrite blank_collects_nothing by assumption.
    repeat split; constructor.
  - split; [apply JsFacts.sort_descending_sorted|].
    split; [intros k; apply filter_sort_descending|].
    apply Forall_forall. intros r Hr.
    apply JsFacts.sort_In, SearchFacts.collectResults_In in Hr
      as [col [t [_ [_ [Hne ->]]]]].
    cbn [matches task taskId totalScore].
    repeat split; try assumption.
    pose proof (searchTask_positive t query tags) as Hpos.
    apply Forall_forall. intros m Hm.
    destruct (fold_scores _ Hpos 0) as [_ Hsum].
    rewrite Forall_forall in Hpos.
    specialize (Hpos m Hm). specialize (Hsum m Hm).
    unfold sumScores. lia.
Qed.

(** ** Titles that contain the query *)

Lemma query_with_token_not_blank (query : string) :
  tokenize query <> [] ->
  String.eqb query EmptyString || (Js.len (Js.trim query) =? 0) = false.
Proof.
  intros Htok.
  destruct (String.eqb query EmptyString || (Js.len (Js.trim query) =? 0))
    eqn:E; [|reflexivity].
  now apply blank_no_tokens in E.
Qed.

Lemma containing_field_not_blank (fieldValue query : string) :
  tokenize query <> [] ->
  containsIgnoringCase fieldValue query = true ->
  String.eqb fieldValue EmptyString || (Js.len (Js.trim fieldValue) =? 0)
  = false.
Proof.
  intros Htok Hinc.
  destruct (String.eqb fieldValue EmptyString
            || (Js.len (Js.trim fieldValue) =? 0)) eqn:E; [|reflexivity].
  exfalso. apply Htok.
  apply SearchFacts.tokenize_noWordChar, allWhiteSpace_noWordChar.
  rewrite <- toLowerCase_allWhiteSpace.
  eapply includes_allWhiteSpace; [exact Hinc|].
  rewrite toLowerCase_allWhiteSpace. now apply blank_allWhiteSpace.
Qed.

(** The ranked search of the search bar does not miss a title that contains
    the query: when the query has a token, a task of the board that sits in
    one of the columns and whose title contains the query, letter case
    apart, is among the results, with a match on the title of score 800 at
    least. *)
Theorem title_containing_query_ranked (columns : list Column.t)
  (tasks : list Task.t) (tags : list Tag.t) (query : string) (t : Task.t) :
  In t tasks ->
  existsb (fun col => String.eqb (Column.id col) (Task.columnId t)) columns
  = true ->
  tokenize query <> [] ->
  containsIgnoringCase (Task.title t) query = true ->
  exists r,
    In r (SearchBar.results columns tasks tags query)
    /\ task r = t
    /\ 800 <= totalScore r
    /\ exists m, In m (matches r) /\ field m = "title"
                 /\ value m = Task.title t /\ 800 <= score m.
Proof.
  intros Ht Hcol Htok Hinc.
  unfold SearchBar.results, fuzzySearchTasks.
  rewrite (query_with_token_not_blank query Htok).
  apply existsb_exists in Hcol as [col [Hcol Hid]].
  destruct (SearchFacts.searchTask_title_first t query tags Htok)
    as [others [Hsearch _]].
  pose proof (fuzzyMatchField_contains (Task.title t) (tokenize query) query
                (containing_field_not_blank _ _ Htok Hinc) Hinc) as Hscore.
  unfold pushMatch in Hsearch.
  destruct (Z.gtb_spec
              (f_score (fuzzyMatchField (Task.title t) (tokenize query) query))
              0) as [_|Hle]; [|lia].
  set (m := mkMatch "title" (Task.title t)
              (f_score (fuzzyMatchField (Task.title t) (tokenize query) query)
               * FIELD_WEIGHTS.title)
              (f_indices
                 (fuzzyMatchField (Task.title t) (tokenize query) query)))
    in Hsearch.
  assert (Hm : In m (searchTask t query tags))
    by (rewrite Hsearch; now left).
  assert (Hms : 800 <= score m)
    by (unfold m, FIELD_WEIGHTS.title; simpl; lia).
  exists (mkResult (Task.id t) (Column.id col) t (searchTask t query tags)
            (sumScores (searchTask t query tags))).
  split; [|split; [reflexivity|split]].
  - apply JsFacts.sort_In, SearchFacts.collectResults_In.
    exists (mkColumn col
              (filter (fun t' => String.eqb (Task.columnId t') (Column.id col))
                 tasks)), t.
    split; [|split; [|split; [|reflexivity]]].
    + unfold SearchBar.columnsWithTasks.
      apply in_map_iff. now exists col.
    + cbn [FuzzySearch.tasks]. apply filter_In. split; [exact Ht|].
      now rewrite String.eqb_sym.
    + intros Hnil. rewrite Hnil in Hm. exact Hm.
  - cbn [totalScore].
    destruct (fold_scores _ (searchTask_positive t query tags) 0)
      as [_ Hsum].
    specialize (Hsum m Hm). unfold sumScores. lia.
  - exists m. cbn [matches]. repeat split; assumption.
Qed.

Lemma title_containing_query_ranked_witness :
  exists r,
    In r (SearchBar.results
            [Column.mk "col-1" "To Do" 0; Column.mk "col-2" "Doing" 1]
            [Examples.fixBug; Examples.fixTheButtonBug]
            Database.defaultTags "BUTTON")
    /\ task r = Examples.fixTheButtonBug
    /\ 800 <= totalScore r
    /\ exists m, In m (matches r) /\ field m = "title"
                 /\ value m = Task.title Examples.fixTheButtonBug
                 /\ 800 <= score m.
Proof.
  apply (title_containing_query_ranked
           [Column.mk "col-1" "To Do" 0; Column.mk "col-2" "Doing" 1]
           [Examples.fixBug; Examples.fixTheButtonBug]
           Database.defaultTags "BUTTON" Examples.fixTheButtonBug).
  - right; left; reflexivity.
  - reflexivity.
  - vm_compute. discriminate.
  - reflexivity.
Defined.

(** The results of the search bar come from the board: the task of every
    result is a task of the board, the column of the result is the column
    that the task names and is one of the columns of the board; so a task
    whose column is not on the board is never found. *)
Theorem results_from_board (columns : list Column.t) (tasks : list Task.t)
  (tags : list Tag.t) (query : string) :
  Forall
    (fun r =>
       In (task r) tasks
       /\ columnId r = Task.columnId (task r)
       /\ taskId r = Task.id (task r)
       /\ existsb (fun col => String.eqb (Column.id col) (columnId r)) columns
          = true)
    (SearchBar.results columns tasks tags query)
  /\ forall t,
       existsb (fun col => String.eqb (Column.id col) (Task.columnId t))
         columns = false ->
       Forall (fun r => task r <> t)
         (SearchBar.results columns tasks tags query).
Proof.
  assert (Hall :
    Forall
      (fun r =>
         In (task r) tasks
         /\ columnId r = Task.columnId (task r)
         /\ taskId r = Task.id (task r)
         /\ existsb (fun col => String.eqb (Column.id col) (columnId r))
              columns = true)
      (SearchBar.results columns tasks tags query)).
  { unfold SearchBar.results, fuzzySearchTasks.
    destruct (_ || _); [constructor|].
    apply Forall_forall. intros r Hr.
    apply JsFacts.sort_In, SearchFacts.collectResults_In in Hr
      as [cwt [t [Hcwt [Ht [_ ->]]]]].
    unfold SearchBar.columnsWithTasks in Hcwt.
    apply in_map_iff in Hcwt as [col [<- Hcol]].
    cbn [FuzzySearch.tasks FuzzySearch.column] in *.
    apply filter_In in Ht as [Ht Hid]. apply String.eqb_eq in Hid.
    cbn [task columnId taskId]. repeat split; try congruence.
    apply existsb_exists. exists col. split; [exact Hcol|].
    apply String.eqb_refl. }
  split; [exact Hall|].
  intros t Hunknown. eapply Forall_impl; [|exact Hall].
  intros r [_ [Hcol [_ Hknown]]] Heq.
  rewrite Hcol, Heq in Hknown. congruence.
Qed.

End RankingFacts.

(* ================================================================== *)
(** * Edit distance and previews                                       *)
(* ================================================================== *)

Module DistanceFacts.
Import Types FuzzySearch Spec.

Lemma firstRow_bounded (str2 : string) :
  forall j, 0 <= j -> rowBounded 0 j (firstRow j str2).
Proof.
  induction str2 as [|d r IH]; intros j Hj; simpl.
  - split; [lia | exact I].
  - split; [lia | apply IH; lia].
Qed.

Lemma firstRow_length (str2 : string) :
  forall j, List.length (firstRow j str2) = S (String.length str2).
Proof. induction str2 as [|d r IH]; intros j; simpl; [|rewrite IH]; reflexivity. Qed.

Lemma fillRow_bounded (c : ascii) (i : Z) (str2 : string) :
  1 <= i ->
  forall above j diag left,
    1 <= j ->
    Z.abs (i - j) <= diag <= Z.max (i - 1) (j - 1) ->
    Z.abs (i - (j - 1)) <= left <= Z.max i (j - 1) ->
    rowBounded (i - 1) j above ->
    rowBounded i j (fillRow c str2 diag above left).
Proof.
  intros Hi. induction str2 as [|d r IH];
    intros [|up above] j diag left Hj Hdiag Hleft Habove; simpl;
    try exact I.
  destruct Habove as [Hup Habove].
  assert (Hcell :
    Z.abs (i - j)
    <= (if Ascii.eqb c d then diag else 1 + Z.min up (Z.min left diag))
    <= Z.max i j) by (destruct (Ascii.eqb c d); lia).
  split; [exact Hcell|].
  apply IH; try lia; try assumption.
  replace (j + 1 - 1) with j by lia. exact Hcell.
Qed.

Lemma fillRow_length (c : ascii) (str2 : string) :
  forall above diag left,
    List.length (fillRow c str2 diag above left)
    = Nat.min (String.length str2) (List.length above).
Proof.
  induction str2 as [|d r IH]; intros [|up above] diag left; simpl;
    try reflexivity.
  now rewrite IH.
Qed.

Lemma nextRow_bounded (i : Z) (c : ascii) (str2 : string) (prev : list Z) :
  1 <= i -> rowBounded (i - 1) 0 prev ->
  rowBounded i 0 (nextRow i c str2 prev).
Proof.
  intros Hi Hprev. destruct prev as [|diag above]; simpl.
  - split; [lia | exact I].
  - destruct Hprev as [Hdiag Habove]. split; [lia|].
    apply fillRow_bounded; try lia. exact Habove.
Qed.

Lemma nextRow_length (i : Z) (c : ascii) (str2 : string) (prev : list Z) :
  List.length prev = S (String.length str2) ->
  List.length (nextRow i c str2 prev) = S (String.length str2).
Proof.
  destruct prev as [|diag above]; simpl; [discriminate|].
  intros [= H]. rewrite fillRow_length, H. f_equal. apply Nat.min_id.
Qed.

Lemma rows_bounded (str2 : string) (str1 : string) :
  forall i prev,
    1 <= i -> rowBounded (i - 1) 0 prev ->
    List.length prev = S (String.length str2) ->
    rowBounded (i - 1 + Js.len str1) 0 (rows i str1 str2 prev)
    /\ List.length (rows i str1 str2 prev) = S (String.length str2).
Proof.
  induction str1 as [|c r IH]; intros i prev Hi Hprev Hlen.
  - simpl. unfold Js.len. simpl. rewrite Z.add_0_r. now split.
  - cbn [rows].
    destruct (IH (i + 1) (nextRow i c str2 prev)) as [Hb Hl]; try lia.
    + replace (i + 1 - 1) with i by lia. now apply nextRow_bounded.
    + now apply nextRow_length.
    + split; [|exact Hl].
      replace (i - 1 + Js.len (String c r)) with (i + 1 - 1 + Js.len r)
        by (unfold Js.len; simpl String.length; lia).
      exact Hb.
Qed.

Lemma last_bounded (i : Z) (row : list Z) :
  forall j,
    rowBounded i j row -> row <> [] ->
    let k := j + Z.of_nat (List.length row) - 1 in
    Z.abs (i - k) <= last row 0 <= Z.max i k.
Proof.
  induction row as [|v rest IH]; intros j Hrow Hne; [congruence|].
  destruct Hrow as [Hv Hrest]. destruct rest as [|w rest'].
  - simpl. replace (j + 1 - 1) with j by lia. exact Hv.
  - specialize (IH (j + 1) Hrest ltac:(discriminate)).
    cbv zeta in *. change (last (v :: w :: rest') 0) with (last (w :: rest') 0).
    replace (j + Z.of_nat (List.length (v :: w :: rest')) - 1)
      with (j + 1 + Z.of_nat (List.length (w :: rest')) - 1)
      by (simpl List.length; lia).
    exact IH.
Qed.

(** The edit distance of two strings lies between the difference of their
    lengths and the larger length; so the similarity that [fuzzyMatchField]
    compares with 0.7 lies between 0 and 1. *)
Theorem levenshteinDistance_bounds (str1 str2 : string) :
  Z.abs (Js.len str1 - Js.len str2) <= levenshteinDistance str1 str2
  /\ levenshteinDistance str1 str2 <= Z.max (Js.len str1) (Js.len str2)
  /\ (0 <= stringSimilarity str1 str2)%Q
  /\ (stringSimilarity str1 str2 <= 1)%Q.
Proof.
  assert (Hd : forall a b,
    Z.abs (Js.len a - Js.len b) <= levenshteinDistance a b
    <= Z.max (Js.len a) (Js.len b)).
  { intros a b. unfold levenshteinDistance.
    destruct (rows_bounded b a 1 (firstRow 0 b)) as [Hb Hl].
    - lia.
    - apply firstRow_bounded. lia.
    - apply firstRow_length.
    - pose proof (last_bounded _ _ 0 Hb) as Hlast.
      rewrite Hl in Hlast. cbv zeta in Hlast.
      assert (Hne : rows 1 a b (firstRow 0 b) <> [])
        by (intros E; rewrite E in Hl; discriminate).
      specialize (Hlast Hne). unfold Js.len in *. lia. }
  split; [apply Hd|]. split; [apply Hd|].
  unfold stringSimilarity. cbv zeta.
  destruct (Z.gtb_spec (Js.len str1) (Js.len str2)) as [Hgt|Hle].
  - destruct (Z.eqb_spec (Js.len str1) 0) as [H0|Hpos];
      [split; discriminate|].
    pose proof (Hd str1 str2) as H. unfold Js.len in *.
    unfold Qle; simpl. rewrite Z2Pos.id by lia. split; lia.
  - destruct (Z.eqb_spec (Js.len str2) 0) as [H0|Hpos];
      [split; discriminate|].
    pose proof (Hd str2 str1) as H. unfold Js.len in *.
    unfold Qle; simpl. rewrite Z2Pos.id by lia. split; lia.
Qed.

End DistanceFacts.

Module PreviewFacts.
Import Types FuzzySearch Spec.

Lemma take_length_le (n : nat) (s : string) :
  (String.length (Js.take n s) <= n)%nat.
Proof.
  revert s; induction n as [|n IH]; intros [|c r]; simpl; try lia.
  specialize (IH r). lia.
Qed.

Lemma append_length (a b : string) :
  String.length (String.append a b) = (String.length a + String.length b)%nat.
Proof. induction a as [|c a IH]; simpl; [reflexivity | now rewrite IH]. Qed.

Lemma slice_length (s : string) (from to : Z) :
  Js.len (Js.slice s from to)
  <= Z.max (Js.clampIndex (Js.len s) to - Js.clampIndex (Js.len s) from) 0.
Proof.
  unfold Js.slice. cbv zeta.
  pose proof (take_length_le
                (Z.to_nat (Z.max (Js.clampIndex (Js.len s) to
                                   - Js.clampIndex (Js.len s) from) 0))
                (Js.drop (Z.to_nat (Js.clampIndex (Js.len s) from)) s)) as H.
  unfold Js.len at 1. lia.
Qed.

(** For a limit that is not negative the preview is never longer than the
    limit and the two ellipses; and a value within the limit whose first
    match starts within the first 15 code units is shown as it is. *)
Theorem getMatchPreview_bounded (value : string) (indices : list Range)
  (maxLength : Z) :
  0 <= maxLength ->
  Js.len (getMatchPreview value indices maxLength) <= maxLength + 6
  /\ (Js.len value <= maxLength ->
      (forall r, hd_error indices = Some r -> fst r <= 15) ->
      getMatchPreview value indices maxLength = value).
Proof.
  intros Hmax.
  assert (Hplain :
    Js.len (Js.slice value 0 maxLength) <= maxLength + 6
    /\ (Js.len value <= maxLength -> Js.slice value 0 maxLength = value)).
  { split.
    - pose proof (slice_length value 0 maxLength) as H.
      unfold Js.clampIndex in H. unfold Js.len in *.
      destruct (Z.ltb_spec maxLength 0), (Z.ltb_spec 0 0); lia.
    - intros Hfit. unfold Js.slice, Js.clampIndex, Js.len in *.
      destruct (Z.ltb_spec maxLength 0), (Z.ltb_spec 0 0); try lia.
      rewrite (Z.min_l 0) by lia. simpl Js.drop.
      apply JsFacts.take_length_ge. lia. }
  unfold getMatchPreview.
  destruct (String.eqb value EmptyString) eqn:Eempty;
    [split; [apply Hplain | intros Hfit _; now apply Hplain]|].
  destruct indices as [|firstMatch rest];
    [split; [apply Hplain | intros Hfit _; now apply Hplain]|].
  cbv zeta. set (start := Z.max 0 (fst firstMatch - 15)).
  set (end_ := Z.min (Js.len value) (start + maxLength)).
  assert (Hlen : 0 <= Js.len value) by (unfold Js.len; lia).
  split.
  - pose proof (slice_length value start end_) as Hslice.
    assert (Hcore : Js.len (Js.slice value start end_) <= maxLength).
    { unfold Js.clampIndex in Hslice.
      destruct (Z.ltb_spec end_ 0), (Z.ltb_spec start 0); lia. }
    unfold Js.len in *.
    destruct (start >? 0), (end_ <? Z.of_nat (String.length value));
      rewrite ?append_length; simpl String.length; lia.
  - intros Hfit Hfirst. specialize (Hfirst firstMatch eq_refl).
    assert (Hstart : start = 0) by lia.
    assert (Hend : end_ = Js.len value) by lia.
    rewrite Hstart, Hend, Z.ltb_irrefl. simpl (0 >? 0).
    apply JsFacts.slice_whole.
Qed.

Lemma getMatchPreview_bounded_witness :
  Js.len (getMatchPreview "Fix the button bug in the login form"
            [(8, 14)] 10) <= 10 + 6.
Proof.
  apply (getMatchPreview_bounded "Fix the button bug in the login form"
           [(8, 14)] 10). lia.
Defined.

End PreviewFacts.

(* ================================================================== *)
(** * The plain search of the hook (useDatabase.ts)                    *)
(* ================================================================== *)

Module PlainSearchFacts.
Import Types Database Spec.

Lemma filterM_pure {A} (f : A -> Js.Exc bool) (p : A -> bool) (l : list A) :
  (forall x, In x l -> f x = Js.Normal (p x)) ->
  filterM f l = Js.Normal (filter p l).
Proof.
  induction l as [|x l IH]; intros H; simpl; [reflexivity|].
  rewrite (H x) by now left. simpl.
  rewrite IH by (intros y Hy; apply H; now right). reflexivity.
Qed.

Lemma filterM_throws {A} (f : A -> Js.Exc bool) (e : Js.Error) (l : list A) :
  (forall y e', In y l -> f y = Js.Throw e' -> e' = e) ->
  (exists x, In x l /\ f x = Js.Throw e) ->
  filterM f l = Js.Throw e.
Proof.
  induction l as [|y l IH]; intros Hall [x [Hin Hx]]; [contradiction|].
  simpl. destruct (f y) as [b|e'] eqn:Ey; simpl.
  - destruct Hin as [->|Hin]; [congruence|].
    rewrite IH; [reflexivity | | now exists x].
    intros z e' Hz. apply Hall. now right.
  - f_equal. apply (Hall y); [now left | exact Ey].
Qed.

Lemma searchTasks_filter_complete (state : BoardState.t) (query : string)
  (task : Task.t) :
  BoardState.tags state <> None -> taskComplete task = true ->
  searchTasks_filter state (Js.toLowerCase query) task
  = Js.Normal (plainHit state query task).
Proof.
  intros Htags Htask. unfold taskComplete in Htask.
  unfold searchTasks_filter, plainHit, containsLower, containsIgnoringCase.
  destruct (BoardState.tags state) as [tags|]; [|congruence].
  destruct (Task.status task), (Task.subtasks task) as [subtasks|],
    (Task.attachments task), (Task.tags task) as [ids|];
    try discriminate Htask.
  cbn [or_default defined Js.bind].
  destruct (Js.includes (Js.toLowerCase (Task.title task)) _);
    [reflexivity|].
  destruct (match Task.description task with Some _ => _ | None => _ end);
    [reflexivity|].
  destruct (existsb _ (Task.notes task)); [reflexivity|].
  destruct (existsb _ subtasks); [reflexivity|]. cbn [orb].
  rewrite (filterM_pure _
             (fun tag => existsb (String.eqb (Tag.id tag)) ids))
    by reflexivity.
  cbn [Js.bind]. now destruct (existsb _ _).
Qed.

Lemma searchTasks_filter_TypeError (state : BoardState.t)
  (lowerQuery : string) (task : Task.t) (e : Js.Error) :
  searchTasks_filter state lowerQuery task = Js.Throw e -> e = Js.TypeError.
Proof.
  unfold searchTasks_filter.
  repeat match goal with
         | |- context [if ?b then _ else _] => destruct b; try discriminate
         end.
  destruct (Task.subtasks task); cbn [defined Js.bind];
    [|now intros [= <-]].
  destruct (existsb _ _); try discriminate.
  destruct (BoardState.tags state) as [tags|]; cbn [defined Js.bind];
    [|now intros [= <-]].
  destruct (Task.tags task) as [ids|].
  - rewrite (filterM_pure _
               (fun tag => existsb (String.eqb (Tag.id tag)) ids))
      by reflexivity.
    cbn [Js.bind]. destruct (existsb _ _); discriminate.
  - destruct tags as [|tag tags]; cbn; [discriminate | now intros [= <-]].
Qed.

(** On a board on which nothing is missing, [searchTasks] does not throw:
    for a blank query it returns nothing, and otherwise the tasks with a
    field that contains the query, in the order of the board. *)
Theorem searchTasks_complete_board (state : BoardState.t) (query : string) :
  complete state = true ->
  searchTasks state query
  = Js.Normal
      (if String.eqb (Js.trim query) EmptyString then []
       else filter (plainHit state query) (BoardState.tasks state)).
Proof.
  intros Hc. unfold complete in Hc. apply andb_prop in Hc as [Htasks Htags].
  unfold searchTasks.
  destruct (String.eqb (Js.trim query) EmptyString); [reflexivity|].
  apply filterM_pure. intros task Hin.
  apply searchTasks_filter_complete.
  - destruct (BoardState.tags state); [discriminate | discriminate Htags].
  - rewrite forallb_forall in Htasks. now apply Htasks.
Qed.

Lemma searchTasks_complete_board_witness :
  searchTasks Examples.taggedBoard "URG"
  = Js.Normal (BoardState.tasks Examples.taggedBoard).
Proof.
  exact (searchTasks_complete_board Examples.taggedBoard "URG" eq_refl).
Defined.

(** On a board that came in without migration, [searchTasks] throws a
    TypeError as soon as the query is not blank and a task without
    checklist misses it in title, description and notes. *)
Theorem searchTasks_legacy_throws (state : BoardState.t) (query : string)
  (task : Task.t) :
  String.eqb (Js.trim query) EmptyString = false ->
  In task (BoardState.tasks state) ->
  Task.subtasks task = None ->
  readsSubtasks query task = true ->
  searchTasks state query = Js.Throw Js.TypeError.
Proof.
  intros Hq Hin Hsub Hreads. unfold searchTasks. rewrite Hq.
  apply filterM_throws.
  - intros y e' _. apply searchTasks_filter_TypeError.
  - exists task. split; [exact Hin|].
    unfold readsSubtasks, containsIgnoringCase in Hreads.
    apply andb_prop in Hreads as [Hreads Hnotes].
    apply andb_prop in Hreads as [Htitle Hdesc].
    apply negb_true_iff in Htitle, Hdesc, Hnotes.
    unfold searchTasks_filter, containsLower.
    rewrite Htitle, Hdesc, Hnotes, Hsub. reflexivity.
Qed.

Lemma searchTasks_legacy_throws_witness :
  searchTasks Sample.legacyBoard "button" = Js.Throw Js.TypeError.
Proof.
  apply (searchTasks_legacy_throws Sample.legacyBoard "button"
           Sample.legacyTask); try reflexivity.
  now left.
Defined.

End PlainSearchFacts.

(* ================================================================== *)
(** * Recovery: what is read back, and from where                      *)
(* ================================================================== *)

Module TierFacts.
Import Types RecoveryManager Spec.

Section Tiers.
Context `{Platform}.



(** A tier that answers read data that passes the check and decodes. *)
Lemma tierAnswer_holds (st : Stores) (tier : Source) (r : Recovery) :
  tierAnswer st tier = Js.Normal (Some r) ->
  exists data hash s,
    r = mkRecovery true (Some s) (Some tier)
    /\ tierHolds st tier data hash
    /\ verifyHash data hash = true
    /\ decompressBackup data = Some s.
Proof.
  destruct tier; simpl.
  - unfold tier_indexeddb.
    destruct (idb_get_backup st) as [[[d t h]|]|] eqn:Eget; simpl;
      try discriminate.
    destruct (verifyHash d h) eqn:Ev; try discriminate.
    destruct (decompressBackup d) as [s|] eqn:Ed; try discriminate.
    destruct (Dynamic.truthy_value s); try discriminate.
    intros [= <-]. exists d, h, s. repeat split; try assumption.
    now exists t.
  - unfold tier_localstorage.
    destruct (localStorage_getItem st RECOVERY_STORAGE_KEY) as [b|] eqn:Eb;
      simpl; try discriminate.
    destruct (localStorage_getItem st RECOVERY_HASH_KEY) as [h|] eqn:Eh;
      simpl; try discriminate.
    destruct b as [b|], h as [h|]; try discriminate.
    destruct (truthy (Some b) && truthy (Some h)); simpl; try discriminate.
    destruct (verifyHash b h) eqn:Ev; try discriminate.
    destruct (decompressBackup b) as [s|] eqn:Ed; try discriminate.
    destruct (Dynamic.truthy_value s); try discriminate.
    intros [= <-]. exists b, h, s. repeat split; assumption.
  - unfold tier_cookies.
    destruct (document_cookie st) as [cookie|] eqn:Ec; simpl;
      try discriminate.
    destruct (getCookieValue cookie RECOVERY_COOKIE_KEY) as [v|] eqn:Ev;
      simpl; try discriminate.
    destruct (getCookieValue cookie RECOVERY_HASH_KEY) as [h|] eqn:Eh;
      simpl; try discriminate.
    destruct v as [v|], h as [h|]; try discriminate.
    destruct (truthy (Some v) && truthy (Some h)); simpl; try discriminate.
    destruct (verifyHash v h) eqn:Evh; try discriminate.
    destruct (decompressBackup v) as [s|] eqn:Ed; try discriminate.
    destruct (Dynamic.truthy_value s); try discriminate.
    intros [= <-]. exists v, h, s. repeat split; try assumption.
    now exists cookie.
Qed.

(** The first tier that answers gives the result. *)
Lemma attemptRecovery_first (st : Stores) (tier : Source) (r : Recovery) :
  tierAnswer st tier = Js.Normal (Some r) ->
  earlierSilent st tier ->
  attemptRecovery st = Js.Normal r.
Proof.
  intros Hans Hsilent. unfold attemptRecovery, guarded.
  destruct tier; simpl in Hans.
  - now rewrite Hans.
  - pose proof (Hsilent indexeddb) as H1. simpl in H1.
    destruct (tier_indexeddb st) as [[r1|]|e1]; simpl.
    + exfalso. now apply (H1 r1 ltac:(lia)).
    + now rewrite Hans.
    + now rewrite Hans.
  - pose proof (Hsilent indexeddb) as H1.
    pose proof (Hsilent localstorage) as H2. simpl in H1, H2.
    destruct (tier_indexeddb st) as [[r1|]|e1]; simpl;
      try (exfalso; now apply (H1 r1 ltac:(lia)));
      destruct (tier_localstorage st) as [[r2|]|e2]; simpl;
      try (exfalso; now apply (H2 r2 ltac:(lia)));
      now rewrite Hans.
Qed.

(** [attemptRecovery] returns nothing, or what [decompressBackup] made of
    the data of a tier. *)
Lemma attemptRecovery_state (st : Stores) :
  attemptRecovery st = Js.Normal no_recovery
  \/ exists tier data s,
       attemptRecovery st
       = Js.Normal (mkRecovery true (Some s) (Some tier))
       /\ decompressBackup data = Some s.
Proof.
  assert (Hfound : forall tier r,
    tierAnswer st tier = Js.Normal (Some r) -> earlierSilent st tier ->
    attemptRecovery st = Js.Normal no_recovery
    \/ exists tier data s,
         attemptRecovery st
         = Js.Normal (mkRecovery true (Some s) (Some tier))
         /\ decompressBackup data = Some s).
  { intros tier r Hans Hsilent. right.
    destruct (tierAnswer_holds st tier r Hans)
      as [data [hash [s [Hr [_ [_ Hd]]]]]].
    exists tier, data, s. split; [|exact Hd].
    rewrite <- Hr. now apply (attemptRecovery_first st tier). }
  destruct (tierAnswer st indexeddb) as [[r1|]|e1] eqn:E1.
  { apply (Hfound indexeddb r1 E1). intros tier' r Hlt. simpl in Hlt. lia. }
  all: destruct (tierAnswer st localstorage) as [[r2|]|e2] eqn:E2.
  all: try (apply (Hfound localstorage r2 E2); intros tier' r Hlt;
            destruct tier'; simpl in Hlt; try lia; congruence).
  all: destruct (tierAnswer st cookies) as [[r3|]|e3] eqn:E3.
  all: try (apply (Hfound cookies r3 E3); intros tier' r Hlt;
            destruct tier'; simpl in Hlt; try lia; congruence).
  all: left; unfold attemptRecovery, guarded; simpl in E1, E2, E3;
    rewrite E1; simpl; rewrite E2; simpl; rewrite E3; reflexivity.
Qed.

End Tiers.


End TierFacts.

Module BackupFacts.
Import Types RecoveryManager Spec.

Lemma generateHash_nonEmpty (data : string) :
  Js.nonEmpty (generateHash data) = true.
Proof.
  unfold generateHash, Js.toString16.
  destruct (N.to_hex_uint (Z.to_N (Z.abs (hash_loop 0 data)))); reflexivity.
Qed.

Section Backup.
Context `{Platform}.

(** With libraries that lose nothing of [b], the data of the backup record
    of [b] decode to [b], provided [b] has tags: a board without tags is
    refused as an invalid backup. *)
Lemma backupData_decodes (b : BoardState.t) (now : Z) (record : BackupRecord) :
  lossless b -> BoardState.tags b <> None ->
  backupData (Board b) now = Js.Normal record ->
  decompressBackup (data record) = Some (Board b).
Proof.
  intros [Hparse [_ Hgzip]] Htags. unfold backupData.
  destruct (pako_gzip (JSON_stringify (Board b))) as [z|] eqn:Ez; simpl;
    [|discriminate].
  unfold fromCharCode_apply.
  destruct (List.length z <=? fromCharCode_max_args)%nat; simpl;
    [|discriminate].
  intros [= <-]. unfold decompressBackup. cbn [data].
  pose proof (Base64Facts.atob_btoa (string_of_list_byte z)) as Hb64.
  simpl in Hb64. rewrite Hb64. simpl.
  unfold bytes_of_binaryString. rewrite list_byte_of_string_of_list_byte.
  destruct (Hgzip z eq_refl) as [u [Hu Hd]].
  rewrite Hu. simpl. rewrite Hd, Hparse. simpl.
  destruct (BoardState.tags b); [reflexivity | congruence].
Qed.

(** A tier that holds data which pass the check and decode answers with the
    decoded board; localStorage and cookies also want the two texts not to
    be empty. *)
Lemma tierHolds_answers (st : Stores) (tier : Source) (d h : string)
  (s : Value) :
  tierHolds st tier d h ->
  Js.nonEmpty d = true -> Js.nonEmpty h = true ->
  verifyHash d h = true ->
  decompressBackup d = Some s ->
  tierAnswer st tier = Js.Normal (Some (mkRecovery true (Some s) (Some tier))).
Proof.
  intros Hholds Hd Hh Hv Hdec.
  pose proof (RecoveryFacts.decompressBackup_truthy d s Hdec) as Htruthy.
  destruct tier; simpl in *.
  - destruct Hholds as [ts Hget]. unfold tier_indexeddb.
    rewrite Hget. simpl. now rewrite Hv, Hdec, Htruthy.
  - destruct Hholds as [Hdata Hhash]. unfold tier_localstorage.
    rewrite Hdata, Hhash. simpl. now rewrite Hd, Hh, Hv, Hdec, Htruthy.
  - destruct Hholds as [cookie [Hc [Hdata Hhash]]]. unfold tier_cookies.
    rewrite Hc. simpl. rewrite Hdata, Hhash. simpl.
    now rewrite Hd, Hh, Hv, Hdec, Htruthy.
Qed.

End Backup.

(** What [createRecoveryBackup] writes, [attemptRecovery] reads back: let
    the libraries lose nothing of the board [b], let [b] have tags, and let
    a tier hold the data and the hash of the backup record of [b], the data
    not being empty, while no tier asked earlier answers.  Then
    [attemptRecovery] returns [b] and names that tier. *)
Theorem backup_recovered `{Platform} (b : BoardState.t) (now : Z)
  (record : BackupRecord) (st : Stores) (tier : Source) :
  lossless b ->
  BoardState.tags b <> None ->
  backupData (Board b) now = Js.Normal record ->
  data record <> EmptyString ->
  tierHolds st tier (data record) (hash record) ->
  earlierSilent st tier ->
  attemptRecovery st
  = Js.Normal (mkRecovery true (Some (Board b)) (Some tier)).
Proof.
  intros Hlossless Htags Hrecord Hdata Hholds Hsilent.
  destruct (RecoveryFacts.backupData_hash (Board b) now record Hrecord)
    as [Hhash Hverify].
  apply (TierFacts.attemptRecovery_first st tier); [|exact Hsilent].
  apply (tierHolds_answers st tier (data record) (hash record));
    try assumption.
  - unfold Js.nonEmpty. apply negb_true_iff, String.eqb_neq. exact Hdata.
  - rewrite Hhash. apply generateHash_nonEmpty.
  - now apply (backupData_decodes b now).
Qed.

Lemma backup_recovered_witness :
  @attemptRecovery Examples.samplePlatform
    (Examples.localStores Examples.sampleRecord)
  = Js.Normal (mkRecovery true (Some (Board Database.defaultState))
                 (Some localstorage)).
Proof.
  apply (@backup_recovered Examples.samplePlatform Database.defaultState
           1700000000000 Examples.sampleRecord
           (Examples.localStores Examples.sampleRecord) localstorage).
  - apply (CodecFacts.sample_lossless [Database.defaultState] []).
    reflexivity.
  - discriminate.
  - vm_compute. reflexivity.
  - vm_compute. discriminate.
  - split; reflexivity.
  - intros tier' r Hlt. destruct tier'; simpl in Hlt; try lia.
    simpl. discriminate.
Defined.

(** ** What [createRecoveryBackup] writes *)

(** A [try] block does an initial part of its writes, and all of them
    exactly when it reaches its end. *)
Lemma perform_prefix (w : Writers) (xs : list Write) :
  exists rest,
    xs = snd (perform w xs) ++ rest
    /\ (fst (perform w xs) = true <-> rest = []).
Proof.
  induction xs as [|x xs IH]; simpl.
  - exists []. split; [reflexivity | tauto].
  - destruct (perform_one w x).
    + destruct IH as [rest [Hxs Hok]].
      destruct (perform w xs) as [ok made]. simpl in *.
      exists rest. split; [now f_equal | exact Hok].
    + exists (x :: xs). split; [reflexivity|]. simpl.
      split; discriminate.
Qed.

Lemma perform_all (w : Writers) (xs : list Write) :
  fst (perform w xs) = true <-> snd (perform w xs) = xs.
Proof.
  destruct (perform_prefix w xs) as [rest [Hxs Hok]]. rewrite Hok. split.
  - intros ->. now rewrite app_nil_r in Hxs.
  - intros Heq. rewrite Heq in Hxs.
    apply (f_equal (@List.length Write)) in Hxs.
    rewrite length_app in Hxs. destruct rest; [reflexivity|].
    simpl in Hxs. lia.
Qed.



(** A torn write: when localStorage takes the data and then refuses the
    hash, the new data are written and no hash is, so that the store keeps
    whatever hash it had; the timestamp is not written either. *)
Theorem createRecoveryBackup_torn `{Platform} (w : Writers)
  (state : Value) (now : Z) (record : BackupRecord) (e : Js.Error) :
  backupData state now = Js.Normal record ->
  Js.len (JSON_stringify_backup w record) < 4 * 1024 * 1024 ->
  localStorage_setItem w RECOVERY_STORAGE_KEY (data record) = Js.Normal tt ->
  localStorage_setItem w RECOVERY_HASH_KEY (hash record) = Js.Throw e ->
  let made := snd (createRecoveryBackup w state now) in
  In (SetItem RECOVERY_STORAGE_KEY (data record)) made
  /\ forall key value,
       In (SetItem key value) made -> key = RECOVERY_STORAGE_KEY.
Proof.
  intros Hrecord Hfits Hdata Hhash. unfold createRecoveryBackup.
  rewrite Hrecord.
  apply Z.ltb_lt in Hfits. rewrite Hfits.
  cbn [perform localStorage_writes perform_one].
  rewrite Hdata, Hhash.
  destruct (idb_put w record); cbn [fst snd app];
    destruct (Js.len (data record) <? 3000);
    cbn [perform cookie_writes perform_one];
    repeat match goal with
           | |- context [document_cookie_set w ?t] =>
               destruct (document_cookie_set w t)
           end;
    cbn [fst snd app]; (split; [simpl; tauto|]);
    intros key value Hin; simpl in Hin;
    repeat match goal with
           | H : _ \/ _ |- _ => destruct H as [H|H]
           end;
    try contradiction; try discriminate; now injection Hin as <- _.
Qed.

Lemma createRecoveryBackup_torn_witness :
  In (SetItem RECOVERY_STORAGE_KEY (data Examples.sampleRecord))
    (snd (@createRecoveryBackup Examples.samplePlatform Examples.tornWriters
            (Board Database.defaultState) 1700000000000)).
Proof.
  apply (@createRecoveryBackup_torn Examples.samplePlatform
           Examples.tornWriters (Board Database.defaultState)
           1700000000000 Examples.sampleRecord (Js.LibraryError "QuotaExceededError")).
  - vm_compute. reflexivity.
  - vm_compute. reflexivity.
  - reflexivity.
  - reflexivity.
Defined.

End BackupFacts.

(* ================================================================== *)
(** * Loading and saving (useDatabase.ts)                              *)
(* ================================================================== *)

(* ================================================================== *)
(** * Boards as parsed values                                          *)
(* ================================================================== *)

(** The program, read on the value that a board is, does what it does on
    the board: the same test of the structure, and the same migration,
    the order of the properties of a task apart. *)
Module ShapeFacts.
Import Types Database Spec.

Lemma lookup_set (key k : string) (v : Json)
  (properties : list (string * Json)) :
  Dynamic.lookup key (Dynamic.set k v properties)
  = if String.eqb k key then Some v else Dynamic.lookup key properties.
Proof.
  induction properties as [|[k0 v0] rest IH]; simpl; [reflexivity|].
  destruct (String.eqb_spec k0 k) as [->|Hne]; simpl.
  - now destruct (String.eqb k key).
  - rewrite IH. destruct (String.eqb_spec k0 key) as [->|Hne'];
      [|reflexivity].
    destruct (String.eqb_spec k key) as [->|_]; [congruence | reflexivity].
Qed.

Lemma lacksStructure_board (b : BoardState.t) :
  RecoveryManager.lacksStructure (Other (jsonBoard b))
  = RecoveryManager.lacksStructure (Board b).
Proof. now destruct b as [columns tasks [tags|]]. Qed.

Lemma truthy_board (b : BoardState.t) :
  Dynamic.truthy_value (Other (jsonBoard b))
  = Dynamic.truthy_value (Board b).
Proof. reflexivity. Qed.

Ltac by_key key :=
  repeat match goal with
         | |- context [String.eqb ?k key] =>
             destruct (String.eqb_spec k key) as [<-|?]; [reflexivity|]
         end;
  reflexivity.

Lemma migrateTask_json_task (task : Task.t) :
  exists migrated,
    migrateTask_json (jsonTask task) = Js.Normal migrated
    /\ sameProperties migrated (jsonTask (migrateTask task)).
Proof.
  destruct task as [id title description priority status notes subtasks
                      attachments tags columnId order createdAt completedAt].
  destruct description, status as [[]|], subtasks, attachments, tags,
    completedAt; cbn; eexists; (split; [reflexivity|]);
    do 2 eexists; (split; [reflexivity|]); (split; [reflexivity|]);
    intros key; cbn -[String.eqb]; by_key key.
Qed.

Lemma migrateTasks_json (tasks : list Task.t) :
  exists migrated,
    Js.mapM migrateTask_json (map jsonTask tasks) = Js.Normal migrated
    /\ Forall2 sameProperties migrated (map jsonTask (map migrateTask tasks)).
Proof.
  induction tasks as [|task tasks [rest [Hrest Hsame]]]; cbn [map Js.mapM].
  - exists []. split; [reflexivity | constructor].
  - destruct (migrateTask_json_task task) as [migrated [-> Htask]].
    rewrite Hrest. cbn [Js.bind]. exists (migrated :: rest).
    split; [reflexivity | now constructor].
Qed.

(** [migrateState] on the value that a board is gives the value that the
    migrated board is: the columns, the tags, and task by task the same
    properties. *)
Lemma migrateState_json_board (b : BoardState.t) :
  exists properties tasks,
    migrateState_json (jsonBoard b) = Js.Normal (JObject properties)
    /\ Dynamic.lookup "columns" properties
       = Some (JArray (map jsonColumn (BoardState.columns (migrateState b))))
    /\ Dynamic.lookup "tasks" properties = Some (JArray tasks)
    /\ Forall2 sameProperties tasks
         (map jsonTask (BoardState.tasks (migrateState b)))
    /\ Dynamic.lookup "tags" properties
       = option_map (fun l => JArray (map Tag_json l))
           (BoardState.tags (migrateState b))
    /\ forall key,
         Dynamic.lookup key properties <> None ->
         key = "columns" \/ key = "tasks" \/ key = "tags".
Proof.
  destruct b as [columns tasks tags].
  destruct (migrateTasks_json tasks) as [migrated [Hmigrated Hsame]].
  unfold migrateState_json.
  destruct tags as [tags|]; cbn; rewrite Hmigrated; cbn;
    do 2 eexists; (split; [reflexivity|]);
    (split; [reflexivity|]); (split; [reflexivity|]);
    (split; [exact Hsame|]); (split; [reflexivity|]);
    intros key; cbn -[String.eqb];
    repeat match goal with
           | |- context [String.eqb ?k key] =>
               destruct (String.eqb_spec k key) as [<-|?]; [tauto|]
           end;
    congruence.
Qed.

End ShapeFacts.

Module LoaderFacts.
Import Types Database Spec.

Section Loader.
Context `{Platform}.

Lemma decompressState_returns (payload : Payload) :
  exists decoded, decompressState payload = Js.Normal decoded.
Proof.
  destruct payload as [s|o];
    [rewrite CodecFacts.decompressState_string | unfold decompressState];
    simpl; eauto.
Qed.

Lemma compressState_returns (state : Value) :
  exists payload, compressState state = Js.Normal payload.
Proof.
  unfold compressState.
  destruct (pako_gzip (JSON_stringify state)); simpl; [|eauto].
  destruct (fromCharCode_apply a); simpl; [|eauto].
  unfold Js.btoa. eauto.
Qed.

Lemma defaultState_complete : complete defaultState = true.
Proof. reflexivity. Qed.

(** ** What [migrateState] throws on a value that is no board *)

Lemma get_error (value : Json) (key : string) (e : Js.Error) :
  Dynamic.get value key = Js.Throw e -> e = Js.TypeError.
Proof. destruct value; simpl; try discriminate. now intros [= <-]. Qed.

Lemma migrateTask_json_error (task : Json) (e : Js.Error) :
  migrateTask_json task = Js.Throw e -> e = Js.TypeError.
Proof.
  destruct task; simpl; try discriminate. now intros [= <-].
Qed.

Lemma mapM_error {A B} (f : A -> Js.Exc B) (e0 : Js.Error) (l : list A) :
  (forall x e, f x = Js.Throw e -> e = e0) ->
  forall e, Js.mapM f l = Js.Throw e -> e = e0.
Proof.
  intros Hf. induction l as [|x l IH]; simpl; intros e; [discriminate|].
  destruct (f x) as [y|e'] eqn:Ex; simpl.
  - destruct (Js.mapM f l) as [ys|e'']; simpl; [discriminate|].
    intros [= <-]. now apply IH.
  - intros [= <-]. now apply (Hf x).
Qed.

Lemma migrateState_json_error (state : Json) (e : Js.Error) :
  migrateState_json state = Js.Throw e -> e = Js.TypeError.
Proof.
  unfold migrateState_json.
  destruct (Dynamic.get state "tasks") as [tasks|e'] eqn:Etasks; simpl;
    [|intros [= <-]; now apply (get_error state "tasks")].
  destruct tasks as [[| | | |items|]|]; try (now intros [= <-]).
  destruct (Js.mapM migrateTask_json items) as [migrated|e'] eqn:Emap; simpl.
  - destruct (Dynamic.get state "tags") as [tags|e''] eqn:Etags; simpl;
      [discriminate|].
    intros [= <-]. now apply (get_error state "tags").
  - intros [= <-].
    now apply (mapM_error migrateTask_json Js.TypeError items
                 migrateTask_json_error).
Qed.

(** A board is always migrated; another value is, or a TypeError is
    thrown. *)
Lemma migrateValue_error (state : Value) (e : Js.Error) :
  migrateValue state = Js.Throw e ->
  e = Js.TypeError
  /\ exists j, state = Other j /\ migrateState_json j = Js.Throw Js.TypeError.
Proof.
  destruct state as [b|j]; simpl; [discriminate|].
  destruct (migrateState_json j) as [migrated|e'] eqn:Ej; simpl;
    [discriminate|].
  intros [= <-]. pose proof (migrateState_json_error j e' Ej) as ->.
  split; [reflexivity|]. now exists j.
Qed.

End Loader.

Ltac run_load :=
  unfold loadData, finallyE, tryE, bindE, lift, ret, update, put, backup,
    setState, setRecoveryInfo, setIsLoading, initialHook, truthyState;
  cbn [Hook.state Hook.isLoading Hook.recoveryInfo Hook.puts Hook.written].

(** Splits on what the next statement of the loader meets. *)
Ltac next_case :=
  match goal with
  | |- context [match db_put ?db ?p with _ => _ end] =>
      destruct (db_put db p)
  | |- context [if Dynamic.truthy_value ?v then _ else _] =>
      let E := fresh "Etruthy" in destruct (Dynamic.truthy_value v) eqn:E
  | |- context [match migrateValue ?v with _ => _ end] =>
      let E := fresh "Emigrate" in
      destruct (migrateValue v) eqn:E
  end; cbn.

(** How [loadData] ends, whatever the stores answer and whatever the JSON
    parser returns.  [isLoading] is off.  The board shown is the default
    board the hook started with, or what [migrateState] made of the decoding
    of the payload that the main database answered with, or of the value
    that [attemptRecovery] returned.  [loadData] ends without an exception,
    or with a TypeError: that happens only when the recovery returns a
    value that is no board and on which [migrateState] throws, and then the
    default board stays shown.  When what the payload decodes to and what
    the recovery returns are boards, there is no exception and the board
    shown misses nothing. *)
Theorem loadData_outcome `{Platform} (db : MainDB)
  (st : RecoveryManager.Stores) (w : RecoveryManager.Writers) (now : Z) :
  let loaded := loadData db st w now initialHook in
  Hook.isLoading (fst loaded) = false
  /\ (Hook.state (fst loaded) = Board defaultState
      \/ exists s,
           migrateValue s = Js.Normal (Hook.state (fst loaded))
           /\ ((exists saved payload,
                   db_get db = Js.Normal saved
                   /\ truthyPayload saved = Some payload
                   /\ decompressState payload = Js.Normal s)
               \/ exists source,
                    RecoveryManager.attemptRecovery st
                    = Js.Normal
                        (RecoveryManager.mkRecovery true (Some s) source)))
  /\ (snd loaded = Js.Normal tt
      \/ snd loaded = Js.Throw Js.TypeError
         /\ Hook.state (fst loaded) = Board defaultState
         /\ exists j source,
              RecoveryManager.attemptRecovery st
              = Js.Normal
                  (RecoveryManager.mkRecovery true (Some (Other j)) source)
              /\ migrateState_json j = Js.Throw Js.TypeError)
  /\ ((forall saved payload s,
         db_get db = Js.Normal saved ->
         truthyPayload saved = Some payload ->
         decompressState payload = Js.Normal s ->
         exists b, s = Board b) ->
      (forall s source,
         RecoveryManager.attemptRecovery st
         = Js.Normal (RecoveryManager.mkRecovery true (Some s) source) ->
         exists b, s = Board b) ->
      snd loaded = Js.Normal tt
      /\ exists b,
           Hook.state (fst loaded) = Board b /\ complete b = true).
Proof.
  intros loaded.
  assert (Hcases :
    Hook.isLoading (fst loaded) = false
    /\ (Hook.state (fst loaded) = Board defaultState
        \/ exists s,
             migrateValue s = Js.Normal (Hook.state (fst loaded))
             /\ ((exists saved payload,
                     db_get db = Js.Normal saved
                     /\ truthyPayload saved = Some payload
                     /\ decompressState payload = Js.Normal s)
                 \/ exists source,
                      RecoveryManager.attemptRecovery st
                      = Js.Normal
                          (RecoveryManager.mkRecovery true (Some s) source)))
    /\ (snd loaded = Js.Normal tt
        \/ snd loaded = Js.Throw Js.TypeError
           /\ Hook.state (fst loaded) = Board defaultState
           /\ exists j source,
                RecoveryManager.attemptRecovery st
                = Js.Normal
                    (RecoveryManager.mkRecovery true (Some (Other j)) source)
                /\ migrateState_json j = Js.Throw Js.TypeError)).
  { subst loaded.
    destruct (TierFacts.attemptRecovery_state st)
      as [Hr | [tier [data [s [Hr Hdata]]]]].
    - run_load. rewrite Hr. cbn.
      destruct (db_get db) as [saved|e]; cbn;
        [|repeat split; now left].
      destruct (truthyPayload saved) as [payload|] eqn:Hpayload; cbn;
        [|repeat split; now left].
      destruct (decompressState_returns payload) as [decoded Hdecoded].
      rewrite Hdecoded. cbn.
      repeat next_case; repeat split; try (now left).
      right. exists decoded. split; [assumption|]. left.
      now exists saved, payload.
    - pose proof (migrateValue_error s) as Hthrow.
      run_load. rewrite Hr. cbn.
      rewrite (RecoveryFacts.decompressBackup_truthy data s Hdata). cbn.
      destruct (compressState_returns s) as [compressed Hcompressed].
      destruct (db_get db) as [saved|e]; cbn.
      + destruct (truthyPayload saved) as [payload|] eqn:Hpayload; cbn.
        * destruct (decompressState_returns payload) as [decoded Hdecoded].
          rewrite Hdecoded. cbn.
          repeat (first [rewrite Hcompressed; cbn | next_case]).
          all: repeat split.
          all: try (now left).
          all: try (right; exists decoded; split; [assumption|]; left;
                    now exists saved, payload).
          all: try (right; exists s; split; [assumption|]; right;
                    now exists (Some tier)).
          all: right;
            destruct (Hthrow _ eq_refl) as [-> [j [-> Hj]]];
            repeat split; now exists j, (Some tier).
        * repeat (first [rewrite Hcompressed; cbn | next_case]).
          all: repeat split.
          all: try (now left).
          all: try (right; exists s; split; [assumption|]; right;
                    now exists (Some tier)).
          all: right;
            destruct (Hthrow _ eq_refl) as [-> [j [-> Hj]]];
            repeat split; now exists j, (Some tier).
      + repeat next_case.
        all: repeat split.
        all: try (now left).
        all: try (right; exists s; split; [assumption|]; right;
                  now exists (Some tier)).
        all: right;
          destruct (Hthrow _ eq_refl) as [-> [j [-> Hj]]];
          repeat split; now exists j, (Some tier). }
  destruct Hcases as [Hloading [Hstate Hend]].
  split; [exact Hloading|]. split; [exact Hstate|]. split; [exact Hend|].
  intros Hdecoded Hrecovered.
  split.
  - destruct Hend as [Hend | [_ [_ [j [source [Hrec _]]]]]]; [exact Hend|].
    destruct (Hrecovered _ _ Hrec) as [b Hb]. discriminate Hb.
  - destruct Hstate as [-> | [s [Hmigrated Hfrom]]];
      [now exists defaultState|].
    assert (Hboard : exists b, s = Board b).
    { destruct Hfrom as [[saved [payload [Hget [Hp Hs]]]] | [source Hrec]].
      - now apply (Hdecoded saved payload).
      - now apply (Hrecovered s source). }
    destruct Hboard as [b ->]. simpl in Hmigrated.
    injection Hmigrated as <-. exists (migrateState b).
    split; [reflexivity | apply StoreFacts.migrateState_complete].
Qed.

Lemma loadData_outcome_witness :
  snd (@loadData Examples.samplePlatform
         {| db_get :=
              Js.Normal
                (Some (PString (RecoveryManager.data Examples.sampleRecord)));
            db_put := fun _ => Js.Normal tt |}
         (Examples.localStores Examples.sampleRecord)
         Examples.willingWriters 1700000000000 initialHook)
  = Js.Normal tt
  /\ exists b,
       Hook.state
         (fst (@loadData Examples.samplePlatform
                 {| db_get :=
                      Js.Normal
                        (Some (PString
                                 (RecoveryManager.data
                                    Examples.sampleRecord)));
                    db_put := fun _ => Js.Normal tt |}
                 (Examples.localStores Examples.sampleRecord)
                 Examples.willingWriters 1700000000000 initialHook))
       = Board b
       /\ complete b = true.
Proof.
  apply (@loadData_outcome Examples.samplePlatform
           {| db_get :=
                Js.Normal
                  (Some (PString
                           (RecoveryManager.data Examples.sampleRecord)));
              db_put := fun _ => Js.Normal tt |}
           (Examples.localStores Examples.sampleRecord)
           Examples.willingWriters 1700000000000).
  - intros saved payload s [= <-] Hpayload.
    vm_compute in Hpayload. injection Hpayload as <-.
    vm_compute. intros [= <-]. eexists. reflexivity.
  - intros s source. vm_compute. intros [= <- _]. eexists. reflexivity.
Defined.

(** A backup that holds [{"columns":1,"tasks":1,"tags":1}] under its own
    hash is taken by the recovery, put into the main database, and makes
    [loadData] end with a TypeError, the catch block having asked the
    recovery again. *)
Lemma loadData_rejects_example :
  @loadData Examples.foreignPlatform
    {| db_get := Js.Normal None; db_put := fun _ => Js.Normal tt |}
    (Examples.localStores Examples.foreignRecord)
    Examples.willingWriters 1700000000000 initialHook
  = (Hook.mk (Board defaultState) false
       (true, Some RecoveryManager.localstorage)
       [RecoveryManager.data Examples.foreignRecord] [],
     Js.Throw Js.TypeError).
Proof. vm_compute. reflexivity. Qed.

(** A stored payload is final when it decodes to a truthy value that
    [migrateState] accepts, as every board is.  When the main database
    answers with a text that is not empty or with a board, and the payload
    decodes so, [loadData] ends without an exception and the hook shows the
    migrated decoding: the recovery backups are not read, nothing is put
    into the main database, and the backups are written anew from the
    value shown.  For a text that can be decoded neither as a compressed
    board nor as JSON this value is the default board. *)
Theorem stored_payload_wins `{Platform} (db : MainDB)
  (st : RecoveryManager.Stores) (w : RecoveryManager.Writers) (now : Z)
  (saved : option Payload) (payload : Payload) (decoded migrated : Value) :
  db_get db = Js.Normal saved ->
  truthyPayload saved = Some payload ->
  decompressState payload = Js.Normal decoded ->
  Dynamic.truthy_value decoded = true ->
  migrateValue decoded = Js.Normal migrated ->
  loadData db st w now initialHook
  = (Hook.mk migrated false (false, None) []
       (snd (RecoveryManager.createRecoveryBackup w migrated now)),
     Js.Normal tt)
  /\ (forall b, decoded = Board b -> migrated = Board (migrateState b))
  /\ forall text,
       payload = PString text ->
       base64GzipJson text = None ->
       plainJson text = None ->
       migrated = Board defaultState.
Proof.
  intros Hget Hpayload Hdecoded Htruthy Hmigrated. split; [|split].
  - run_load. rewrite Hget. cbn. rewrite Hpayload. cbn. rewrite Hdecoded.
    cbn. rewrite Htruthy. cbn. rewrite Hmigrated. reflexivity.
  - intros b ->. simpl in Hmigrated. now injection Hmigrated as <-.
  - intros text -> H64 Hplain.
    rewrite CodecFacts.decompressState_string, H64 in Hdecoded.
    unfold plainJson in Hplain.
    destruct (JSON_parse text); [discriminate|].
    injection Hdecoded as <-. simpl in Hmigrated.
    now injection Hmigrated as <-.
Qed.

Lemma stored_payload_wins_witness :
  @loadData Examples.samplePlatform
    {| db_get := Js.Normal (Some (PString "not a board"));
       db_put := fun _ => Js.Normal tt |}
    (Examples.localStores Examples.sampleRecord)
    Examples.willingWriters 1700000000000 initialHook
  = (Hook.mk (Board defaultState) false (false, None) []
       (snd (@RecoveryManager.createRecoveryBackup
               Examples.samplePlatform Examples.willingWriters
               (Board defaultState) 1700000000000)),
     Js.Normal tt).
Proof.
  apply (@stored_payload_wins Examples.samplePlatform
           {| db_get := Js.Normal (Some (PString "not a board"));
              db_put := fun _ => Js.Normal tt |}
           (Examples.localStores Examples.sampleRecord)
           Examples.willingWriters 1700000000000
           (Some (PString "not a board")) (PString "not a board")
           (Board defaultState) (Board defaultState));
    reflexivity.
Defined.

(** A stored payload that decodes to a value which is no board is not
    final.  The text of the empty object decodes to the empty object, on
    which [migrateState] throws, and the text of [null] decodes to [null],
    which counts as nothing: in both cases the recovery is asked, and the
    hook shows the board of the backup. *)
Lemma payload_not_final_example :
  Hook.state
    (fst (@loadData Examples.foreignPlatform
            {| db_get := Js.Normal (Some (PString "{}"));
               db_put := fun _ => Js.Normal tt |}
            (Examples.localStores Examples.sampleRecord)
            Examples.willingWriters 1700000000000 initialHook))
  = Board defaultState
  /\ Hook.recoveryInfo
       (fst (@loadData Examples.foreignPlatform
               {| db_get := Js.Normal (Some (PString "{}"));
                  db_put := fun _ => Js.Normal tt |}
               (Examples.localStores Examples.sampleRecord)
               Examples.willingWriters 1700000000000 initialHook))
     = (true, Some RecoveryManager.localstorage)
  /\ Hook.recoveryInfo
       (fst (@loadData Examples.foreignPlatform
               {| db_get := Js.Normal (Some (PString "null"));
                  db_put := fun _ => Js.Normal tt |}
               (Examples.localStores Examples.sampleRecord)
               Examples.willingWriters 1700000000000 initialHook))
     = (true, Some RecoveryManager.localstorage).
Proof. vm_compute. repeat split. Qed.

(** Recovery at load time.  When the main database cannot be read, or
    holds nothing, and [attemptRecovery] returns a board, the hook shows
    that board migrated and reports the tier it came from, whether or not
    the board can then be put into the main database.  The payload is put
    and the backups are written anew only when the database could be read
    and takes the payload. *)
Theorem loadData_recovers `{Platform} (db : MainDB)
  (st : RecoveryManager.Stores) (w : RecoveryManager.Writers) (now : Z)
  (s : BoardState.t) (source : option RecoveryManager.Source) :
  (forall saved, db_get db = Js.Normal saved -> truthyPayload saved = None) ->
  RecoveryManager.attemptRecovery st
  = Js.Normal (RecoveryManager.mkRecovery true (Some (Board s)) source) ->
  let loaded := fst (loadData db st w now initialHook) in
  Hook.state loaded = Board (migrateState s)
  /\ Hook.recoveryInfo loaded = (true, source)
  /\ Hook.isLoading loaded = false
  /\ exists payload,
       compressState (Board s) = Js.Normal payload
       /\ match db_get db, db_put db payload with
          | Js.Normal _, Js.Normal _ =>
              Hook.puts loaded = [payload]
              /\ Hook.written loaded
                 = snd (RecoveryManager.createRecoveryBackup w
                          (Board (migrateState s)) now)
          | _, _ => Hook.puts loaded = [] /\ Hook.written loaded = []
          end.
Proof.
  intros Hempty Hrec.
  destruct (LoaderFacts.compressState_returns (Board s))
    as [payload Hpayload].
  run_load. rewrite Hrec. cbn.
  destruct (db_get db) as [saved|e]; cbn.
  - rewrite (Hempty saved eq_refl). cbn. rewrite Hpayload. cbn.
    destruct (db_put db payload) eqn:Eput; cbn;
      (repeat split; exists payload; split; [reflexivity|]);
      rewrite Eput; split; reflexivity.
  - repeat split. exists payload. split; [exact Hpayload|].
    split; reflexivity.
Qed.

Lemma loadData_recovers_witness :
  Hook.state
    (fst (@loadData Examples.samplePlatform
            {| db_get := Js.Normal None; db_put := fun _ => Js.Normal tt |}
            (Examples.localStores Examples.sampleRecord)
            Examples.willingWriters 1700000000000 initialHook))
  = Board (migrateState defaultState).
Proof.
  apply (@loadData_recovers Examples.samplePlatform
           {| db_get := Js.Normal None; db_put := fun _ => Js.Normal tt |}
           (Examples.localStores Examples.sampleRecord)
           Examples.willingWriters 1700000000000 defaultState
           (Some RecoveryManager.localstorage)).
  - intros saved [= <-]. reflexivity.
  - vm_compute. reflexivity.
Defined.

(** [saveState] shows the new board at once and never throws; when the
    main database refuses the payload, the hook still shows the new board
    although nothing was stored, and the recovery backups are not written
    either. *)
Theorem saveState_put_refused `{Platform} (db : MainDB)
  (w : RecoveryManager.Writers) (now : Z) (newState : Value)
  (h : Hook.t) :
  let saved := saveState db w now newState h in
  snd saved = Js.Normal tt
  /\ Hook.state (fst saved) = newState
  /\ exists payload,
       compressState newState = Js.Normal payload
       /\ match db_put db payload with
          | Js.Normal _ =>
              Hook.puts (fst saved) = Hook.puts h ++ [payload]
              /\ Hook.written (fst saved)
                 = Hook.written h
                   ++ snd (RecoveryManager.createRecoveryBackup w newState
                             now)
          | Js.Throw _ =>
              Hook.puts (fst saved) = Hook.puts h
              /\ Hook.written (fst saved) = Hook.written h
          end.
Proof.
  destruct (LoaderFacts.compressState_returns newState) as [payload Hp].
  unfold saveState. run_load. rewrite Hp. cbn.
  destruct (db_put db payload) eqn:Eput; cbn;
    (repeat split; exists payload; split; [reflexivity|]);
    rewrite Eput; split; reflexivity.
Qed.

(** Save, then load.  With libraries that lose nothing of the board, what
    [saveState] puts into the main database is loaded again as the migrated
    board, without any recovery; for a board that misses nothing this is
    the board that was saved. *)
Theorem save_then_load `{Platform} (db db' : MainDB)
  (st : RecoveryManager.Stores) (w w' : RecoveryManager.Writers)
  (now now' : Z) (newState : BoardState.t) (payload : string) (h : Hook.t) :
  lossless newState ->
  Hook.puts (fst (saveState db w now (Board newState) h))
  = Hook.puts h ++ [payload] ->
  payload <> EmptyString ->
  db_get db' = Js.Normal (Some (PString payload)) ->
  let loaded := fst (loadData db' st w' now' initialHook) in
  Hook.state loaded = Board (migrateState newState)
  /\ Hook.recoveryInfo loaded = (false, None)
  /\ (complete newState = true -> Hook.state loaded = Board newState).
Proof.
  intros Hlossless Hput Hne Hget.
  assert (Hpayload : compressState (Board newState) = Js.Normal payload).
  { destruct (LoaderFacts.compressState_returns (Board newState))
      as [p Hp].
    revert Hput. unfold saveState. run_load. rewrite Hp. cbn.
    destruct (db_put db p); cbn.
    - intros Heq. apply app_inv_head in Heq. now injection Heq as ->.
    - intros Heq. rewrite <- (app_nil_r (Hook.puts h)) in Heq at 1.
      apply app_inv_head in Heq. discriminate Heq. }
  assert (Hdec :
    decompressState (PString payload) = Js.Normal (Board newState)).
  { pose proof (CodecFacts.roundTrip_lossless newState Hlossless) as Hrt.
    unfold roundTrip in Hrt. now rewrite Hpayload in Hrt. }
  assert (Hstate :
    Hook.state (fst (loadData db' st w' now' initialHook))
    = Board (migrateState newState)
    /\ Hook.recoveryInfo (fst (loadData db' st w' now' initialHook))
       = (false, None)).
  { run_load. rewrite Hget. cbn.
    assert (Htruthy : Js.nonEmpty payload = true)
      by (unfold Js.nonEmpty; now apply negb_true_iff, String.eqb_neq).
    rewrite Htruthy. cbn. rewrite Hdec. cbn. split; reflexivity. }
  destruct Hstate as [Hstate Hinfo]. cbv zeta.
  split; [exact Hstate|]. split; [exact Hinfo|].
  intros Hc. rewrite Hstate. f_equal. now apply StoreFacts.complete_fixed.
Qed.

Lemma save_then_load_witness :
  Hook.state
    (fst (@loadData Examples.samplePlatform
            {| db_get :=
                 Js.Normal
                   (Some (PString
                            (RecoveryManager.data Examples.sampleRecord)));
               db_put := fun _ => Js.Normal tt |}
            Examples.emptyStores Examples.willingWriters 1700000000001
            initialHook))
  = Board (migrateState defaultState).
Proof.
  refine (proj1 (@save_then_load Examples.samplePlatform
           {| db_get := Js.Normal None; db_put := fun _ => Js.Normal tt |}
           {| db_get :=
                Js.Normal
                  (Some (PString
                           (RecoveryManager.data Examples.sampleRecord)));
              db_put := fun _ => Js.Normal tt |}
           Examples.emptyStores Examples.willingWriters
           Examples.willingWriters 1700000000000 1700000000001
           defaultState (RecoveryManager.data Examples.sampleRecord)
           initialHook _ _ _ _)).
  - apply (CodecFacts.sample_lossless [defaultState] []). reflexivity.
  - vm_compute. reflexivity.
  - vm_compute. discriminate.
  - reflexivity.
Defined.

End LoaderFacts.

(* ================================================================== *)
(** * Importing a file (BackupManager.ts, useDatabase.ts)              *)
(* ================================================================== *)

Module ImportFacts.
Import Types Database Spec.

Lemma mapM_throws {A B} (f : A -> Js.Exc B) (e : Js.Error) (l : list A) :
  (forall y e', In y l -> f y = Js.Throw e' -> e' = e) ->
  (exists x, In x l /\ f x = Js.Throw e) ->
  Js.mapM f l = Js.Throw e.
Proof.
  induction l as [|y l IH]; intros Hall [x [Hin Hx]]; [contradiction|].
  simpl. destruct (f y) as [b|e'] eqn:Ey; simpl.
  - destruct Hin as [->|Hin]; [congruence|].
    rewrite IH; [reflexivity | | now exists x].
    intros z e' Hz. apply Hall. now right.
  - f_equal. apply (Hall y); [now left | exact Ey].
Qed.

(** An imported board is installed as it is.  [importBoard] only accepts
    boards with a tag list, and [importBoardState] hands the board on
    without [migrateState]; so when a task of the file has no tag ids,
    every later [deleteTag] throws a TypeError. *)
Theorem import_not_migrated `{Platform}
  (arrayBuffer : Js.Exc (list Byte.byte)) (imported : BoardState.t)
  (current : Value) (tagId : string) :
  BackupManager.importBoard arrayBuffer = Some (Board imported) ->
  BoardState.tags imported <> None
  /\ importBoardState current (Board imported) = Board imported
  /\ ((exists task, In task (BoardState.tasks imported)
                    /\ Task.tags task = None) ->
      deleteTag imported tagId = Js.Throw Js.TypeError).
Proof.
  intros Himport.
  assert (Htags : BoardState.tags imported <> None).
  { revert Himport. unfold BackupManager.importBoard.
    destruct arrayBuffer as [buffer|]; simpl; [|discriminate].
    destruct (pako_ungzip buffer) as [bytes|]; simpl; [|discriminate].
    destruct (JSON_parse (TextDecoder_decode bytes)) as [parsed|]; simpl;
      [|discriminate].
    destruct (RecoveryManager.lacksStructure parsed) as [[|]|] eqn:Hlacks;
      simpl; try discriminate.
    intros [= ->]. simpl in Hlacks.
    destruct (BoardState.tags imported); [discriminate | discriminate]. }
  split; [exact Htags|]. split; [reflexivity|].
  intros Hlegacy. unfold deleteTag.
  destruct (BoardState.tags imported) as [tags|]; [|congruence].
  cbn [defined Js.bind].
  rewrite (mapM_throws _ Js.TypeError); [reflexivity| |].
  - intros task e'. destruct (Task.tags task); simpl; [discriminate|].
    now intros _ [= <-].
  - destruct Hlegacy as [task [Hin Hnone]]. exists task.
    split; [exact Hin|]. now rewrite Hnone.
Qed.

Lemma import_not_migrated_witness :
  BoardState.tags Examples.halfMigrated <> None
  /\ importBoardState (Board defaultState) (Board Examples.halfMigrated)
     = Board Examples.halfMigrated
  /\ ((exists task, In task (BoardState.tasks Examples.halfMigrated)
                    /\ Task.tags task = None) ->
      deleteTag Examples.halfMigrated "tag-1" = Js.Throw Js.TypeError).
Proof.
  apply (@import_not_migrated Examples.importPlatform
           (Sample.store (Sample.stringify (Board Examples.halfMigrated)))
           Examples.halfMigrated (Board defaultState) "tag-1").
  vm_compute. reflexivity.
Defined.

End ImportFacts.

(* ================================================================== *)
(** * Dragging a task (App.tsx)                                        *)
(* ================================================================== *)

Module DragFacts.
Import Types Database Spec.













End DragFacts.
